(** * quota-puppeteer-api: the row extractor and the request handler of
    [src/server.js], embedded in Rocq.

    - JavaScript strings are [string]s: sequences of code units, here the
      Latin-1 range 0..255 that [ascii] offers.
    - JavaScript Numbers are IEEE 754 binary64 values, [spec_float] with
      precision 53 and maximal exponent 1024, and the arithmetic is the
      Standard Library's executable specification of it.
    - The regular expression literal of the extractor is a term of a small
      regular-expression syntax, run by a backtracking matcher.
    - The handler is a computation in a monad of traces and exceptions over
      an environment that decides which external call throws. *)

From Stdlib Require Import ZArith List String Ascii Bool Lia Arith.
From Stdlib Require Import Floats.SpecFloat.
Import ListNotations.
Local Open Scope string_scope.
Local Open Scope Z_scope.

(* ================================================================== *)
(** ** Strings *)

(** WhiteSpace and LineTerminator code units: what [\s] matches and what
    [trim] removes (TAB, LF, VT, FF, CR, SP, NBSP). *)
Definition is_ws (c : ascii) : bool :=
  let n := nat_of_ascii c in
  ((9 <=? n) && (n <=? 13) || (n =? 32) || (n =? 160))%nat.

(** [\d] *)
Definition is_digit (c : ascii) : bool :=
  let n := nat_of_ascii c in ((48 <=? n) && (n <=? 57))%nat.

Fixpoint trimStart (s : string) : string :=
  match s with
  | String c s' => if is_ws c then trimStart s' else s
  | EmptyString => s
  end.

Fixpoint trimEnd (s : string) : string :=
  match s with
  | String c s' =>
    match trimEnd s' with
    | EmptyString => if is_ws c then EmptyString else String c EmptyString
    | t => String c t
    end
  | EmptyString => EmptyString
  end.

Definition trim (s : string) : string := trimEnd (trimStart s).

(** [s.replace(/\s/g, '')] *)
Fixpoint strip_ws (s : string) : string :=
  match s with
  | String c s' => if is_ws c then strip_ws s' else String c (strip_ws s')
  | EmptyString => EmptyString
  end.

Definition lower_char (c : ascii) : ascii :=
  let n := nat_of_ascii c in
  if ((65 <=? n) && (n <=? 90) ||
      (192 <=? n) && (n <=? 222) && negb (n =? 215))%nat
  then ascii_of_nat (n + 32) else c.

Fixpoint toLowerCase (s : string) : string :=
  match s with
  | String c s' => String (lower_char c) (toLowerCase s')
  | EmptyString => EmptyString
  end.

(** [s.startsWith(p)] gives the rest of [s] behind [p] here. *)
Fixpoint strip_prefix (p s : string) : option string :=
  match p, s with
  | EmptyString, _ => Some s
  | String a p', String b s' => if Ascii.eqb a b then strip_prefix p' s' else None
  | String _ _, EmptyString => None
  end.

Definition startsWith (s p : string) : bool :=
  match strip_prefix p s with Some _ => true | None => false end.

(** [s.split(sep)] for a separator of one code unit. *)
Fixpoint split (sep : ascii) (s : string) : list string :=
  match s with
  | EmptyString => [EmptyString]
  | String c s' =>
    if Ascii.eqb c sep then EmptyString :: split sep s'
    else match split sep s' with
         | w :: ws => String c w :: ws
         | [] => [String c EmptyString]
         end
  end.

Definition reverse {A} (l : list A) : list A := rev l.

(** [l.join(sep)] *)
Fixpoint join (sep : string) (l : list string) : string :=
  match l with
  | [] => EmptyString
  | [w] => w
  | w :: ws => w ++ sep ++ join sep ws
  end.

(** The longest prefix of code units satisfying [p], and the rest. *)
Fixpoint span (p : ascii -> bool) (s : string) : string * string :=
  match s with
  | String c s' =>
    if p c then let '(a, b) := span p s' in (String c a, b) else (EmptyString, s)
  | EmptyString => (EmptyString, EmptyString)
  end.

(* ================================================================== *)
(** ** Numbers *)

Definition Number := spec_float.
Definition prec : Z := 53.
Definition emax : Z := 1024.

Definition NaN : Number := S754_nan.
Definition Infinity (neg : bool) : Number := S754_infinity neg.

(** The Number value for an integer (round to nearest, ties to even). *)
Definition Z2SF (z : Z) : Number := binary_normalize prec emax z 0 false.

(** The Number value for the decimal [s * 10^t], [0 <= s], with the sign
    [neg]: an exact integer is rounded once, a fraction is the correctly
    rounded quotient of [s] by [10^(-t)]. *)
Definition dec2float (neg : bool) (s t : Z) : Number :=
  match s with
  | Z0 => S754_zero neg
  | Zneg _ => NaN
  | Zpos p =>
    if 0 <=? t then binary_round prec emax neg (Z.to_pos (Zpos p * 10 ^ t)) 0
    else
      let '(q, e, l) := SFdiv_core_binary prec emax (Zpos p) 0 (10 ^ (- t)) 0 in
      binary_round_aux prec emax neg q e l
  end.

Definition Number_eqb (x y : Number) : bool :=
  match x, y with
  | S754_zero a, S754_zero b => Bool.eqb a b
  | S754_infinity a, S754_infinity b => Bool.eqb a b
  | S754_nan, S754_nan => true
  | S754_finite a m e, S754_finite b n f => Bool.eqb a b && Pos.eqb m n && (e =? f)
  | _, _ => false
  end.

(** [x * y] and [x + y] on Numbers. *)
Definition Number_mul (x y : Number) : Number := SFmul prec emax x y.
Definition Number_add (x y : Number) : Number := SFadd prec emax x y.

(** [Math.round(x)]: the integral Number closest to [x], a tie going
    towards +Infinity; the sign of a zero result is the sign of [x]. *)
Definition Math_round (x : Number) : Number :=
  match x with
  | S754_finite s m e =>
    if 0 <=? e then x
    else
      match (cond_Zopp s (Zpos m) + 2 ^ (- e - 1)) / 2 ^ (- e) with
      | Z0 => S754_zero s
      | z => Z2SF z
      end
  | _ => x
  end.

(** *** Decimal digits *)

Definition digit_char (d : Z) : ascii := ascii_of_nat (48 + Z.to_nat d).

Fixpoint decimal_fuel (fuel : nat) (n : Z) (acc : string) : string :=
  match fuel with
  | O => acc
  | S f =>
    let acc' := String (digit_char (n mod 10)) acc in
    if n <? 10 then acc' else decimal_fuel f (n / 10) acc'
  end.

(** The decimal digits of [n >= 0], no leading zero ("0" for 0). *)
Definition decimal (n : Z) : string :=
  decimal_fuel (S (Z.to_nat (Z.log2 n))) n EmptyString.

Definition digit_val (c : ascii) : Z := Z.of_nat (nat_of_ascii c) - 48.

Definition is_hex_digit (c : ascii) : bool :=
  let n := nat_of_ascii c in
  ((48 <=? n) && (n <=? 57) || (65 <=? n) && (n <=? 70) ||
   (97 <=? n) && (n <=? 102))%nat.

Definition hex_val (c : ascii) : Z :=
  let n := Z.of_nat (nat_of_ascii c) in
  if n <=? 57 then n - 48 else if n <=? 70 then n - 55 else n - 87.

(** The value of a digit string in radix [R], most significant first. *)
Fixpoint radix_value (R : Z) (val : ascii -> Z) (s : string) (acc : Z) : Z :=
  match s with
  | String c s' => radix_value R val s' (R * acc + val c)
  | EmptyString => acc
  end.

Definition zeros (n : Z) : string :=
  string_of_list_ascii (repeat "0"%char (Z.to_nat n)).

(** *** parseInt and parseFloat *)

(** An optional sign in front of a numeral: whether it is "-", and the
    rest. *)
Definition take_sign (s : string) : bool * string :=
  match s with
  | String "-" s' => (true, s')
  | String "+" s' => (false, s')
  | _ => (false, s)
  end.

(** The rest of a numeral behind a prefix 0x or 0X. *)
Definition strip_hex_prefix (s : string) : option string :=
  match s with
  | String "0" (String "x" s') => Some s'
  | String "0" (String "X" s') => Some s'
  | _ => None
  end.

(** [parseInt(string)] with no radix argument: leading white space is
    dropped, a sign is read, a prefix 0x or 0X selects radix 16 and radix
    10 is used otherwise; the longest run of digits of that radix is the
    numeral, NaN when it is empty. *)
Definition parseInt (inputString : string) : Number :=
  let '(neg, str) := take_sign (trimStart inputString) in
  let '(hex, str) :=
    match strip_hex_prefix str with
    | Some str' => (true, str')
    | None => (false, str)
    end in
  match fst (span (if hex then is_hex_digit else is_digit) str) with
  | EmptyString => NaN
  | numeral =>
    let mathInt :=
      if hex then radix_value 16 hex_val numeral 0
      else radix_value 10 digit_val numeral 0 in
    match mathInt with
    | Zpos p => binary_round prec emax neg p 0
    | _ => S754_zero neg
    end
  end.

(** The exponent part of a decimal literal: "e" or "E", an optional sign
    and at least one digit; 0 when there is none. *)
Definition exponent_part (s : string) : Z :=
  match s with
  | String c s' =>
    if (Ascii.eqb c "e" || Ascii.eqb c "E")%bool then
      let '(neg, s'') := take_sign s' in
      match fst (span is_digit s'') with
      | EmptyString => 0
      | ds => cond_Zopp neg (radix_value 10 digit_val ds 0)
      end
    else 0
  | EmptyString => 0
  end.

(** [parseFloat(string)]: leading white space is dropped and the longest
    prefix that is a StrDecimalLiteral is read: a sign, then Infinity, or
    digits with an optional fraction and exponent; NaN when no prefix is
    one. *)
Definition parseFloat (inputString : string) : Number :=
  let '(neg, t) := take_sign (trimStart inputString) in
  if startsWith t "Infinity" then Infinity neg
  else
    let '(ip, r1) := span is_digit t in
    let '(fp, r2) :=
      match r1 with
      | String "." r => span is_digit r
      | _ => (EmptyString, r1)
      end in
    match (ip ++ fp)%string with
    | EmptyString => NaN
    | ds =>
      dec2float neg (radix_value 10 digit_val ds 0)
                (exponent_part r2 - Z.of_nat (String.length fp))
    end.

(** *** Number::toString, radix 10 *)

(** For [0 < x = P / Q] the integer [n] with [10^(n-1) <= x < 10^n]. *)
Fixpoint scale_up (fuel : nat) (P Q : Z) (j : Z) : Z :=
  match fuel with
  | O => j
  | S f => if Q <=? P * 10 ^ j then j else scale_up f P Q (j + 1)
  end.

Definition magnitude (P Q : Z) : Z :=
  if Q <=? P then Z.of_nat (String.length (decimal (P / Q)))
  else 1 - scale_up 400 P Q 1.

(** The candidates with [k] digits: the two multiples of [10^(n-k)] around
    [x = P / Q], kept when they convert back to [x]; of two, the closer to
    [x], and of two equally close the even one. *)
Definition shortest_at (x : Number) (P Q n k : Z) : option Z :=
  let t := n - k in
  let lo := if 0 <=? t then P / (Q * 10 ^ t) else (P * 10 ^ (- t)) / Q in
  let hi := lo + 1 in
  let ok s := Number_eqb (dec2float false s t) x in
  match ok lo, ok hi with
  | false, false => None
  | true, false => Some lo
  | false, true => Some hi
  | true, true =>
    let c := if 0 <=? t then (2 * P) ?= ((2 * lo + 1) * 10 ^ t * Q)
             else (2 * P * 10 ^ (- t)) ?= ((2 * lo + 1) * Q) in
    match c with
    | Lt => Some lo
    | Gt => Some hi
    | Eq => if Z.even lo then Some lo else Some hi
    end
  end.

(** The least [k] from [k] on with a candidate, and the candidate. *)
Fixpoint shortest (fuel : nat) (x : Number) (P Q n k : Z) : option (Z * Z) :=
  match fuel with
  | O => None
  | S f =>
    match shortest_at x P Q n k with
    | Some s => Some (k, s)
    | None => shortest f x P Q n (k + 1)
    end
  end.

Definition exponent_text (e : Z) : string :=
  ("e" ++ (if (0 <=? e)%Z then "+" else "-") ++ decimal (Z.abs e))%string.

(** The text of [s * 10^(n-k)], [s] of [k] digits. *)
Definition format_digits (s k n : Z) : string :=
  let D := decimal s in
  if (k <=? n) && (n <=? 21) then (D ++ zeros (n - k))%string
  else if (0 <? n) && (n <=? 21) then
    (substring 0 (Z.to_nat n) D ++ "." ++
     substring (Z.to_nat n) (Z.to_nat (k - n)) D)%string
  else if (-6 <? n) && (n <=? 0) then ("0." ++ zeros (- n) ++ D)%string
  else if k =? 1 then (D ++ exponent_text (n - 1))%string
  else (substring 0 1 D ++ "." ++ substring 1 (Z.to_nat (k - 1)) D ++
        exponent_text (n - 1))%string.

Definition Number_toString (x : Number) : string :=
  match x with
  | S754_nan => "NaN"
  | S754_zero _ => "0"
  | S754_infinity s => if s then "-Infinity" else "Infinity"
  | S754_finite sg m e =>
    let P := if 0 <=? e then Zpos m * 2 ^ e else Zpos m in
    let Q := if 0 <=? e then 1 else 2 ^ (- e) in
    let n := magnitude P Q in
    let body :=
      match shortest 17 (S754_finite false m e) P Q n 1 with
      | Some (k, s) =>
        if s =? 10 ^ k then format_digits (10 ^ (k - 1)) k (n + 1)
        else format_digits s k n
      | None => "NaN"
      end in
    ((if sg then "-" else "") ++ body)%string
  end.

(* ================================================================== *)
(** ** Regular expressions *)

(** The patterns of the program: a character class, a run of literal
    characters, concatenation, alternation (the left alternative first),
    the greedy quantifier [*] and a numbered capturing group. *)
Inductive regex : Type :=
| Class (p : ascii -> bool)
| Lit (s : string)
| Cat (r1 r2 : regex)
| Alt (r1 r2 : regex)
| Star (r : regex)
| Group (n : nat) (r : regex).

(** [r+] *)
Definition Plus (r : regex) : regex := Cat r (Star r).

(** Canonicalize under the [i] flag: a letter is compared through its
    upper case. Only the ASCII letters are mapped: the patterns here hold
    ASCII characters only, which no other code unit becomes equal to. *)
Definition Canonicalize (c : ascii) : ascii :=
  let n := nat_of_ascii c in
  if ((97 <=? n) && (n <=? 122))%nat then ascii_of_nat (n - 32) else c.

(** The captures of a match: the text of each group that took part. *)
Definition captures := list (nat * string).

Fixpoint capture (n : nat) (c : captures) : option string :=
  match c with
  | [] => None
  | (i, s) :: c' => if (i =? n)%nat then Some s else capture n c'
  end.

(** What was consumed between the input [s] and its suffix [s']. *)
Definition consumed (s s' : string) : string :=
  substring 0 (String.length s - String.length s') s.

Fixpoint lit_prefix (p s : string) : option string :=
  match p, s with
  | EmptyString, _ => Some s
  | String a p', String b s' =>
    if Ascii.eqb (Canonicalize a) (Canonicalize b) then lit_prefix p' s' else None
  | String _ _, EmptyString => None
  end.

Definition continuation := string -> captures -> option (string * captures).

(** The backtracking matcher, in continuation-passing style: [matcher r k
    s c] matches [r] at the front of [s] and hands the rest of the input
    to [k]; when [k] fails, the next way to match [r] is tried. An
    iteration of [*] that consumes nothing is rejected. *)
Fixpoint matcher (r : regex) (k : continuation) (s : string) (c : captures)
  : option (string * captures) :=
  match r with
  | Class p =>
    match s with
    | String a s' => if p a then k s' c else None
    | EmptyString => None
    end
  | Lit l =>
    match lit_prefix l s with
    | Some s' => k s' c
    | None => None
    end
  | Cat r1 r2 => matcher r1 (matcher r2 k) s c
  | Alt r1 r2 =>
    match matcher r1 k s c with
    | Some res => Some res
    | None => matcher r2 k s c
    end
  | Star r' =>
    (fix repeat_matcher (fuel : nat) (s : string) (c : captures) :=
       match fuel with
       | O => k s c
       | S fuel' =>
         match matcher r'
                 (fun s' c' =>
                    if (String.length s' <? String.length s)%nat
                    then repeat_matcher fuel' s' c' else None) s c with
         | Some res => Some res
         | None => k s c
         end
       end) (String.length s) s c
  | Group n r' => matcher r' (fun s' c' => k s' ((n, consumed s s') :: c')) s c
  end.

(** [str.match(r)] for a pattern without the [g] flag: the first position
    of [str], from the left, where [r] matches, and its captures. *)
Fixpoint regex_match (r : regex) (str : string) : option captures :=
  match matcher r (fun s' c => Some (s', c)) str [] with
  | Some (_, c) => Some c
  | None =>
    match str with
    | String _ str' => regex_match r str'
    | EmptyString => None
    end
  end.

(** [[\d\s.]] *)
Definition numeric_class (c : ascii) : bool :=
  is_digit c || is_ws c || Ascii.eqb c ".".

(** [/([\d\s.]+)\s*(Kilogram|Tonne|kg|TNE)/i] *)
Definition balance_pattern : regex :=
  Cat (Group 1 (Plus (Class numeric_class)))
      (Cat (Star (Class is_ws))
           (Group 2 (Alt (Lit "Kilogram")
                         (Alt (Lit "Tonne") (Alt (Lit "kg") (Lit "TNE")))))).

(* ================================================================== *)
(** ** The row extractor: the callback of [page.evaluate] *)

Record QuotaRecord : Type := {
  orderNumber : string;
  origin : string;
  startDate : string;
  endDate : string;
  balance : string;
  balanceKg : Number;
  unit : string;
  moreInfoUrl : string;
  scrapedAt : string
}.

(** A row is the text content of its [td] cells, in document order, and a
    document is its [tr] rows, in document order. *)
Definition row := list string.
Definition document := list row.

Definition cell (cells : row) (i : nat) : string := nth i cells EmptyString.

Definition isTonne (unit : string) : bool :=
  startsWith unit "t" || String.eqb unit "tne".

(** [isTonne ? Math.round(rawValue * 1000) : rawValue] *)
Definition normalize (rawValue : Number) (unit : string) : Number :=
  if isTonne unit then Math_round (Number_mul rawValue (Z2SF 1000)) else rawValue.

Definition detail_url (startDate ordNum : string) : string :=
  "https://ec.europa.eu/taxation_customs/dds2/taric/quota_tariff_details.jsp?Lang=en&StartDate="
  ++ join "-" (reverse (split "-" startDate)) ++ "&Code=" ++ ordNum.

(** [balanceText.match(...)]: the texts of the two groups, [match[1]] and
    [match[2]], when the pattern matches. *)
Definition balance_match (balanceText : string) : option (string * string) :=
  match regex_match balance_pattern balanceText with
  | Some m =>
    match capture 1 m, capture 2 m with
    | Some m1, Some m2 => Some (m1, m2)
    | _, _ => None
    end
  | None => None
  end.

(** The body of the loop for one row whose first cell is [ordNum]: [None]
    is [continue]. *)
Definition read_row (now ordNum : string) (cells : row) : option QuotaRecord :=
  let origin := trim (cell cells 1) in
  let startDate := trim (cell cells 2) in
  let endDate := trim (cell cells 3) in
  let balanceText := trim (cell cells 4) in
  match balance_match balanceText with
  | None => None
  | Some (m1, m2) =>
    let rawValue := parseFloat (strip_ws m1) in
    let unit := toLowerCase m2 in
    let balanceKg := normalize rawValue unit in
    Some {| orderNumber := ordNum;
            origin := origin;
            startDate := startDate;
            endDate := endDate;
            balance := Number_toString (Math_round balanceKg) ++ " Kilogram";
            balanceKg := Math_round balanceKg;
            unit := "Kilogram";
            moreInfoUrl := detail_url startDate ordNum;
            scrapedAt := now |}
  end.

(** The loop over the rows; [now] is the clock reading that [scrapedAt]
    gets. The result [None] is [null]. *)
Fixpoint extract (now ordNum : string) (rows : document) : option QuotaRecord :=
  match rows with
  | [] => None
  | cells :: rows' =>
    if (List.length cells <? 5)%nat then extract now ordNum rows'
    else if negb (String.eqb (trim (cell cells 0)) ordNum) then extract now ordNum rows'
    else match read_row now ordNum cells with
         | Some r => Some r
         | None => extract now ordNum rows'
         end
  end.

(* ================================================================== *)
(** ** The request handler: [GET /api/quota] *)

(** The values handed to [res.json]. *)
#[warnings="-register-all"]
Inductive value : Type :=
| Undefined
| Bool (b : bool)
| Num (x : Number)
| Str (s : string)
| Arr (l : list value)
| Obj (l : list (string * value)).

Definition record_value (r : QuotaRecord) : value :=
  Obj [("orderNumber", Str (orderNumber r)); ("origin", Str (origin r));
       ("startDate", Str (startDate r)); ("endDate", Str (endDate r));
       ("balance", Str (balance r)); ("balanceKg", Num (balanceKg r));
       ("unit", Str (unit r)); ("moreInfoUrl", Str (moreInfoUrl r));
       ("scrapedAt", Str (scrapedAt r))].

(** A query parameter is absent or a string. *)
Definition param := option string.

Definition param_value (p : param) : value :=
  match p with Some s => Str s | None => Undefined end.

(** [!p] *)
Definition falsy (p : param) : bool :=
  match p with
  | None => true
  | Some EmptyString => true
  | Some _ => false
  end.

(** What a parameter is inside a template literal. *)
Definition param_text (p : param) : string :=
  match p with Some s => s | None => "undefined" end.

Record query : Type := {
  q_orderNumber : param;
  q_year : param;
  q_origin : param
}.

(** The calls the handler makes on the browser library and on the
    response. Writes to the console are left out. *)
Inductive call : Type :=
| launch
| newPage
| setUserAgent (ua : string)
| goto (url : string)
| evaluate (ordNum : string)
| close
| send (status : Z) (body : value).

(** The world around one request: which call throws, and with which
    message, given the calls made before it; the rows of the page that the
    navigation loads; the clock reading after the calls made so far. *)
Record environment : Type := {
  throws : list call -> call -> option string;
  page_rows : document;
  clock : list call -> string
}.

(** The state of a run: the calls made, and whether the variable
    [browser] holds a browser ([false] is [null]). *)
Record state : Type := {
  calls : list call;
  browser : bool
}.

(** A computation ends with a value or with a thrown error, of which the
    message is kept. *)
Definition M (A : Type) : Type := state -> state * (string + A).

Definition ret {A} (a : A) : M A := fun st => (st, inr a).

Definition bind {A B} (m : M A) (f : A -> M B) : M B :=
  fun st =>
    match m st with
    | (st', inr a) => f a st'
    | (st', inl e) => (st', inl e)
    end.

Notation "x <- m ;; k" := (bind m (fun x => k))
  (at level 61, m at next level, right associativity).
Notation "m ;; k" := (bind m (fun _ => k))
  (at level 61, right associativity).

Definition try_catch {A} (body : M A) (handler : string -> M A) : M A :=
  fun st =>
    match body st with
    | (st', inl e) => handler e st'
    | res => res
    end.

Section Handler.

Variable env : environment.

Definition perform (c : call) : M Datatypes.unit :=
  fun st =>
    ({| calls := calls st ++ [c]; browser := browser st |},
     match throws env (calls st) c with
     | Some message => inl message
     | None => inr tt
     end).

Definition set_browser (b : bool) : M Datatypes.unit :=
  fun st => ({| calls := calls st; browser := b |}, inr tt).

Definition get_browser : M bool := fun st => (st, inr (browser st)).

(** [new Date().toISOString()] *)
Definition now : M string := fun st => (st, inr (clock env (calls st))).

(** [page.evaluate(callback, ordNum)]: the callback runs on the loaded
    page. *)
Definition page_evaluate (ordNum : string) : M (option QuotaRecord) :=
  perform (evaluate ordNum) ;;
  t <- now ;;
  ret (extract t ordNum (page_rows env)).

Definition user_agent : string :=
  "Mozilla/5.0 (Macintosh; Intel Mac OS X 10_15_7) AppleWebKit/537.36".

Definition quota_url (orderNumber origin : string) (currentYear nextYear : Number)
  : string :=
  "https://ec.europa.eu/taxation_customs/dds2/taric/quota_consultation.jsp?Lang=en&Code="
  ++ orderNumber ++ "&Origin=" ++ origin ++ "&Expand=true&Year="
  ++ Number_toString currentYear ++ "&Year=" ++ Number_toString nextYear.

Definition quota_handler (q : query) : M Datatypes.unit :=
  let orderNumber := q_orderNumber q in
  let year := q_year q in
  let origin := q_origin q in
  if falsy orderNumber || falsy year || falsy origin then
    perform (send 400 (Obj
      [("error", Str "Missing required parameters");
       ("required", Arr [Str "orderNumber"; Str "year"; Str "origin"]);
       ("received", Obj [("orderNumber", param_value orderNumber);
                         ("year", param_value year);
                         ("origin", param_value origin)])]))
  else
    set_browser false ;;
    try_catch
      (perform launch ;;
       set_browser true ;;
       perform newPage ;;
       perform (setUserAgent user_agent) ;;
       let currentYear := parseInt (param_text year) in
       let nextYear := Number_add currentYear (Z2SF 1) in
       let url := quota_url (param_text orderNumber) (param_text origin)
                            currentYear nextYear in
       perform (goto url) ;;
       result <- page_evaluate (param_text orderNumber) ;;
       perform close ;;
       match result with
       | None =>
         perform (send 404 (Obj
           [("error", Str "Quota not found");
            ("orderNumber", param_value orderNumber);
            ("origin", param_value origin);
            ("year", param_value year)]))
       | Some r =>
         t <- now ;;
         perform (send 200 (Obj
           [("success", Bool true);
            ("data", record_value r);
            ("timestamp", Str t)]))
       end)
      (fun message =>
         b <- get_browser ;;
         (if b then perform close else ret tt) ;;
         perform (send 500 (Obj
           [("error", Str "Scraping failed");
            ("message", Str message);
            ("orderNumber", param_value orderNumber);
            ("origin", param_value origin);
            ("year", param_value year)])))%string.

Definition initial : state := {| calls := []; browser := false |}.

(** The calls of one request, in order, and how the handler ended. *)
Definition run (q : query) : list call * (string + Datatypes.unit) :=
  let '(st, res) := quota_handler q initial in (calls st, res).

End Handler.

(** How often the browser was asked to close. *)
Fixpoint closes (l : list call) : nat :=
  match l with
  | [] => O
  | close :: l' => S (closes l')
  | _ :: l' => closes l'
  end.

Definition is_launch (c : call) : bool :=
  match c with launch => true | _ => false end.

Definition is_goto (c : call) : bool :=
  match c with goto _ => true | _ => false end.

(** The responses sent, in order: status and body. *)
Fixpoint responses (l : list call) : list (Z * value) :=
  match l with
  | [] => []
  | send status body :: l' => (status, body) :: responses l'
  | _ :: l' => responses l'
  end.

(* ================================================================== *)
(** ** Notions the statements use *)

(** A row that the loop passes over: too few cells, another order number,
    or a balance cell that the pattern does not match. *)
Definition skipped (ordNum : string) (cells : row) : bool :=
  (List.length cells <? 5)%nat
  || negb (String.eqb (trim (cell cells 0)) ordNum)
  || match balance_match (trim (cell cells 4)) with Some _ => false | None => true end.

(** The body of the 400 response. *)
Definition missing_parameters (q : query) : value :=
  Obj [("error", Str "Missing required parameters");
       ("required", Arr [Str "orderNumber"; Str "year"; Str "origin"]);
       ("received", Obj [("orderNumber", param_value (q_orderNumber q));
                         ("year", param_value (q_year q));
                         ("origin", param_value (q_origin q))])].

(** The body of the 404 response. *)
Definition quota_not_found (q : query) : value :=
  Obj [("error", Str "Quota not found");
       ("orderNumber", param_value (q_orderNumber q));
       ("origin", param_value (q_origin q));
       ("year", param_value (q_year q))].

(** The three parameters are present and not empty. *)
Definition complete (q : query) : bool :=
  negb (falsy (q_orderNumber q) || falsy (q_year q) || falsy (q_origin q)).

(** Whether the code unit [c] occurs in [s]. *)
Fixpoint occurs (c : ascii) (s : string) : bool :=
  match s with
  | String a s' => Ascii.eqb a c || occurs c s'
  | EmptyString => false
  end.

(** The matches of a pattern, declaratively: [matches r s c s' c'] when
    [r] matches a prefix of [s] that leaves [s'], and turns the captures
    [c] into [c']. *)
Inductive matches : regex -> string -> captures -> string -> captures -> Prop :=
| matches_class p a s c :
    p a = true -> matches (Class p) (String a s) c s c
| matches_lit l s s' c :
    lit_prefix l s = Some s' -> matches (Lit l) s c s' c
| matches_cat r1 r2 s c s1 c1 s2 c2 :
    matches r1 s c s1 c1 -> matches r2 s1 c1 s2 c2 ->
    matches (Cat r1 r2) s c s2 c2
| matches_alt_l r1 r2 s c s' c' :
    matches r1 s c s' c' -> matches (Alt r1 r2) s c s' c'
| matches_alt_r r1 r2 s c s' c' :
    matches r2 s c s' c' -> matches (Alt r1 r2) s c s' c'
| matches_star_stop r s c :
    matches (Star r) s c s c
| matches_star_step r s c s1 c1 s2 c2 :
    matches r s c s1 c1 -> matches (Star r) s1 c1 s2 c2 ->
    matches (Star r) s c s2 c2
| matches_group n r s c s' c' :
    matches r s c s' c' ->
    matches (Group n r) s c s' ((n, consumed s s') :: c').

(** Every code unit of [s] satisfies [p]. *)
Fixpoint all_chars (p : ascii -> bool) (s : string) : bool :=
  match s with
  | String a s' => p a && all_chars p s'
  | EmptyString => true
  end.

(** [s] with every code unit canonicalized. *)
Fixpoint canon (s : string) : string :=
  match s with
  | String a s' => String (Canonicalize a) (canon s')
  | EmptyString => EmptyString
  end.

(** The captures with every text canonicalized. *)
Definition canon_captures (c : captures) : captures :=
  map (fun '(n, s) => (n, canon s)) c.

(** A pattern whose classes do not tell the cases of a letter apart. *)
Fixpoint case_blind (r : regex) : Prop :=
  match r with
  | Class p => forall a, p (Canonicalize a) = p a
  | Lit _ => True
  | Cat r1 r2 | Alt r1 r2 => case_blind r1 /\ case_blind r2
  | Star r' | Group _ r' => case_blind r'
  end.

(** The unit words of the pattern, in lower case. *)
Definition unit_words : list string := ["kilogram"; "tonne"; "kg"; "tne"].

(** The result of a match, canonicalized. *)
Definition canon_result (res : string * captures) : string * captures :=
  (canon (fst res), canon_captures (snd res)).

(** Same text up to the case of the letters. *)
Definition same_up_to_case (s t : string) : Prop := canon s = canon t.

(** A Number that is a whole number with the sign bit clear. *)
Definition nonneg_whole (x : Number) : bool :=
  match x with
  | S754_zero s => negb s
  | S754_finite s m e => negb s && ((0 <=? e) || (Zpos m mod 2 ^ (- e) =? 0))
  | _ => false
  end.

(** The integer a whole Number stands for. *)
Definition whole_value (x : Number) : option Z :=
  match x with
  | S754_zero _ => Some 0
  | S754_finite s m e =>
    if 0 <=? e then Some (cond_Zopp s (Zpos m * 2 ^ e))
    else if Zpos m mod 2 ^ (- e) =? 0 then Some (cond_Zopp s (Zpos m / 2 ^ (- e)))
    else None
  | _ => None
  end.

(** The sign bit, where there is one, is clear. *)
Definition sign_clear (x : Number) : Prop :=
  match x with
  | S754_zero s | S754_infinity s | S754_finite s _ _ => s = false
  | S754_nan => True
  end.

(** The mantissa and the exponent that an integer below 2^53 gets. *)
Definition normal_exponent (m : positive) : Z := Zpos (digits2_pos m) - 53.

(** The mantissa shifted to 53 bits. *)
Definition normal_mantissa (m : positive) : positive :=
  fst (shl_align m 0 (normal_exponent m)).

(** Whether [s] begins with a decimal digit. *)
Definition starts_with_digit (s : string) : bool :=
  match s with
  | String c _ => is_digit c
  | EmptyString => false
  end.

(** A finite Number whose mantissa fits in 53 bits. *)
Definition fits (x : Number) : Prop :=
  match x with
  | S754_finite _ m _ => Zpos m < 2 ^ 53
  | _ => True
  end.

(** [y] is [x] rounded to a whole number, a tie going up. *)
Definition rounds_half_up (x y : Number) : Prop :=
  match x with
  | S754_finite s m e =>
    exists z,
      whole_value y = Some z /\
      if 0 <=? e then z = cond_Zopp s (Zpos m * 2 ^ e)
      else (2 * z - 1) * 2 ^ (- e) <= 2 * cond_Zopp s (Zpos m) < (2 * z + 1) * 2 ^ (- e)
  | _ => y = x
  end.

(** A unit token: one of the four words of the pattern in any letter
    case. *)
Definition unit_token (u : string) : Prop :=
  same_up_to_case u "Kilogram" \/ same_up_to_case u "Tonne" \/
  same_up_to_case u "kg" \/ same_up_to_case u "TNE".

(** Whether [s] begins with a code unit of the class [p]. *)
Definition starts_in (p : ascii -> bool) (s : string) : bool :=
  match s with
  | String a _ => p a
  | EmptyString => false
  end.

(** A numeric token written in groups, each a run of digits and the white
    space behind it: the token, and its digits alone. *)
Definition digit_group (g : string * string) : Prop :=
  all_chars is_digit (fst g) = true /\ all_chars is_ws (snd g) = true.

Fixpoint grouped (groups : list (string * string)) : string :=
  match groups with
  | [] => ""
  | (ds, ws) :: groups' => ds ++ ws ++ grouped groups'
  end.

Fixpoint group_digits (groups : list (string * string)) : string :=
  match groups with
  | [] => ""
  | (ds, _) :: groups' => ds ++ group_digits groups'
  end.

(** From this value on a number rounds to +Infinity: the largest finite
    Number, [2^1024 - 2^971], and half a unit in its last place. *)
Definition overflow_threshold : Z := 2 ^ 1024 - 2 ^ 970.

(** The address that the handler builds from the query. *)
Definition quota_address (q : query) : string :=
  quota_url (param_text (q_orderNumber q)) (param_text (q_origin q))
            (parseInt (param_text (q_year q)))
            (Number_add (parseInt (param_text (q_year q))) (Z2SF 1)).

(** The calls of the [try] block in front of the teardown, in order. *)
Definition steps (q : query) : list call :=
  [launch; newPage; setUserAgent user_agent; goto (quota_address q);
   evaluate (param_text (q_orderNumber q))].

(** The first [n] steps succeed and the next one throws [message]. *)
Definition fails_at (env : environment) (q : query) (n : nat) (message : string)
  : Prop :=
  (n < 5)%nat /\
  (forall i, (i < n)%nat -> throws env (firstn i (steps q)) (nth i (steps q) launch) = None) /\
  throws env (firstn n (steps q)) (nth n (steps q) launch) = Some message.

(** The body of the 500 response. *)
Definition scraping_failed (q : query) (message : string) : value :=
  Obj [("error", Str "Scraping failed");
       ("message", Str message);
       ("orderNumber", param_value (q_orderNumber q));
       ("origin", param_value (q_origin q));
       ("year", param_value (q_year q))].

(** The body of the 200 response. *)
Definition success_body (r : QuotaRecord) (timestamp : string) : value :=
  Obj [("success", Bool true); ("data", record_value r); ("timestamp", Str timestamp)].

(** [b] is [a] with white space added in front and behind. *)
Definition padded (a b : string) : Prop :=
  exists l r, all_chars is_ws l = true /\ all_chars is_ws r = true /\ b = l ++ a ++ r.

(** A code unit outside the class [[\d\s.]]. *)
Definition not_numeric (c : ascii) : bool := negb (numeric_class c).

(* ================================================================== *)
(** ** Sample rows, queries and environments *)

(** The row of the first scenario of the specification. *)
Definition sample_row : row :=
  ["098701"; "Brazil"; "01-01-2025"; "31-12-2025"; "500 Tonne"].

(** The query of that scenario. *)
Definition sample_query : query :=
  {| q_orderNumber := Some "098701"; q_year := Some "2025"; q_origin := Some "BR" |}.

(** No call throws. *)
Definition calm (rows : document) : environment :=
  {| throws := fun _ _ => None; page_rows := rows; clock := fun _ => "2025-06-01T00:00:00.000Z" |}.

(** The first [browser.close()] rejects, every other call succeeds. *)
Definition close_rejects_once (rows : document) : environment :=
  {| throws := fun h c =>
       match c with
       | close => if (closes h =? 0)%nat then Some "Protocol error: Target closed" else None
       | _ => None
       end;
     page_rows := rows;
     clock := fun _ => "2025-06-01T00:00:00.000Z" |}.

(** [res.json] throws on the success path, every other call succeeds. *)
Definition response_rejects (rows : document) : environment :=
  {| throws := fun h c =>
       match c with
       | send 200 _ => Some "Cannot set headers after they are sent to the client"
       | _ => None
       end;
     page_rows := rows;
     clock := fun _ => "2025-06-01T00:00:00.000Z" |}.

(** A row with the order number and a balance cell without unit. *)
Definition malformed_row : row :=
  ["098701"; "Brazil"; "01-01-2025"; "31-12-2025"; "n/a"].

(** The sample row with another balance cell. *)
Definition quota_row (balanceText : string) : row :=
  ["098701"; "Brazil"; "01-01-2025"; "31-12-2025"; balanceText].

(** A numeral too large for a binary64 Number: 1 and 309 zeros. *)
Definition huge_numeral : string := "1" ++ zeros 309.

(** The navigation times out, every other call succeeds. *)
Definition navigation_times_out (rows : document) : environment :=
  {| throws := fun h c =>
       match c with
       | goto _ => Some "Navigation timeout of 30000 ms exceeded"
       | _ => None
       end;
     page_rows := rows;
     clock := fun _ => "2025-06-01T00:00:00.000Z" |}.

(** The navigation times out and the browser cannot be closed. *)
Definition times_out_and_stays_open (rows : document) : environment :=
  {| throws := fun h c =>
       match c with
       | goto _ => Some "Navigation timeout of 30000 ms exceeded"
       | close => Some "Protocol error: Target closed"
       | _ => None
       end;
     page_rows := rows;
     clock := fun _ => "2025-06-01T00:00:00.000Z" |}.

(** A table with a heading row, a row of another quota and the row of
    quota 098701, whose cells are indented and whose balance groups its
    digits. *)
Definition quota_table : document :=
  [ ["Order number"; "Origin"; "Start date"; "End date"; "Balance"];
    ["098702"; "Brazil"; "01-01-2025"; "31-12-2025"; "7 Tonne"];
    ["  098701 "; " Brazil"; "01-01-2025 "; " 31-12-2025"; " Balance: 1 234 567 Kilogram (open) "];
    ["098701"; "Chile"; "01-01-2025"; "31-12-2025"; "1 Tonne"] ].

(* ================================================================== *)
(** * Properties *)

(* ------------------------------------------------------------------ *)
(** ** The loop over the rows *)

Lemma extract_skip now ordNum cells rows :
  skipped ordNum cells = true ->
  extract now ordNum (cells :: rows) = extract now ordNum rows.
Proof.
  unfold skipped. intros H. simpl.
  destruct (List.length cells <? 5)%nat; [reflexivity|].
  destruct (String.eqb (trim (cell cells 0)) ordNum); [|reflexivity].
  simpl in H. unfold read_row.
  destruct (balance_match _) as [[m1 m2]|]; [discriminate|reflexivity].
Qed.

Lemma extract_skip_all now ordNum before rows :
  forallb (skipped ordNum) before = true ->
  extract now ordNum (before ++ rows)%list = extract now ordNum rows.
Proof.
  induction before as [|cells before IH]; intros H; [reflexivity|].
  simpl in H. apply andb_prop in H. destruct H as [H1 H2].
  rewrite <- app_comm_cons, extract_skip by exact H1. auto.
Qed.

Lemma extract_take now ordNum cells rows :
  skipped ordNum cells = false ->
  extract now ordNum (cells :: rows) = read_row now ordNum cells.
Proof.
  unfold skipped. intros H. simpl.
  destruct (List.length cells <? 5)%nat; [discriminate|].
  destruct (String.eqb (trim (cell cells 0)) ordNum); [|discriminate].
  simpl in *. unfold read_row in *.
  destruct (balance_match _) as [[m1 m2]|]; [reflexivity|discriminate].
Qed.

(** What a successful extraction was made from. *)
Lemma extract_some now ordNum rows r :
  extract now ordNum rows = Some r ->
  exists cells, In cells rows /\ skipped ordNum cells = false /\
                read_row now ordNum cells = Some r.
Proof.
  induction rows as [|cells rows IH]; intros H; [discriminate|].
  destruct (skipped ordNum cells) eqn:E.
  - rewrite extract_skip in H by exact E.
    destruct (IH H) as (c & Hin & Hs & Hr). exists c. simpl. auto.
  - rewrite extract_take in H by exact E. exists cells. simpl. auto.
Qed.

Lemma extract_none now ordNum rows :
  forallb (skipped ordNum) rows = true -> extract now ordNum rows = None.
Proof.
  intros H. rewrite <- (app_nil_r rows). rewrite extract_skip_all by exact H.
  reflexivity.
Qed.

Lemma read_row_some now ordNum cells r :
  read_row now ordNum cells = Some r ->
  exists m1 m2,
    balance_match (trim (cell cells 4)) = Some (m1, m2) /\
    r = {| orderNumber := ordNum;
           origin := trim (cell cells 1);
           startDate := trim (cell cells 2);
           endDate := trim (cell cells 3);
           balance := Number_toString
                        (Math_round (normalize (parseFloat (strip_ws m1)) (toLowerCase m2)))
                      ++ " Kilogram";
           balanceKg := Math_round (normalize (parseFloat (strip_ws m1)) (toLowerCase m2));
           unit := "Kilogram";
           moreInfoUrl := detail_url (trim (cell cells 2)) ordNum;
           scrapedAt := now |}.
Proof.
  unfold read_row. destruct (balance_match _) as [[m1 m2]|]; [|discriminate].
  intros H. injection H as <-. exists m1, m2. split; reflexivity.
Qed.

(* ------------------------------------------------------------------ *)
(** ** The handler: required parameters and teardown *)

(** C9. When one of the three query parameters is absent or empty, the
    only call of the handler is the 400 response that lists the required
    parameters and echoes the received ones: no browser is launched and no
    page is visited. *)
Theorem missing_parameter_rejected env q :
  falsy (q_orderNumber q) = true \/ falsy (q_year q) = true \/ falsy (q_origin q) = true ->
  fst (run env q) = [send 400 (missing_parameters q)] /\
  existsb is_launch (fst (run env q)) = false /\
  existsb is_goto (fst (run env q)) = false.
Proof.
  intros H.
  assert (G : falsy (q_orderNumber q) || falsy (q_year q) || falsy (q_origin q) = true).
  { destruct H as [H|[H|H]]; rewrite H; rewrite ?orb_true_r, ?orb_true_l; reflexivity. }
  assert (E : fst (run env q) = [send 400 (missing_parameters q)]).
  { unfold run, quota_handler. rewrite G. reflexivity. }
  rewrite E. repeat split; reflexivity.
Qed.

(** An empty year and an absent origin. *)
Lemma missing_parameter_rejected_witness :
  fst (run (calm [sample_row])
           {| q_orderNumber := Some "098701"; q_year := Some ""; q_origin := None |})
  = [send 400 (Obj [("error", Str "Missing required parameters");
       ("required", Arr [Str "orderNumber"; Str "year"; Str "origin"]);
       ("received", Obj [("orderNumber", Str "098701"); ("year", Str "");
                         ("origin", Undefined)])])].
Proof.
  exact (proj1 (missing_parameter_rejected (calm [sample_row])
           {| q_orderNumber := Some "098701"; q_year := Some ""; q_origin := None |}
           (or_intror (or_introl eq_refl)))).
Defined.

(** X1. For a query with all three parameters, when neither
    [browser.close()] nor the response ever throws, the browser is closed
    exactly once if it was launched, whichever later call fails, and never
    if the launch itself fails. *)
Lemma closed_once_unless_teardown_fails env q :
  complete q = true ->
  (forall h, throws env h close = None) ->
  (forall h status body, throws env h (send status body) = None) ->
  closes (fst (run env q)) =
  match throws env [] launch with Some _ => 0%nat | None => 1%nat end.
Proof.
  unfold complete. intros H Hc Hs. apply negb_true_iff in H.
  unfold run, quota_handler. rewrite H.
  unfold page_evaluate, try_catch, bind, perform, set_browser, get_browser, now, ret,
    initial; simpl.
  destruct (throws env [] launch) eqn:E1; simpl; [reflexivity|].
  destruct (throws env [launch] newPage) eqn:E2; simpl;
    [rewrite Hc; reflexivity|].
  destruct (throws env [launch; newPage] (setUserAgent user_agent)) eqn:E3; simpl;
    [rewrite Hc; reflexivity|].
  match goal with |- context [throws env ?h (goto ?u)] =>
    destruct (throws env h (goto u)) eqn:E4 end; simpl;
    [rewrite Hc; reflexivity|].
  match goal with |- context [throws env ?h (evaluate ?u)] =>
    destruct (throws env h (evaluate u)) eqn:E5 end; simpl;
    [rewrite Hc; reflexivity|].
  rewrite Hc. simpl.
  destruct (extract _ _ _); simpl; rewrite Hs; reflexivity.
Qed.

(* ------------------------------------------------------------------ *)
(** ** Rows passed over, and the detail address *)

Lemma handler_not_found env q :
  complete q = true ->
  (forall h c, throws env h c = None) ->
  (forall now, extract now (param_text (q_orderNumber q)) (page_rows env) = None) ->
  responses (fst (run env q)) = [(404, quota_not_found q)].
Proof.
  unfold complete. intros H Ht Hx. apply negb_true_iff in H.
  unfold run, quota_handler. rewrite H.
  unfold page_evaluate, try_catch, bind, perform, set_browser, get_browser, now, ret,
    initial; simpl.
  repeat (rewrite Ht; simpl). rewrite Hx. simpl. rewrite Ht. reflexivity.
Qed.

(** C5. A row with the queried order number whose balance cell the pattern
    does not match is passed over and the rows behind it are scanned as if
    it were absent; when every one of them is passed over as well the result
    is [null], and the response, where no call throws, is the 404 "Quota not
    found", the same as for a page without rows. *)
Theorem malformed_balance_row_is_skipped now ordNum cells rows :
  (5 <= List.length cells)%nat ->
  trim (cell cells 0) = ordNum ->
  regex_match balance_pattern (trim (cell cells 4)) = None ->
  extract now ordNum (cells :: rows) = extract now ordNum rows /\
  (forallb (skipped ordNum) rows = true ->
   extract now ordNum (cells :: rows) = None /\
   forall env q,
     complete q = true -> q_orderNumber q = Some ordNum ->
     (forall h c, throws env h c = None) ->
     page_rows env = cells :: rows ->
     responses (fst (run env q)) = [(404, quota_not_found q)] /\
     responses (fst (run env q)) =
     responses (fst (run {| throws := throws env; page_rows := []; clock := clock env |} q))).
Proof.
  intros Hlen Hkey Hre.
  assert (Hsk : skipped ordNum cells = true).
  { unfold skipped, balance_match. rewrite Hre. apply orb_true_r. }
  split; [apply extract_skip; exact Hsk|].
  intros Hall.
  assert (Hnone : forall t, extract t ordNum (cells :: rows) = None).
  { intros t. apply extract_none. simpl. rewrite Hsk, Hall. reflexivity. }
  split; [apply Hnone|].
  intros env q Hq Ho Ht Hp.
  rewrite (handler_not_found env q); auto.
  - rewrite (handler_not_found _ q); auto.
  - intros t. rewrite Ho, Hp. apply Hnone.
Qed.

(** The cell "n/a": the sample row behind it is found, and with no
    other matching row the answer is 404. *)
Lemma malformed_balance_row_is_skipped_witness :
  extract "t" "098701" [malformed_row; sample_row] = extract "t" "098701" [sample_row] /\
  responses (fst (run (calm [malformed_row; ["098702"; "x"; "y"; "z"; "1 kg"]]) sample_query))
  = [(404, quota_not_found sample_query)].
Proof.
  split.
  - exact (proj1 (malformed_balance_row_is_skipped "t" "098701" malformed_row [sample_row]
                    ltac:(simpl; lia) eq_refl eq_refl)).
  - refine (proj1 (proj2 (proj2 (malformed_balance_row_is_skipped "t" "098701" malformed_row
                    [["098702"; "x"; "y"; "z"; "1 kg"]]
                    ltac:(simpl; lia) eq_refl eq_refl) eq_refl)
                    (calm [malformed_row; ["098702"; "x"; "y"; "z"; "1 kg"]]) sample_query
                    eq_refl eq_refl _ eq_refl)).
    intros h c. reflexivity.
Defined.

(** [split] on a text without separator, and in front of a separator. *)
Lemma split_no_sep sep s : occurs sep s = false -> split sep s = [s].
Proof.
  induction s as [|c s IH]; simpl; intros H; [reflexivity|].
  apply orb_false_iff in H. destruct H as [H1 H2].
  rewrite H1, (IH H2). reflexivity.
Qed.

Lemma split_app_sep sep s rest :
  occurs sep s = false ->
  split sep (s ++ String sep rest) = s :: split sep rest.
Proof.
  induction s as [|c s IH]; simpl; intros H.
  - rewrite Ascii.eqb_refl. reflexivity.
  - apply orb_false_iff in H. destruct H as [H1 H2].
    rewrite H1, (IH H2). reflexivity.
Qed.

Lemma reverse_day_month_year dd mm yyyy :
  occurs "-" dd = false -> occurs "-" mm = false -> occurs "-" yyyy = false ->
  join "-" (reverse (split "-" (dd ++ "-" ++ mm ++ "-" ++ yyyy)))
  = yyyy ++ "-" ++ mm ++ "-" ++ dd.
Proof.
  intros Hd Hm Hy.
  change (dd ++ "-" ++ mm ++ "-" ++ yyyy)
    with (dd ++ String "-" (mm ++ String "-" yyyy)).
  rewrite split_app_sep, split_app_sep, split_no_sep by assumption.
  reflexivity.
Qed.

(** C6. In every extracted record [startDate] is the trimmed third cell of
    a row, and [moreInfoUrl] is the detail template around the components of
    [startDate] between hyphens, in reverse order, and the order number;
    for a date day-month-year that is year-month-day. *)
Theorem moreInfoUrl_from_start_date now ordNum rows r :
  extract now ordNum rows = Some r ->
  (exists cells, In cells rows /\ startDate r = trim (cell cells 2)) /\
  moreInfoUrl r =
    "https://ec.europa.eu/taxation_customs/dds2/taric/quota_tariff_details.jsp?Lang=en&StartDate="
    ++ join "-" (reverse (split "-" (startDate r))) ++ "&Code=" ++ ordNum /\
  forall dd mm yyyy,
    occurs "-" dd = false -> occurs "-" mm = false -> occurs "-" yyyy = false ->
    startDate r = dd ++ "-" ++ mm ++ "-" ++ yyyy ->
    moreInfoUrl r =
      "https://ec.europa.eu/taxation_customs/dds2/taric/quota_tariff_details.jsp?Lang=en&StartDate="
      ++ (yyyy ++ "-" ++ mm ++ "-" ++ dd) ++ "&Code=" ++ ordNum.
Proof.
  intros H. destruct (extract_some _ _ _ _ H) as (cells & Hin & _ & Hr).
  destruct (read_row_some _ _ _ _ Hr) as (m1 & m2 & _ & ->).
  cbn [startDate moreInfoUrl].
  split; [exists cells; auto|]. split; [reflexivity|].
  intros dd mm yyyy Hd Hm Hy E. unfold detail_url. rewrite E.
  rewrite reverse_day_month_year by assumption. reflexivity.
Qed.

(** The start date "05-03-2025" gives the segment "2025-03-05". *)
Lemma moreInfoUrl_from_start_date_witness :
  exists r,
    extract "t" "098701" [["098701"; "Brazil"; " 05-03-2025 "; "31-12-2025"; "500 Tonne"]]
    = Some r /\
    moreInfoUrl r =
      "https://ec.europa.eu/taxation_customs/dds2/taric/quota_tariff_details.jsp?Lang=en&StartDate=2025-03-05&Code=098701".
Proof.
  eexists. split; [vm_compute; reflexivity|].
  refine (proj2 (proj2 (moreInfoUrl_from_start_date "t" "098701"
            [["098701"; "Brazil"; " 05-03-2025 "; "31-12-2025"; "500 Tonne"]] _ _))
            "05" "03" "2025" eq_refl eq_refl eq_refl _);
    vm_compute; reflexivity.
Defined.

Lemma balance_fields now ordNum rows r :
  extract now ordNum rows = Some r ->
  balance r = Number_toString (balanceKg r) ++ " Kilogram" /\ unit r = "Kilogram".
Proof.
  intros H. destruct (extract_some _ _ _ _ H) as (cells & _ & _ & Hr).
  destruct (read_row_some _ _ _ _ Hr) as (m1 & m2 & _ & ->).
  split; reflexivity.
Qed.

(* ------------------------------------------------------------------ *)
(** ** What the matcher finds is a match of the pattern *)

Lemma matcher_sound r :
  forall k s c res,
    matcher r k s c = Some res ->
    exists s' c', matches r s c s' c' /\ k s' c' = Some res.
Proof.
  induction r as [p|l|r1 IH1 r2 IH2|r1 IH1 r2 IH2|r IH|n r IH]; intros k s c res H.
  - destruct s as [|a s]; simpl in H; [discriminate|].
    destruct (p a) eqn:E; [|discriminate].
    exists s, c. split; [constructor; exact E|exact H].
  - simpl in H. destruct (lit_prefix l s) as [s'|] eqn:E; [|discriminate].
    exists s', c. split; [constructor; exact E|exact H].
  - simpl in H. apply IH1 in H. destruct H as (s1 & c1 & M1 & H).
    apply IH2 in H. destruct H as (s2 & c2 & M2 & H).
    exists s2, c2. split; [econstructor; eassumption|exact H].
  - simpl in H. destruct (matcher r1 k s c) as [res1|] eqn:E.
    + injection H as ->. apply IH1 in E. destruct E as (s' & c' & M & E').
      exists s', c'. split; [apply matches_alt_l; exact M|exact E'].
    + apply IH2 in H. destruct H as (s' & c' & M & E').
      exists s', c'. split; [apply matches_alt_r; exact M|exact E'].
  - cbn [matcher] in H. revert H. generalize (String.length s) at 1.
    intros fuel. revert s c. induction fuel as [|fuel IHf]; intros s c H.
    + exists s, c. split; [constructor|exact H].
    + match type of H with
      | match ?m with _ => _ end = _ => destruct m as [res1|] eqn:E
      end.
      * injection H as ->. apply IH in E. destruct E as (s1 & c1 & M & E1).
        destruct (String.length s1 <? String.length s)%nat; [|discriminate].
        apply IHf in E1. destruct E1 as (s2 & c2 & M2 & E2).
        exists s2, c2. split; [econstructor; eassumption|exact E2].
      * exists s, c. split; [constructor|exact H].
  - simpl in H. apply IH in H. destruct H as (s' & c' & M & H).
    exists s', ((n, consumed s s') :: c'). split; [constructor; exact M|exact H].
Qed.

Lemma regex_match_sound r s c :
  regex_match r s = Some c ->
  exists start s', matches r start [] s' c.
Proof.
  induction s as [|a s IH]; simpl.
  - destruct (matcher r _ "" []) as [[s' c']|] eqn:E; [|discriminate].
    intros H. injection H as ->. apply matcher_sound in E.
    destruct E as (s1 & c1 & M & E1). injection E1 as -> ->. eauto.
  - destruct (matcher r _ (String a s) []) as [[s' c']|] eqn:E.
    + intros H. injection H as ->. apply matcher_sound in E.
      destruct E as (s1 & c1 & M & E1). injection E1 as -> ->. eauto.
    + exact IH.
Qed.

(** A match consumes a prefix of the input. *)
Lemma lit_prefix_app l s s' :
  lit_prefix l s = Some s' ->
  exists pre, s = pre ++ s' /\ canon pre = canon l.
Proof.
  revert s. induction l as [|a l IH]; intros s H; simpl in H.
  - injection H as ->. exists "". split; reflexivity.
  - destruct s as [|b s]; [discriminate|].
    destruct (Ascii.eqb (Canonicalize a) (Canonicalize b)) eqn:E; [|discriminate].
    apply Ascii.eqb_eq in E. apply IH in H. destruct H as (pre & -> & Hc).
    exists (String b pre). simpl. rewrite Hc, E. split; reflexivity.
Qed.

Lemma append_assoc (a b c : string) : (a ++ b) ++ c = a ++ b ++ c.
Proof. induction a as [|x a IH]; simpl; [reflexivity|rewrite IH; reflexivity]. Qed.

Lemma length_append (a b : string) :
  String.length (a ++ b) = (String.length a + String.length b)%nat.
Proof. induction a as [|x a IH]; simpl; [reflexivity|rewrite IH; reflexivity]. Qed.

Lemma substring_prefix pre s :
  substring 0 (String.length pre) (pre ++ s) = pre.
Proof.
  induction pre as [|a pre IH]; simpl.
  - destruct s; reflexivity.
  - rewrite IH. reflexivity.
Qed.

Lemma consumed_app pre s : consumed (pre ++ s) s = pre.
Proof.
  unfold consumed. rewrite length_append.
  replace (String.length pre + String.length s - String.length s)%nat
    with (String.length pre) by lia.
  apply substring_prefix.
Qed.

(** A run of class characters. *)
Lemma matches_star_class p s c s' c' :
  matches (Star (Class p)) s c s' c' ->
  c' = c /\ exists pre, s = pre ++ s' /\ all_chars p pre = true.
Proof.
  remember (Star (Class p)) as r eqn:Er. induction 1; try discriminate.
  - split; [reflexivity|]. exists "". split; reflexivity.
  - injection Er as ->. specialize (IHmatches2 eq_refl).
    destruct IHmatches2 as (-> & pre & -> & Hp).
    inversion H as [p' a s0 c0 Hpa| | | | | | |]; subst. split; [reflexivity|].
    exists (String a pre). simpl. rewrite Hpa, Hp. split; reflexivity.
Qed.

Lemma matches_plus_class p s c s' c' :
  matches (Plus (Class p)) s c s' c' ->
  c' = c /\ exists pre, s = pre ++ s' /\ all_chars p pre = true /\ pre <> "".
Proof.
  unfold Plus. intros H.
  inversion H as [| |? ? ? ? ? ? ? ? M1 M2| | | | |]; subst; clear H.
  inversion M1 as [p' a s0 c0 Hpa| | | | | | |]; subst; clear M1.
  apply matches_star_class in M2.
  destruct M2 as (-> & pre & -> & Hp). split; [reflexivity|].
  exists (String a pre). simpl. rewrite Hpa, Hp. repeat split. discriminate.
Qed.

Lemma lower_canon_char a : lower_char (Canonicalize a) = lower_char a.
Proof. destruct a as [[] [] [] [] [] [] [] []]; reflexivity. Qed.

Lemma toLowerCase_canon s : toLowerCase (canon s) = toLowerCase s.
Proof.
  induction s as [|a s IH]; simpl; [reflexivity|].
  rewrite lower_canon_char, IH. reflexivity.
Qed.

Lemma matches_units s c s' c' :
  matches (Alt (Lit "Kilogram") (Alt (Lit "Tonne") (Alt (Lit "kg") (Lit "TNE"))))
          s c s' c' ->
  c' = c /\ exists u, s = u ++ s' /\ In (toLowerCase u) unit_words.
Proof.
  intros H.
  assert (L : forall l, matches (Lit l) s c s' c' ->
                        c' = c /\ exists u, s = u ++ s' /\ toLowerCase u = toLowerCase l).
  { intros l M. inversion M as [|? ? ? ? Hl| | | | | |]; subst.
    apply lit_prefix_app in Hl. destruct Hl as (pre & -> & Hc). split; [reflexivity|]. exists pre.
    split; [reflexivity|]. rewrite <- toLowerCase_canon, Hc. apply toLowerCase_canon. }
  inversion H as [| | |? ? ? ? ? ? M|? ? ? ? ? ? M| | |]; subst; clear H.
  { apply L in M. destruct M as (-> & u & -> & E). split; [reflexivity|].
    exists u. rewrite E. simpl. tauto. }
  inversion M as [| | |? ? ? ? ? ? M'|? ? ? ? ? ? M'| | |]; subst; clear M.
  { apply L in M'. destruct M' as (-> & u & -> & E). split; [reflexivity|].
    exists u. rewrite E. simpl. tauto. }
  inversion M' as [| | |? ? ? ? ? ? M|? ? ? ? ? ? M| | |]; subst; clear M'.
  { apply L in M. destruct M as (-> & u & -> & E). split; [reflexivity|].
    exists u. rewrite E. simpl. tauto. }
  apply L in M. destruct M as (-> & u & -> & E). split; [reflexivity|].
  exists u. rewrite E. simpl. tauto.
Qed.

(** What the two groups of the balance pattern hold. *)
Lemma balance_pattern_captures s c s' c' :
  matches balance_pattern s c s' c' ->
  exists m1 m2,
    c' = (2%nat, m2) :: (1%nat, m1) :: c /\
    all_chars numeric_class m1 = true /\ m1 <> "" /\
    In (toLowerCase m2) unit_words.
Proof.
  unfold balance_pattern. intros H.
  inversion H as [| |? ? ? ? ? ? ? ? M1 M2| | | | |]; subst; clear H.
  inversion M1 as [| | | | | | |? ? ? ? ? ? G]; subst; clear M1.
  apply matches_plus_class in G. destruct G as (-> & pre & -> & Hp & Hne).
  rewrite consumed_app in M2.
  inversion M2 as [| |? ? ? ? ? ? ? ? M3 M4| | | | |]; subst; clear M2.
  apply matches_star_class in M3. destruct M3 as (-> & _).
  inversion M4 as [| | | | | | |? ? ? ? ? ? G]; subst; clear M4.
  apply matches_units in G. destruct G as (-> & u & -> & Hu).
  rewrite consumed_app. exists pre, u. auto.
Qed.

Lemma regex_match_balance t m :
  regex_match balance_pattern t = Some m ->
  exists m1 m2,
    m = [(2%nat, m2); (1%nat, m1)] /\
    all_chars numeric_class m1 = true /\ m1 <> "" /\
    In (toLowerCase m2) unit_words.
Proof.
  intros H. apply regex_match_sound in H. destruct H as (start & s' & M).
  apply balance_pattern_captures in M. exact M.
Qed.

Lemma balance_match_none t :
  balance_match t = None <-> regex_match balance_pattern t = None.
Proof.
  unfold balance_match. destruct (regex_match balance_pattern t) as [m|] eqn:E.
  - apply regex_match_balance in E. destruct E as (m1 & m2 & -> & _). simpl.
    split; discriminate.
  - split; reflexivity.
Qed.

Lemma balance_match_some t m1 m2 :
  balance_match t = Some (m1, m2) ->
  all_chars numeric_class m1 = true /\ m1 <> "" /\ In (toLowerCase m2) unit_words.
Proof.
  unfold balance_match. destruct (regex_match balance_pattern t) as [m|] eqn:E;
    [|discriminate].
  apply regex_match_balance in E. destruct E as (a & b & -> & H). simpl.
  intros H'. injection H' as <- <-. exact H.
Qed.

(* ------------------------------------------------------------------ *)
(** ** The case of letters *)

Ltac each_char a := destruct a as [[] [] [] [] [] [] [] []]; reflexivity.

Lemma is_ws_canon a : is_ws (Canonicalize a) = is_ws a.
Proof. each_char a. Qed.

Lemma numeric_class_canon a : numeric_class (Canonicalize a) = numeric_class a.
Proof. each_char a. Qed.

Lemma Canonicalize_idem a : Canonicalize (Canonicalize a) = Canonicalize a.
Proof. each_char a. Qed.

Lemma numeric_class_fixed a : numeric_class a = true -> Canonicalize a = a.
Proof. destruct a as [[] [] [] [] [] [] [] []]; intros H; try reflexivity; discriminate H. Qed.

Lemma canon_numeric s : all_chars numeric_class s = true -> canon s = s.
Proof.
  induction s as [|a s IH]; simpl; intros H; [reflexivity|].
  apply andb_prop in H. destruct H as [H1 H2].
  rewrite (numeric_class_fixed a H1), (IH H2). reflexivity.
Qed.

Lemma length_canon s : String.length (canon s) = String.length s.
Proof. induction s as [|a s IH]; simpl; [reflexivity|rewrite IH; reflexivity]. Qed.

Lemma trimStart_canon s : trimStart (canon s) = canon (trimStart s).
Proof.
  induction s as [|a s IH]; simpl; [reflexivity|].
  rewrite is_ws_canon. destruct (is_ws a); [exact IH|reflexivity].
Qed.

Lemma trimEnd_canon s : trimEnd (canon s) = canon (trimEnd s).
Proof.
  induction s as [|a s IH]; simpl; [reflexivity|].
  rewrite IH, is_ws_canon.
  destruct (trimEnd s); simpl; [destruct (is_ws a)|]; reflexivity.
Qed.

Lemma trim_canon s : trim (canon s) = canon (trim s).
Proof. unfold trim. rewrite trimStart_canon, trimEnd_canon. reflexivity. Qed.

Lemma lit_prefix_canon l s :
  lit_prefix l (canon s) = option_map canon (lit_prefix l s).
Proof.
  revert s. induction l as [|a l IH]; intros s; simpl; [reflexivity|].
  destruct s as [|b s]; simpl; [reflexivity|].
  rewrite Canonicalize_idem.
  destruct (Ascii.eqb (Canonicalize a) (Canonicalize b)); [apply IH|reflexivity].
Qed.

Lemma substring_canon n m s : substring n m (canon s) = canon (substring n m s).
Proof.
  revert n m. induction s as [|a s IH]; intros n m; simpl.
  - destruct n, m; reflexivity.
  - destruct n; [destruct m|]; simpl; rewrite ?IH; reflexivity.
Qed.

Lemma consumed_canon s s' : consumed (canon s) (canon s') = canon (consumed s s').
Proof. unfold consumed. rewrite !length_canon. apply substring_canon. Qed.

(** Matching the canonicalized input is matching the input, up to the
    case of the letters in the result. *)
Lemma matcher_canon r :
  case_blind r ->
  forall k k' s c,
    (forall s' c', k' (canon s') (canon_captures c') = option_map canon_result (k s' c')) ->
    matcher r k' (canon s) (canon_captures c) = option_map canon_result (matcher r k s c).
Proof.
  induction r as [p|l|r1 IH1 r2 IH2|r1 IH1 r2 IH2|r IH|n r IH]; intros B k k' s c Hk.
  - destruct s as [|a s]; simpl; [reflexivity|].
    simpl in B. rewrite B. destruct (p a); [apply Hk|reflexivity].
  - simpl. rewrite lit_prefix_canon. destruct (lit_prefix l s); simpl;
      [apply Hk|reflexivity].
  - destruct B as [B1 B2]. simpl. apply IH1; [exact B1|].
    intros s' c'. apply IH2; assumption.
  - destruct B as [B1 B2]. simpl. rewrite (IH1 B1 k k' s c Hk).
    destruct (matcher r1 k s c); simpl; [reflexivity|]. apply IH2; assumption.
  - simpl in B. cbn [matcher]. rewrite length_canon.
    generalize (String.length s). intros fuel.
    match goal with
    | |- ?f fuel _ _ = option_map _ (?g fuel _ _) => set (loop' := f); set (loop := g)
    end.
    revert s c. induction fuel as [|fuel IHf]; intros s c; [apply Hk|].
    change (loop' (S fuel) (canon s) (canon_captures c))
      with (match matcher r (fun s' c' =>
                     if (String.length s' <? String.length (canon s))%nat
                     then loop' fuel s' c' else None) (canon s) (canon_captures c) with
            | Some res => Some res
            | None => k' (canon s) (canon_captures c)
            end).
    change (loop (S fuel) s c)
      with (match matcher r (fun s' c' =>
                     if (String.length s' <? String.length s)%nat
                     then loop fuel s' c' else None) s c with
            | Some res => Some res
            | None => k s c
            end).
    rewrite (IH B (fun s' c' => if (String.length s' <? String.length s)%nat
                                then loop fuel s' c' else None)
                (fun s' c' => if (String.length s' <? String.length (canon s))%nat
                              then loop' fuel s' c' else None) s c).
    + destruct (matcher r _ s c); simpl; [reflexivity|apply Hk].
    + intros s' c'. simpl. rewrite !length_canon.
      destruct (String.length s' <? String.length s)%nat; [apply IHf|reflexivity].
  - simpl in B. simpl. apply IH; [exact B|].
    intros s' c'. rewrite consumed_canon. apply (Hk s' ((n, consumed s s') :: c')).
Qed.

Lemma matcher_canon_top r s :
  case_blind r ->
  matcher r (fun s' c => Some (s', c)) (canon s) []
  = option_map canon_result (matcher r (fun s' c => Some (s', c)) s []).
Proof. intros B. apply (matcher_canon r B _ _ s []). reflexivity. Qed.

Lemma regex_match_canon r s :
  case_blind r ->
  regex_match r (canon s) = option_map canon_captures (regex_match r s).
Proof.
  intros B. induction s as [|a s IH].
  - pose proof (matcher_canon_top r "" B) as E. cbn [canon] in E.
    cbn [regex_match canon]. rewrite E at 1. clear E.
    destruct (matcher r (fun s' c => Some (s', c)) "" []) as [[s' c']|]; reflexivity.
  - pose proof (matcher_canon_top r (String a s) B) as E. cbn [canon] in E.
    cbn [regex_match canon]. rewrite E. clear E.
    destruct (matcher r (fun s' c => Some (s', c)) (String a s) []) as [[s' c']|];
      simpl; [reflexivity|exact IH].
Qed.

Lemma balance_pattern_case_blind : case_blind balance_pattern.
Proof.
  simpl. repeat split; auto using is_ws_canon, numeric_class_canon.
Qed.

Lemma balance_match_case t1 t2 :
  same_up_to_case t1 t2 ->
  match balance_match t1, balance_match t2 with
  | Some (m1, m2), Some (n1, n2) => m1 = n1 /\ toLowerCase m2 = toLowerCase n2
  | None, None => True
  | _, _ => False
  end.
Proof.
  unfold same_up_to_case. intros H.
  pose proof (regex_match_canon balance_pattern t1 balance_pattern_case_blind) as E1.
  pose proof (regex_match_canon balance_pattern t2 balance_pattern_case_blind) as E2.
  rewrite H in E1. rewrite E1 in E2. clear E1.
  unfold balance_match.
  destruct (regex_match balance_pattern t1) as [m|] eqn:M1;
    destruct (regex_match balance_pattern t2) as [m'|] eqn:M2;
    simpl in E2; try discriminate; [|exact I].
  apply regex_match_balance in M1. destruct M1 as (m1 & m2 & -> & A1 & _).
  apply regex_match_balance in M2. destruct M2 as (n1 & n2 & -> & A2 & _).
  simpl in *. injection E2 as E2 E1.
  rewrite (canon_numeric _ A1), (canon_numeric _ A2) in E1.
  split; [exact E1|].
  rewrite <- (toLowerCase_canon m2), <- (toLowerCase_canon n2), E2. reflexivity.
Qed.

Lemma read_row_case now ordNum c0 c1 c2 c3 t1 t2 rest :
  same_up_to_case t1 t2 ->
  read_row now ordNum (c0 :: c1 :: c2 :: c3 :: t1 :: rest)
  = read_row now ordNum (c0 :: c1 :: c2 :: c3 :: t2 :: rest).
Proof.
  intros H. unfold read_row, cell. cbn [nth].
  assert (H' : same_up_to_case (trim t1) (trim t2)).
  { unfold same_up_to_case in *. rewrite <- !trim_canon, H. reflexivity. }
  pose proof (balance_match_case _ _ H') as E.
  destruct (balance_match (trim t1)) as [[m1 m2]|];
    destruct (balance_match (trim t2)) as [[n1 n2]|]; try contradiction;
    [|reflexivity].
  destruct E as [-> ->]. reflexivity.
Qed.

(** C7. Two balance cells that are the same up to the case of their
    letters give the same extraction, whatever the other cells and rows
    are; so the case of the unit token does not change [balanceKg]. *)
Theorem unit_case_insensitive now ordNum before c0 c1 c2 c3 t1 t2 rest after :
  same_up_to_case t1 t2 ->
  extract now ordNum (before ++ (c0 :: c1 :: c2 :: c3 :: t1 :: rest) :: after)%list
  = extract now ordNum (before ++ (c0 :: c1 :: c2 :: c3 :: t2 :: rest) :: after)%list.
Proof.
  intros H. induction before as [|cells before IH].
  - cbn [app extract List.length cell nth].
    rewrite (read_row_case now ordNum c0 c1 c2 c3 t1 t2 rest H). reflexivity.
  - rewrite <- !app_comm_cons. cbn [extract]. rewrite IH. reflexivity.
Qed.

(** "12 TONNE" and "12 tonne" both give 12000. *)
Lemma unit_case_insensitive_witness :
  option_map balanceKg
    (extract "t" "098701" [["098701"; "Brazil"; "01-01-2025"; "31-12-2025"; "12 TONNE"]])
  = option_map balanceKg
      (extract "t" "098701" [["098701"; "Brazil"; "01-01-2025"; "31-12-2025"; "12 tonne"]])
  /\ option_map balanceKg
      (extract "t" "098701" [["098701"; "Brazil"; "01-01-2025"; "31-12-2025"; "12 tonne"]])
     = Some (Z2SF 12000).
Proof.
  split.
  - exact (f_equal (option_map balanceKg)
             (unit_case_insensitive "t" "098701" [] "098701" "Brazil" "01-01-2025"
                "31-12-2025" "12 TONNE" "12 tonne" [] [] eq_refl)).
  - vm_compute. reflexivity.
Defined.

(* ------------------------------------------------------------------ *)
(** ** Binary64 rounding of integers, and Math.round *)

Lemma digits2_bounds p :
  2 ^ (Zpos (digits2_pos p) - 1) <= Zpos p < 2 ^ Zpos (digits2_pos p).
Proof.
  induction p as [p IH|p IH|]; cbn [digits2_pos].
  - rewrite Pos2Z.inj_succ. replace (Z.succ (Zpos (digits2_pos p)) - 1)
      with (Zpos (digits2_pos p) - 1 + 1) by lia.
    rewrite Z.pow_succ_r by lia. rewrite Z.pow_add_r by lia. lia.
  - rewrite Pos2Z.inj_succ. replace (Z.succ (Zpos (digits2_pos p)) - 1)
      with (Zpos (digits2_pos p) - 1 + 1) by lia.
    rewrite Z.pow_succ_r by lia. rewrite Z.pow_add_r by lia. lia.
  - simpl. lia.
Qed.

Lemma iter_xO_value m d : Zpos (Pos.iter xO m d) = Zpos m * 2 ^ Zpos d.
Proof.
  induction d as [|d IH] using Pos.peano_ind.
  - simpl. lia.
  - rewrite Pos.iter_succ, Pos2Z.inj_succ, Z.pow_succ_r by lia.
    rewrite Pos2Z.inj_xO, IH. lia.
Qed.

Lemma iter_xO_digits m d :
  digits2_pos (Pos.iter xO m d) = (digits2_pos m + d)%positive.
Proof.
  induction d as [|d IH] using Pos.peano_ind.
  - simpl. lia.
  - rewrite Pos.iter_succ. cbn [digits2_pos]. rewrite IH. lia.
Qed.

Lemma normal_mantissa_value m :
  Zpos m < 2 ^ 53 ->
  normal_exponent m <= 0 /\
  Zpos (normal_mantissa m) = Zpos m * 2 ^ (- normal_exponent m) /\
  Zpos (digits2_pos (normal_mantissa m)) = 53.
Proof.
  intros H. unfold normal_mantissa, normal_exponent, shl_align.
  pose proof (digits2_bounds m) as [L _].
  assert (D : Zpos (digits2_pos m) <= 53).
  { destruct (Z_le_gt_dec (Zpos (digits2_pos m)) 53) as [|G]; [assumption|].
    assert (2 ^ 53 <= 2 ^ (Zpos (digits2_pos m) - 1)) by (apply Z.pow_le_mono_r; lia).
    lia. }
  split; [lia|].
  destruct (Zpos (digits2_pos m) - 53 - 0) as [|d|d] eqn:E; try lia.
  - cbn [fst]. replace (Zpos (digits2_pos m) - 53) with 0 by lia. simpl. lia.
  - cbn [fst]. rewrite iter_xO_value, iter_xO_digits.
    replace (- (Zpos (digits2_pos m) - 53)) with (Zpos d) by lia. split; lia.
Qed.

Lemma binary_round_small s m :
  Zpos m < 2 ^ 53 ->
  binary_round prec emax s m 0 = S754_finite s (normal_mantissa m) (normal_exponent m).
Proof.
  intros H. destruct (normal_mantissa_value m H) as (He & Hv & Hd).
  unfold binary_round, normal_mantissa in *.
  replace (fexp prec emax (Zpos (digits2_pos m) + 0)) with (normal_exponent m)
    by (unfold fexp, emin, prec, emax, normal_exponent;
        pose proof (Pos2Z.is_pos (digits2_pos m)); lia).
  assert (E2 : snd (shl_align m 0 (normal_exponent m)) = normal_exponent m).
  { unfold shl_align. destruct (normal_exponent m - 0) eqn:E; simpl; lia. }
  destruct (shl_align m 0 (normal_exponent m)) as [mz ez]. simpl in *. subst ez.
  assert (Hn : -52 <= normal_exponent m)
    by (unfold normal_exponent; pose proof (Pos2Z.is_pos (digits2_pos m)); lia).
  unfold binary_round_aux, shr_fexp. cbn [Zdigits2].
  rewrite Hd.
  replace (fexp prec emax (53 + normal_exponent m) - normal_exponent m) with 0
    by (unfold fexp, emin, prec, emax; lia).
  cbn [shr shr_record_of_loc shr_m loc_of_shr_record round_nearest_even Zdigits2].
  rewrite Hd.
  replace (fexp prec emax (53 + normal_exponent m) - normal_exponent m) with 0
    by (unfold fexp, emin, prec, emax; lia).
  cbn [shr shr_m].
  replace (normal_exponent m <=? emax - prec) with true
    by (symmetry; apply Z.leb_le; unfold emax, prec; lia).
  reflexivity.
Qed.

Lemma shr_fexp_exponent m e l : e <= snd (shr_fexp prec emax m e l).
Proof.
  unfold shr_fexp, shr.
  destruct (fexp prec emax (Zdigits2 m + e) - e); simpl; lia.
Qed.

Lemma binary_round_aux_exponent s m e l :
  match binary_round_aux prec emax s m e l with
  | S754_finite _ _ e' => snd (shr_fexp prec emax m e l) <= e'
  | _ => True
  end.
Proof.
  unfold binary_round_aux.
  destruct (shr_fexp prec emax m e l) as [mrs' e'] eqn:E1. cbn [snd].
  match goal with
  | |- context [shr_fexp prec emax ?a e' loc_Exact] =>
    pose proof (shr_fexp_exponent a e' loc_Exact) as H;
    destruct (shr_fexp prec emax a e' loc_Exact) as [mrs'' e'']
  end.
  simpl in H. destruct (shr_m mrs''); try exact I.
  destruct (e'' <=? emax - prec); [exact H|exact I].
Qed.

Lemma binary_round_aux_sign s m e l :
  match binary_round_aux prec emax s m e l with
  | S754_zero s' | S754_infinity s' | S754_finite s' _ _ => s' = s
  | S754_nan => True
  end.
Proof.
  unfold binary_round_aux.
  destruct (shr_fexp prec emax m e l) as [mrs' e'].
  match goal with
  | |- context [shr_fexp prec emax ?a e' loc_Exact] =>
    destruct (shr_fexp prec emax a e' loc_Exact) as [mrs'' e'']
  end.
  destruct (shr_m mrs''); try reflexivity.
  destruct (e'' <=? emax - prec); reflexivity.
Qed.

Lemma binary_round_sign s m e :
  match binary_round prec emax s m e with
  | S754_zero s' | S754_infinity s' | S754_finite s' _ _ => s' = s
  | S754_nan => True
  end.
Proof.
  unfold binary_round. destruct (shl_align _ _ _) as [mz ez].
  apply binary_round_aux_sign.
Qed.

(** From 2^53 on the rounded integer has a positive exponent. *)
Lemma binary_round_large s m :
  2 ^ 53 <= Zpos m ->
  match binary_round prec emax s m 0 with
  | S754_finite _ _ e => 0 < e
  | _ => True
  end.
Proof.
  intros H. pose proof (digits2_bounds m) as [_ U].
  assert (D : 53 < Zpos (digits2_pos m)).
  { destruct (Z_lt_le_dec 53 (Zpos (digits2_pos m))) as [|G]; [assumption|].
    assert (2 ^ Zpos (digits2_pos m) <= 2 ^ 53) by (apply Z.pow_le_mono_r; lia).
    lia. }
  unfold binary_round.
  assert (F : fexp prec emax (Zpos (digits2_pos m) + 0) = Zpos (digits2_pos m) - 53)
    by (unfold fexp, emin, prec, emax; lia).
  rewrite F. unfold shl_align.
  destruct (Zpos (digits2_pos m) - 53 - 0) eqn:E; try lia.
  pose proof (binary_round_aux_exponent s (Zpos m) 0 loc_Exact) as B.
  destruct (binary_round_aux prec emax s (Zpos m) 0 loc_Exact); try exact I.
  unfold shr_fexp in B. cbn [Zdigits2] in B. rewrite F in B.
  unfold shr in B. rewrite E in B. simpl in B. lia.
Qed.

Lemma round_of_scaled z k :
  0 < k -> (z * 2 ^ k + 2 ^ (k - 1)) / 2 ^ k = z.
Proof.
  intros H. assert (0 < 2 ^ (k - 1)) by (apply Z.pow_pos_nonneg; lia).
  assert (E : 2 ^ k = 2 * 2 ^ (k - 1)).
  { replace k with (Z.succ (k - 1)) at 1 by lia. apply Z.pow_succ_r. lia. }
  rewrite Z.add_comm, Z.div_add by lia.
  rewrite Z.div_small by lia. reflexivity.
Qed.

Lemma Math_round_binary_round s m :
  Math_round (binary_round prec emax s m 0) = binary_round prec emax s m 0.
Proof.
  destruct (Z_lt_le_dec (Zpos m) (2 ^ 53)) as [L|G].
  - rewrite (binary_round_small s m L).
    destruct (normal_mantissa_value m L) as (He & Hv & _).
    unfold Math_round.
    destruct (0 <=? normal_exponent m) eqn:E0; [reflexivity|].
    apply Z.leb_gt in E0.
    assert (Ez : (cond_Zopp s (Zpos (normal_mantissa m)) + 2 ^ (- normal_exponent m - 1))
                 / 2 ^ (- normal_exponent m) = cond_Zopp s (Zpos m)).
    { rewrite Hv. destruct s; unfold cond_Zopp.
      - rewrite <- Z.mul_opp_l. apply round_of_scaled. lia.
      - apply round_of_scaled. lia. }
    rewrite Ez. destruct s; simpl; apply binary_round_small; exact L.
  - pose proof (binary_round_large s m G) as B.
    destruct (binary_round prec emax s m 0) as [| | |s' m' e']; try reflexivity.
    unfold Math_round. replace (0 <=? e') with true by (symmetry; apply Z.leb_le; lia).
    reflexivity.
Qed.

Lemma Math_round_Z2SF z : Math_round (Z2SF z) = Z2SF z.
Proof.
  destruct z; [reflexivity| |]; apply Math_round_binary_round.
Qed.

Lemma Math_round_idempotent x : Math_round (Math_round x) = Math_round x.
Proof.
  destruct x as [s|s| |s m e]; try reflexivity.
  remember (Math_round (S754_finite s m e)) as y eqn:Ey.
  unfold Math_round in Ey. destruct (0 <=? e) eqn:E.
  - subst y. unfold Math_round. rewrite E. reflexivity.
  - destruct ((cond_Zopp s (Zpos m) + 2 ^ (- e - 1)) / 2 ^ (- e)) eqn:Ez; subst y;
      [reflexivity| |]; apply Math_round_Z2SF.
Qed.

(* ------------------------------------------------------------------ *)
(** ** The balance in kilograms *)

Lemma strip_ws_no_ws s : trimStart (strip_ws s) = strip_ws s.
Proof.
  induction s as [|a s IH]; simpl; [reflexivity|].
  destruct (is_ws a) eqn:E; [exact IH|]. simpl. rewrite E. reflexivity.
Qed.

Lemma numeric_not_sign a :
  numeric_class a = true -> a <> "-"%char /\ a <> "+"%char.
Proof.
  destruct a as [[] [] [] [] [] [] [] []]; intros H; try discriminate H;
    split; discriminate.
Qed.

Lemma take_sign_numeric s :
  all_chars numeric_class s = true ->
  take_sign (trimStart (strip_ws s)) = (false, strip_ws s).
Proof.
  intros H. rewrite strip_ws_no_ws.
  assert (A : all_chars numeric_class (strip_ws s) = true).
  { induction s as [|a s IH]; simpl in *; [reflexivity|].
    apply andb_prop in H. destruct H as [H1 H2].
    destruct (is_ws a); [auto|]. simpl. rewrite H1. auto. }
  destruct (strip_ws s) as [|a t]; [reflexivity|].
  simpl in A. apply andb_prop in A. destruct A as [A _].
  apply numeric_not_sign in A. destruct A as [A1 A2].
  unfold take_sign.
  destruct a as [[] [] [] [] [] [] [] []]; try reflexivity; congruence.
Qed.

Lemma dec2float_sign s t : sign_clear (dec2float false s t).
Proof.
  unfold dec2float. destruct s as [|p|p]; try exact I; [reflexivity|].
  destruct (0 <=? t).
  - pose proof (binary_round_sign false (Z.to_pos (Zpos p * 10 ^ t)) 0) as B.
    destruct (binary_round _ _ _ _ _); exact B.
  - destruct (SFdiv_core_binary _ _ _ _ _ _) as [[q e] l].
    pose proof (binary_round_aux_sign false q e l) as B.
    destruct (binary_round_aux _ _ _ _ _ _); exact B.
Qed.

Lemma parseFloat_token_sign m1 :
  all_chars numeric_class m1 = true -> sign_clear (parseFloat (strip_ws m1)).
Proof.
  intros H. unfold parseFloat. rewrite (take_sign_numeric _ H).
  destruct (startsWith (strip_ws m1) "Infinity"); [reflexivity|].
  destruct (span is_digit (strip_ws m1)) as [ip r1].
  destruct (match r1 with String "." r => span is_digit r | _ => ("", r1) end)
    as [fp r2].
  destruct (ip ++ fp)%string; [exact I|]. apply dec2float_sign.
Qed.

Lemma Number_mul_sign x :
  sign_clear x -> sign_clear (Number_mul x (Z2SF 1000)).
Proof.
  unfold Number_mul. change (Z2SF 1000) with (S754_finite false 8796093022208000 (-43)).
  destruct x as [s|s| |s m e]; simpl; intros H; subst; try reflexivity; try exact I.
  pose proof (binary_round_aux_sign false (Zpos (m * 8796093022208000)) (e + -43) loc_Exact)
    as B.
  destruct (binary_round_aux _ _ _ _ _ _); exact B.
Qed.

(** [Math.round] of a Number without sign bit is NaN, +Infinity or a
    whole number without sign bit. *)
Lemma Math_round_whole x :
  sign_clear x ->
  Math_round x = NaN \/ Math_round x = Infinity false \/ nonneg_whole (Math_round x) = true.
Proof.
  destruct x as [s|s| |s m e]; simpl; intros H; subst; auto.
  destruct (0 <=? e) eqn:E.
  { right. right. simpl. rewrite E. reflexivity. }
  unfold cond_Zopp.
  assert (Hz : 0 <= (Zpos m + 2 ^ (- e - 1)) / 2 ^ (- e)).
  { apply Z.leb_gt in E. apply Z.div_pos.
    - assert (0 < 2 ^ (- e - 1)) by (apply Z.pow_pos_nonneg; lia). lia.
    - apply Z.pow_pos_nonneg; lia. }
  destruct ((Zpos m + 2 ^ (- e - 1)) / 2 ^ (- e)) as [|p|p]; [auto| |lia].
  unfold Z2SF, binary_normalize.
  destruct (Z_lt_le_dec (Zpos p) (2 ^ 53)) as [L|G].
  - right. right. rewrite (binary_round_small false p L).
    destruct (normal_mantissa_value p L) as (He & Hv & _).
    simpl. rewrite Hv.
    rewrite Z.mod_mul by (apply Z.pow_nonzero; lia).
    rewrite orb_true_r. reflexivity.
  - pose proof (binary_round_large false p G) as B.
    pose proof (binary_round_sign false p 0) as S.
    destruct (binary_round prec emax false p 0) as [s'|s'| |s' m' e']; subst; auto.
    right. right. simpl. replace (0 <=? e') with true by (symmetry; apply Z.leb_le; lia).
    reflexivity.
Qed.

Lemma Math_round_sign x : sign_clear x -> sign_clear (Math_round x).
Proof.
  intros H. destruct (Math_round_whole x H) as [E|[E|E]]; rewrite ?E; try exact I;
    try reflexivity.
  destruct (Math_round x) as [s|s| |s m e]; simpl in *; try discriminate; try exact I.
  - destruct s; [discriminate|reflexivity].
  - destruct s; [discriminate|reflexivity].
Qed.

Lemma extract_first now ordNum before cells after :
  forallb (skipped ordNum) before = true ->
  (5 <= List.length cells)%nat ->
  trim (cell cells 0) = ordNum ->
  extract now ordNum (before ++ cells :: after)%list = 
  match read_row now ordNum cells with
  | Some r => Some r
  | None => extract now ordNum after
  end.
Proof.
  intros Hb Hl Hk. rewrite extract_skip_all by exact Hb. cbn [extract].
  replace (List.length cells <? 5)%nat with false
    by (symmetry; apply Nat.ltb_ge; exact Hl).
  rewrite Hk, String.eqb_refl. reflexivity.
Qed.

Lemma kilogram_balance_rounded now ordNum before cells after m1 m2 :
  forallb (skipped ordNum) before = true ->
  (5 <= List.length cells)%nat ->
  trim (cell cells 0) = ordNum ->
  balance_match (trim (cell cells 4)) = Some (m1, m2) ->
  toLowerCase m2 = "kilogram" \/ toLowerCase m2 = "kg" ->
  exists r,
    extract now ordNum (before ++ cells :: after)%list = Some r /\
    balanceKg r = Math_round (parseFloat (strip_ws m1)).
Proof.
  intros Hb Hl Hk Hm Hu.
  rewrite (extract_first now ordNum before cells after Hb Hl Hk).
  unfold read_row. rewrite Hm. eexists. split; [reflexivity|].
  cbn [balanceKg]. unfold normalize.
  replace (isTonne (toLowerCase m2)) with false
    by (destruct Hu as [-> | ->]; reflexivity).
  reflexivity.
Qed.

(* ------------------------------------------------------------------ *)
(** ** Decimal digits *)

Lemma decimal_fuel_acc f n acc :
  decimal_fuel f n acc = decimal_fuel f n "" ++ acc.
Proof.
  revert n acc. induction f as [|f IH]; intros n acc; [reflexivity|].
  cbn [decimal_fuel]. destruct (n <? 10); [reflexivity|].
  rewrite (IH _ (String _ acc)), (IH _ (String _ "")).
  rewrite append_assoc. reflexivity.
Qed.

Lemma decimal_fuel_enough f g n acc :
  0 <= n < 10 ^ Z.of_nat (S f) -> n < 10 ^ Z.of_nat (S g) ->
  decimal_fuel (S f) n acc = decimal_fuel (S g) n acc.
Proof.
  revert g n acc. induction f as [|f IH]; intros g n acc Hf Hg.
  - cbn [decimal_fuel]. replace (n <? 10) with true; [reflexivity|].
    symmetry. apply Z.ltb_lt. simpl in Hf. lia.
  - cbn [decimal_fuel]. destruct (n <? 10) eqn:E; [reflexivity|].
    apply Z.ltb_ge in E. destruct g as [|g].
    { simpl in Hg. lia. }
    rewrite !Nat2Z.inj_succ, !Z.pow_succ_r in Hf, Hg by lia.
    apply IH.
    + split; [apply Z.div_pos; lia|].
      apply Z.div_lt_upper_bound; [lia|].
      rewrite Nat2Z.inj_succ, Z.pow_succ_r by lia. lia.
    + apply Z.div_lt_upper_bound; [lia|].
      rewrite Nat2Z.inj_succ, Z.pow_succ_r by lia. lia.
Qed.

Lemma decimal_default_fuel n :
  0 <= n -> n < 10 ^ Z.of_nat (S (Z.to_nat (Z.log2 n))).
Proof.
  intros H. destruct (Z.eq_dec n 0) as [->|N]; [simpl; lia|].
  rewrite Nat2Z.inj_succ, Z2Nat.id by apply Z.log2_nonneg.
  pose proof (Z.log2_spec n ltac:(lia)) as [_ U].
  assert (2 ^ Z.succ (Z.log2 n) <= 10 ^ Z.succ (Z.log2 n)).
  { apply Z.pow_le_mono_l. lia. }
  lia.
Qed.

Lemma decimal_with_fuel f n :
  0 <= n < 10 ^ Z.of_nat (S f) -> decimal n = decimal_fuel (S f) n "".
Proof.
  intros H. unfold decimal. apply decimal_fuel_enough.
  - split; [lia|]. apply decimal_default_fuel. lia.
  - lia.
Qed.

Lemma decimal_small n : 0 <= n < 10 -> decimal n = String (digit_char n) "".
Proof.
  intros H. rewrite (decimal_with_fuel 0) by (simpl; lia).
  cbn [decimal_fuel]. replace (n <? 10) with true by (symmetry; apply Z.ltb_lt; lia).
  rewrite Z.mod_small by lia. reflexivity.
Qed.

Lemma decimal_step n :
  10 <= n -> decimal n = decimal (n / 10) ++ String (digit_char (n mod 10)) "".
Proof.
  intros H.
  pose proof (decimal_default_fuel n ltac:(lia)) as F.
  unfold decimal at 1. cbn [decimal_fuel].
  replace (n <? 10) with false by (symmetry; apply Z.ltb_ge; lia).
  rewrite decimal_fuel_acc. f_equal.
  destruct (Z.to_nat (Z.log2 n)) as [|f] eqn:E.
  { simpl in F. lia. }
  symmetry. apply decimal_with_fuel.
  split; [apply Z.div_pos; lia|].
  apply Z.div_lt_upper_bound; [lia|].
  rewrite Nat2Z.inj_succ, Z.pow_succ_r in F by lia. lia.
Qed.

(** Induction on the decimal digits of a number. *)
Lemma decimal_ind (P : Z -> Prop) :
  (forall n, 0 <= n < 10 -> P n) ->
  (forall n, 10 <= n -> P (n / 10) -> P n) ->
  forall n, 0 <= n -> P n.
Proof.
  intros H0 H1. apply Zlt_0_ind. intros n IH Hn.
  destruct (Z_lt_le_dec n 10) as [L|G]; [apply H0; lia|].
  apply H1; [exact G|]. apply IH.
  split; [apply Z.div_pos; lia|apply Z.div_lt; lia].
Qed.

Lemma length_decimal n :
  0 < n ->
  10 ^ (Z.of_nat (String.length (decimal n)) - 1) <= n
  < 10 ^ Z.of_nat (String.length (decimal n)).
Proof.
  intros H. assert (H' : 0 <= n) by lia. revert H.
  pattern n. apply decimal_ind; [| |exact H']; clear n H'.
  - intros n Hn Hp. rewrite decimal_small by exact Hn. simpl. lia.
  - intros n Hn IH _. rewrite decimal_step by exact Hn.
    rewrite length_append. cbn [String.length].
    assert (Hq : 0 < n / 10) by (apply Z.div_str_pos; lia).
    specialize (IH Hq). set (L := String.length (decimal (n / 10))) in *.
    assert (1 <= Z.of_nat L).
    { destruct L; [simpl in IH; lia|lia]. }
    replace (Z.of_nat (L + 1) - 1) with (Z.succ (Z.of_nat L - 1)) by lia.
    replace (Z.of_nat (L + 1)) with (Z.succ (Z.of_nat L)) by lia.
    rewrite !Z.pow_succ_r by lia.
    pose proof (Z.div_mod n 10 ltac:(lia)) as D.
    pose proof (Z.mod_pos_bound n 10 ltac:(lia)) as M.
    lia.
Qed.

Lemma zeros_succ j : 0 <= j -> zeros (Z.succ j) = zeros j ++ "0".
Proof.
  intros H. unfold zeros. rewrite Z2Nat.inj_succ by exact H.
  induction (Z.to_nat j) as [|k IH]; [reflexivity|].
  simpl in *. f_equal. exact IH.
Qed.

Lemma append_empty_r s : s ++ "" = s.
Proof. induction s as [|a s IH]; simpl; [reflexivity|rewrite IH; reflexivity]. Qed.

(** The digits of [s * 10^j] are the digits of [s] and [j] zeros. *)
Lemma decimal_shift s j :
  0 < s -> 0 <= j -> decimal (s * 10 ^ j) = decimal s ++ zeros j.
Proof.
  intros Hs Hj. revert j Hj. apply natlike_ind.
  - simpl. rewrite Z.mul_1_r, append_empty_r. reflexivity.
  - intros j Hj IH. rewrite Z.pow_succ_r by exact Hj.
    assert (0 < 10 ^ j) by (apply Z.pow_pos_nonneg; lia).
    rewrite decimal_step by nia.
    replace (s * (10 * 10 ^ j)) with ((s * 10 ^ j) * 10) by lia.
    rewrite Z.div_mul, Z.mod_mul by lia.
    rewrite IH, zeros_succ, append_assoc by exact Hj. reflexivity.
Qed.

(* ------------------------------------------------------------------ *)
(** ** Exact sums of small integers *)

Lemma normal_form_inj a b :
  Zpos a < 2 ^ 53 -> Zpos b < 2 ^ 53 ->
  normal_mantissa a = normal_mantissa b -> normal_exponent a = normal_exponent b ->
  a = b.
Proof.
  intros Ha Hb Hm He.
  destruct (normal_mantissa_value a Ha) as (_ & Va & _).
  destruct (normal_mantissa_value b Hb) as (_ & Vb & _).
  rewrite Hm, He, Vb in Va.
  assert (0 < 2 ^ (- normal_exponent b)).
  { apply Z.pow_pos_nonneg; [lia|]. unfold normal_exponent.
    destruct (normal_mantissa_value b Hb) as (Hn & _). unfold normal_exponent in Hn. lia. }
  apply Z.mul_cancel_r in Va; [|lia]. congruence.
Qed.

(** A mantissa of 53 digits in range is kept as it is. *)
Lemma binary_round_aux_canonical s mz ez :
  Zpos (digits2_pos mz) = 53 -> -1074 <= ez <= 971 ->
  binary_round_aux prec emax s (Zpos mz) ez loc_Exact = S754_finite s mz ez.
Proof.
  intros Hd He. unfold binary_round_aux, shr_fexp. cbn [Zdigits2]. rewrite Hd.
  replace (fexp prec emax (53 + ez) - ez) with 0 by (unfold fexp, emin, prec, emax; lia).
  cbn [shr shr_record_of_loc shr_m loc_of_shr_record round_nearest_even Zdigits2].
  rewrite Hd.
  replace (fexp prec emax (53 + ez) - ez) with 0 by (unfold fexp, emin, prec, emax; lia).
  cbn [shr shr_m].
  replace (ez <=? emax - prec) with true
    by (symmetry; apply Z.leb_le; unfold emax, prec; lia).
  reflexivity.
Qed.

(** Shifting out zero bits is exact. *)
Lemma iter_shr_exact p :
  forall a,
    iter_pos shr_1 p (Build_shr_record (Zpos (Pos.iter xO a p)) false false)
    = Build_shr_record (Zpos a) false false.
Proof.
  induction p as [p IH|p IH|]; intros a; cbn [iter_pos Pos.iter].
  - cbn [shr_1 orb]. rewrite IH, IH. reflexivity.
  - rewrite IH, IH. reflexivity.
  - reflexivity.
Qed.

Lemma pos_of_value a b d : Zpos a = Zpos b * 2 ^ Zpos d -> a = Pos.iter xO b d.
Proof. intros H. rewrite <- iter_xO_value in H. congruence. Qed.

(** Rounding [M * 2^e], an integer [v] below 2^53 written with [-e] more
    bits, gives the Number for [v]. *)
Lemma binary_round_exact s M e v :
  Zpos v < 2 ^ 53 -> e <= 0 -> -1074 <= e -> Zpos M = Zpos v * 2 ^ (- e) ->
  binary_round prec emax s M e = S754_finite s (normal_mantissa v) (normal_exponent v).
Proof.
  intros Hv He Hl HM.
  destruct (normal_mantissa_value v Hv) as (Hn & Vn & Dn).
  assert (Hn' : -52 <= normal_exponent v)
    by (unfold normal_exponent; pose proof (Pos2Z.is_pos (digits2_pos v)); lia).
  assert (DM : Zpos (digits2_pos M) + e = Zpos (digits2_pos v)).
  { destruct e as [|d|d]; [|lia|].
    - simpl in HM. assert (M = v) by lia. subst. lia.
    - simpl in HM. apply pos_of_value in HM. subst M.
      rewrite iter_xO_digits. lia. }
  unfold binary_round. rewrite DM.
  replace (fexp prec emax (Zpos (digits2_pos v))) with (normal_exponent v)
    by (unfold fexp, emin, prec, emax, normal_exponent in *; lia).
  unfold shl_align.
  destruct (normal_exponent v - e) as [|d|d] eqn:E.
  - assert (M = normal_mantissa v).
    { assert (Zpos M = Zpos (normal_mantissa v)) by (rewrite HM, Vn; f_equal; f_equal; lia).
      congruence. }
    subst M. replace e with (normal_exponent v) by lia.
    apply binary_round_aux_canonical; [exact Dn|lia].
  - assert (M = Pos.iter xO (normal_mantissa v) d).
    { apply pos_of_value. rewrite HM, Vn, <- Z.mul_assoc, <- Z.pow_add_r by lia.
      f_equal. f_equal. lia. }
    subst M. unfold binary_round_aux, shr_fexp. cbn [Zdigits2].
    rewrite iter_xO_digits. rewrite Pos2Z.inj_add, Dn.
    replace (fexp prec emax (53 + Zpos d + e) - e) with (Zpos d)
      by (unfold fexp, emin, prec, emax; lia).
    cbn [shr shr_record_of_loc]. rewrite iter_shr_exact.
    cbn [shr_m loc_of_shr_record round_nearest_even Zdigits2]. rewrite Dn.
    replace (fexp prec emax (53 + (e + Zpos d)) - (e + Zpos d)) with 0
      by (unfold fexp, emin, prec, emax; lia).
    cbn [shr shr_m].
    replace (e + Zpos d <=? emax - prec) with true
      by (symmetry; apply Z.leb_le; unfold emax, prec; lia).
    f_equal. lia.
  - assert (Pos.iter xO M d = normal_mantissa v).
    { assert (Zpos (Pos.iter xO M d) = Zpos (normal_mantissa v)); [|congruence].
      rewrite iter_xO_value, HM, Vn, <- Z.mul_assoc, <- Z.pow_add_r by lia.
      f_equal. f_equal. lia. }
    rewrite H. apply binary_round_aux_canonical; [exact Dn|lia].
Qed.

Lemma Z2SF_small v :
  Zpos v < 2 ^ 53 ->
  Z2SF (Zpos v) = S754_finite false (normal_mantissa v) (normal_exponent v).
Proof. apply binary_round_small. Qed.

Lemma shl_align_value m e e' :
  e' <= e -> 
  snd (shl_align m e e') = e' /\ Zpos (fst (shl_align m e e')) = Zpos m * 2 ^ (e - e').
Proof.
  intros H. unfold shl_align. destruct (e' - e) as [|d|d] eqn:E; try lia.
  - cbn [fst snd]. replace (e - e') with 0 by lia. simpl. lia.
  - cbn [fst snd]. rewrite iter_xO_value. replace (e - e') with (Zpos d) by lia. lia.
Qed.

(** [n + 1] is exact while it stays below 2^53. *)
Lemma Number_add_one n :
  0 <= n -> n + 1 < 2 ^ 53 -> Number_add (Z2SF n) (Z2SF 1) = Z2SF (n + 1).
Proof.
  intros H0 H1. destruct n as [|p|p]; [reflexivity| |lia].
  rewrite (Z2SF_small p) by lia.
  change (Z2SF 1) with (S754_finite false 4503599627370496 (-52)).
  destruct (normal_mantissa_value p ltac:(lia)) as (Hn & Vn & Dn).
  assert (Hn' : -52 <= normal_exponent p)
    by (unfold normal_exponent; pose proof (Pos2Z.is_pos (digits2_pos p)); lia).
  unfold Number_add, SFadd.
  replace (Z.min (normal_exponent p) (-52)) with (-52) by lia.
  destruct (shl_align_value (normal_mantissa p) (normal_exponent p) (-52) Hn') as [_ V1].
  change (fst (shl_align 4503599627370496 (-52) (-52))) with 4503599627370496%positive.
  unfold cond_Zopp. cbn [Z.add]. unfold binary_normalize.
  replace (Zpos p + 1) with (Zpos (p + 1)) by lia.
  rewrite (Z2SF_small (p + 1)) by lia.
  apply binary_round_exact; try lia.
  rewrite Pos2Z.inj_add, V1, Vn, <- Z.mul_assoc, <- Z.pow_add_r by lia.
  replace (- normal_exponent p + (normal_exponent p - -52)) with 52 by lia.
  replace (- -52) with 52 by lia. change (2 ^ 52) with 4503599627370496. lia.
Qed.

(* ------------------------------------------------------------------ *)
(** ** The text of a small integer *)

Lemma Number_eqb_eq x y : Number_eqb x y = true <-> x = y.
Proof.
  destruct x as [a|a| |a m e], y as [b|b| |b n f]; simpl;
    try (split; [discriminate|congruence]); try (split; reflexivity).
  - rewrite Bool.eqb_true_iff. split; congruence.
  - rewrite Bool.eqb_true_iff. split; congruence.
  - rewrite !andb_true_iff, Bool.eqb_true_iff, Pos.eqb_eq, Z.eqb_eq.
    split; [intros [[-> ->] ->]; reflexivity|intros H; injection H; auto].
Qed.

(** Only [v] itself converts to the Number for [v]. *)
Lemma dec2float_integer v s t :
  Zpos v < 2 ^ 53 -> 0 < s -> 0 <= t ->
  Number_eqb (dec2float false s t) (Z2SF (Zpos v)) = (s * 10 ^ t =? Zpos v).
Proof.
  intros Hv Hs Ht.
  assert (Hp : 0 < s * 10 ^ t).
  { apply Z.mul_pos_pos; [exact Hs|apply Z.pow_pos_nonneg; lia]. }
  unfold dec2float. destruct s as [|p|p]; try lia.
  replace (0 <=? t) with true by (symmetry; apply Z.leb_le; exact Ht).
  rewrite (Z2SF_small v Hv).
  set (W := Z.to_pos (Zpos p * 10 ^ t)).
  assert (EW : Zpos p * 10 ^ t = Zpos W) by (unfold W; symmetry; apply Z2Pos.id; exact Hp).
  rewrite EW.
  destruct (Z_lt_le_dec (Zpos W) (2 ^ 53)) as [L|G].
  - rewrite (binary_round_small false W L).
    destruct (Z.eqb_spec (Zpos W) (Zpos v)) as [E|N].
    + injection E as ->. apply Number_eqb_eq. reflexivity.
    + apply not_true_is_false. intros C. apply Number_eqb_eq in C.
      injection C as C1 C2. apply N. f_equal.
      apply normal_form_inj; assumption.
  - pose proof (binary_round_large false W G) as B.
    destruct (normal_mantissa_value v Hv) as (Hn & _).
    replace (Zpos W =? Zpos v) with false by (symmetry; apply Z.eqb_neq; lia).
    destruct (binary_round prec emax false W 0) as [| | |s' m' e']; try reflexivity.
    cbn [Number_eqb].
    replace (e' =? normal_exponent v) with false by (symmetry; apply Z.eqb_neq; lia).
    apply andb_false_r.
Qed.

Section SmallInteger.

Variable v : positive.

Hypothesis small : Zpos v < 2 ^ 53.

Variable x : Number.

Hypothesis Hx : x = Z2SF (Zpos v).

Variable L : Z.

Hypothesis HL : L = Z.of_nat (String.length (decimal (Zpos v))).

Variables P Q : Z.

Hypothesis HQ : 0 < Q.

Hypothesis HP : P = Zpos v * Q.

Lemma digits_of_small : 1 <= L <= 16.
Proof.
  pose proof (length_decimal (Zpos v) ltac:(lia)) as [Lo Hi]. rewrite <- HL in Lo, Hi.
  assert (1 <= L).
  { destruct (Z_le_gt_dec 1 L) as [|G]; [assumption|].
    assert (E0 : L = 0) by lia. rewrite E0 in Hi. simpl in Hi. lia. }
  split; [assumption|].
  destruct (Z_le_gt_dec L 16) as [|G]; [assumption|].
  assert (10 ^ 16 <= 10 ^ (L - 1)) by (apply Z.pow_le_mono_r; lia).
  change (2 ^ 53) with 9007199254740992 in small.
  change (10 ^ 16) with 10000000000000000 in *. lia.
Qed.

Lemma shortest_at_integer k :
  1 <= k <= L ->
  shortest_at x P Q L k =
  if Zpos v mod 10 ^ (L - k) =? 0 then Some (Zpos v / 10 ^ (L - k)) else None.
Proof.
  intros Hk. unfold shortest_at.
  pose proof (length_decimal (Zpos v) ltac:(lia)) as [Lo Hi]. rewrite <- HL in Lo, Hi.
  set (t := L - k). assert (Ht : 0 <= t) by (unfold t; lia).
  replace (0 <=? t) with true by (symmetry; apply Z.leb_le; exact Ht).
  assert (T : 0 < 10 ^ t) by (apply Z.pow_pos_nonneg; lia).
  assert (T' : 10 ^ t <= Zpos v).
  { assert (10 ^ t <= 10 ^ (L - 1)) by (apply Z.pow_le_mono_r; unfold t; lia). lia. }
  replace (P / (Q * 10 ^ t)) with (Zpos v / 10 ^ t)
    by (rewrite HP, (Z.mul_comm (Zpos v) Q); symmetry;
        apply Z.div_mul_cancel_l; lia).
  set (lo := Zpos v / 10 ^ t).
  assert (Hlo : 0 < lo) by (apply Z.div_str_pos; lia).
  pose proof (Z.div_mod (Zpos v) (10 ^ t) ltac:(lia)) as D. fold lo in D.
  pose proof (Z.mod_pos_bound (Zpos v) (10 ^ t) T) as M.
  rewrite Hx.
  rewrite !dec2float_integer by lia.
  replace ((lo + 1) * 10 ^ t =? Zpos v) with false by (symmetry; apply Z.eqb_neq; lia).
  destruct (Z.eqb_spec (Zpos v mod 10 ^ t) 0) as [E|N].
  - replace (lo * 10 ^ t =? Zpos v) with true by (symmetry; apply Z.eqb_eq; lia).
    reflexivity.
  - replace (lo * 10 ^ t =? Zpos v) with false by (symmetry; apply Z.eqb_neq; lia).
    reflexivity.
Qed.

Lemma shortest_integer fuel :
  forall k,
    1 <= k <= L -> L - k < Z.of_nat fuel ->
    exists k' s,
      shortest fuel x P Q L k = Some (k', s) /\
      1 <= k' <= L /\ 0 < s /\ s * 10 ^ (L - k') = Zpos v.
Proof.
  induction fuel as [|fuel IH]; intros k Hk Hf; [lia|].
  cbn [shortest]. rewrite shortest_at_integer by exact Hk.
  assert (T : 0 < 10 ^ (L - k)) by (apply Z.pow_pos_nonneg; lia).
  pose proof (length_decimal (Zpos v) ltac:(lia)) as [Lo Hi]. rewrite <- HL in Lo, Hi.
  destruct (Z.eqb_spec (Zpos v mod 10 ^ (L - k)) 0) as [E|N].
  - exists k, (Zpos v / 10 ^ (L - k)). split; [reflexivity|].
    pose proof (Z.div_mod (Zpos v) (10 ^ (L - k)) ltac:(lia)) as D.
    split; [exact Hk|]. split; [|lia].
    apply Z.div_str_pos. split; [lia|].
    assert (10 ^ (L - k) <= 10 ^ (L - 1)) by (apply Z.pow_le_mono_r; lia). lia.
  - assert (k <> L).
    { intros ->. apply N. rewrite Z.sub_diag. apply Z.mod_1_r. }
    apply IH; lia.
Qed.

Lemma Number_toString_body :
  match shortest 17 x P Q L 1 with
  | Some (k, s) =>
    if s =? 10 ^ k then format_digits (10 ^ (k - 1)) k (L + 1)
    else format_digits s k L
  | None => "NaN"
  end = decimal (Zpos v).
Proof.
  pose proof digits_of_small as HL16.
  destruct (shortest_integer 17 1 ltac:(lia) ltac:(simpl; lia))
    as (k & s & -> & Hk & Hs & Hv).
  pose proof (length_decimal (Zpos v) ltac:(lia)) as [Lo Hi]. rewrite <- HL in Lo, Hi.
  assert (T : 0 < 10 ^ (L - k)) by (apply Z.pow_pos_nonneg; lia).
  assert (s < 10 ^ k).
  { assert (E : 10 ^ L = 10 ^ k * 10 ^ (L - k))
      by (rewrite <- Z.pow_add_r by lia; f_equal; lia).
    rewrite E in Hi. nia. }
  replace (s =? 10 ^ k) with false by (symmetry; apply Z.eqb_neq; lia).
  unfold format_digits.
  replace (k <=? L) with true by (symmetry; apply Z.leb_le; lia).
  replace (L <=? 21) with true by (symmetry; apply Z.leb_le; lia).
  cbn [andb]. rewrite <- decimal_shift by lia. rewrite Hv. reflexivity.
Qed.

End SmallInteger.

Theorem Number_toString_integer n :
  0 <= n < 2 ^ 53 -> Number_toString (Z2SF n) = decimal n.
Proof.
  intros [H0 H1]. destruct n as [|v|v]; [reflexivity| |lia].
  pose proof (Z2SF_small v H1) as EZ. rewrite EZ.
  destruct (normal_mantissa_value v H1) as (Hn & Vn & _).
  unfold Number_toString. cbn [append].
  assert (Q : 0 < 2 ^ (- normal_exponent v)) by (apply Z.pow_pos_nonneg; lia).
  destruct (0 <=? normal_exponent v) eqn:E.
  - apply Z.leb_le in E. assert (E0 : normal_exponent v = 0) by lia.
    assert (V : Zpos (normal_mantissa v) * 2 ^ normal_exponent v = Zpos v * 1).
    { rewrite Vn, E0. change (- 0) with 0. rewrite Z.pow_0_r. lia. }
    rewrite V.
    assert (M : magnitude (Zpos v * 1) 1 = Z.of_nat (String.length (decimal (Zpos v)))).
    { unfold magnitude.
      replace (1 <=? Zpos v * 1) with true by (symmetry; apply Z.leb_le; lia).
      rewrite Z.div_1_r, Z.mul_1_r. reflexivity. }
    rewrite M.
    apply (Number_toString_body v H1 _ (eq_sym EZ) _ eq_refl); [lia|reflexivity].
  - assert (M : magnitude (Zpos (normal_mantissa v)) (2 ^ (- normal_exponent v))
                = Z.of_nat (String.length (decimal (Zpos v)))).
    { unfold magnitude. rewrite Vn.
      replace (2 ^ (- normal_exponent v) <=? Zpos v * 2 ^ (- normal_exponent v)) with true
        by (symmetry; apply Z.leb_le; nia).
      rewrite Z.div_mul by lia. reflexivity. }
    rewrite M.
    apply (Number_toString_body v H1 _ (eq_sym EZ) _ eq_refl); [exact Q|exact Vn].
Qed.

(* ------------------------------------------------------------------ *)
(** ** The year in the address *)

Lemma span_digits ds rest :
  all_chars is_digit ds = true -> starts_with_digit rest = false ->
  span is_digit (ds ++ rest) = (ds, rest).
Proof.
  intros Hd Hr. induction ds as [|a ds IH]; simpl in *.
  - destruct rest as [|c rest]; [reflexivity|]. simpl in *. rewrite Hr. reflexivity.
  - apply andb_prop in Hd. destruct Hd as [H1 H2]. rewrite H1, (IH H2). reflexivity.
Qed.

Lemma digit_val_range a : is_digit a = true -> 0 <= digit_val a <= 9.
Proof.
  destruct a as [[] [] [] [] [] [] [] []]; intros H; try discriminate H;
    vm_compute; split; discriminate.
Qed.

Lemma radix_value_nonneg ds acc :
  all_chars is_digit ds = true -> 0 <= acc -> 0 <= radix_value 10 digit_val ds acc.
Proof.
  revert acc. induction ds as [|a ds IH]; cbn [radix_value all_chars]; intros acc H Ha;
    [exact Ha|].
  apply andb_prop in H. destruct H as [H1 H2].
  apply IH; [exact H2|]. pose proof (digit_val_range a H1). lia.
Qed.

Lemma digit_first a s :
  is_digit a = true ->
  trimStart (String a s) = String a s /\ take_sign (String a s) = (false, String a s).
Proof.
  destruct a as [[] [] [] [] [] [] [] []]; intros H; try discriminate H;
    split; reflexivity.
Qed.

Lemma parseInt_decimal_prefix ds rest :
  ds <> "" -> all_chars is_digit ds = true -> starts_with_digit rest = false ->
  strip_hex_prefix (ds ++ rest) = None ->
  parseInt (ds ++ rest) = Z2SF (radix_value 10 digit_val ds 0).
Proof.
  intros Hne Hd Hr Hx. unfold parseInt.
  destruct ds as [|a ds]; [congruence|].
  pose proof Hd as Hd'. simpl in Hd'. apply andb_prop in Hd'. destruct Hd' as [Ha _].
  change (String a ds ++ rest) with (String a (ds ++ rest)) in *.
  destruct (digit_first a (ds ++ rest) Ha) as [-> ->].
  rewrite Hx.
  change (String a (ds ++ rest)) with (String a ds ++ rest).
  rewrite (span_digits _ _ Hd Hr). cbn [fst].
  pose proof (radix_value_nonneg (String a ds) 0 Hd ltac:(lia)) as N.
  destruct (radix_value 10 digit_val (String a ds) 0); [reflexivity|reflexivity|lia].
Qed.

Lemma handler_goto env q :
  complete q = true ->
  throws env [] launch = None ->
  throws env [launch] newPage = None ->
  throws env [launch; newPage] (setUserAgent user_agent) = None ->
  In (goto (quota_url (param_text (q_orderNumber q)) (param_text (q_origin q))
                      (parseInt (param_text (q_year q)))
                      (Number_add (parseInt (param_text (q_year q))) (Z2SF 1))))
     (fst (run env q)).
Proof.
  unfold complete. intros H H1 H2 H3. apply negb_true_iff in H.
  unfold run, quota_handler. rewrite H.
  unfold page_evaluate, try_catch, bind, perform, set_browser, get_browser, now, ret,
    initial; cbn [calls browser app].
  rewrite H1; cbn [calls browser app]. rewrite H2; cbn [calls browser app].
  rewrite H3; cbn [calls browser app].
  match goal with |- context [throws env ?h (goto ?u)] =>
    destruct (throws env h (goto u)) eqn:E4 end; cbn [calls browser app].
  { destruct (throws env _ close); cbn [calls browser app fst];
      simpl; auto 10. }
  match goal with |- context [throws env ?h (evaluate ?u)] =>
    destruct (throws env h (evaluate u)) eqn:E5 end; cbn [calls browser app].
  { destruct (throws env _ close); cbn [calls browser app fst];
      simpl; auto 10. }
  match goal with |- context [throws env ?h close] =>
    destruct (throws env h close) eqn:E6 end; cbn [calls browser app].
  { match goal with |- context [throws env ?h close] =>
      destruct (throws env h close) eqn:E7 end; cbn [calls browser app fst];
      simpl; auto 10. }
  destruct (extract _ _ _); cbn [calls browser app].
  - match goal with |- context [throws env ?h (send ?a ?b)] =>
      destruct (throws env h (send a b)) eqn:E7 end; cbn [calls browser app].
    + match goal with |- context [throws env ?h close] =>
        destruct (throws env h close) eqn:E8 end; cbn [calls browser app fst];
        simpl; auto 10.
    + simpl; auto 10.
  - match goal with |- context [throws env ?h (send ?a ?b)] =>
      destruct (throws env h (send a b)) eqn:E7 end; cbn [calls browser app].
    + match goal with |- context [throws env ?h close] =>
        destruct (throws env h close) eqn:E8 end; cbn [calls browser app fst];
        simpl; auto 10.
    + simpl; auto 10.
Qed.

(** C10, amended. When the year begins with decimal digits, behind which
    no further digit follows, the digits are not a 0 in front of x or X,
    their value plus one is below 2^53, and the browser is launched, the
    page opened and the user agent set without error, then the handler
    navigates to the address with Year=value and Year=value+1 in decimal. *)
Theorem year_prefix_in_url env q ds rest :
  complete q = true ->
  q_year q = Some (ds ++ rest) ->
  ds <> "" -> all_chars is_digit ds = true -> starts_with_digit rest = false ->
  strip_hex_prefix (ds ++ rest) = None ->
  radix_value 10 digit_val ds 0 + 1 < 2 ^ 53 ->
  throws env [] launch = None ->
  throws env [launch] newPage = None ->
  throws env [launch; newPage] (setUserAgent user_agent) = None ->
  In (goto ("https://ec.europa.eu/taxation_customs/dds2/taric/quota_consultation.jsp?Lang=en&Code="
            ++ param_text (q_orderNumber q) ++ "&Origin=" ++ param_text (q_origin q)
            ++ "&Expand=true&Year=" ++ decimal (radix_value 10 digit_val ds 0)
            ++ "&Year=" ++ decimal (radix_value 10 digit_val ds 0 + 1)))
     (fst (run env q)).
Proof.
  intros Hq Hy Hne Hd Hr Hx Hb H1 H2 H3.
  pose proof (handler_goto env q Hq H1 H2 H3) as G.
  rewrite Hy in G. cbn [param_text] in G.
  rewrite (parseInt_decimal_prefix ds rest Hne Hd Hr Hx) in G.
  pose proof (radix_value_nonneg ds 0 Hd ltac:(lia)) as N.
  rewrite Number_add_one in G by lia.
  unfold quota_url in G. rewrite !Number_toString_integer in G by lia.
  exact G.
Qed.

(** The year "2025x" gives Year=2025 and Year=2026. *)
Lemma year_prefix_in_url_witness :
  In (goto "https://ec.europa.eu/taxation_customs/dds2/taric/quota_consultation.jsp?Lang=en&Code=098701&Origin=BR&Expand=true&Year=2025&Year=2026")
     (fst (run (calm [sample_row])
               {| q_orderNumber := Some "098701"; q_year := Some "2025x";
                  q_origin := Some "BR" |})).
Proof.
  exact (year_prefix_in_url (calm [sample_row])
           {| q_orderNumber := Some "098701"; q_year := Some "2025x";
              q_origin := Some "BR" |} "2025" "x"
           eq_refl eq_refl ltac:(discriminate) eq_refl eq_refl eq_refl
           ltac:(vm_compute; reflexivity) eq_refl eq_refl eq_refl).
Defined.

(** C10 fails as stated: the year "0x" is read in radix 16 and has no
    digit, so the address holds Year=NaN twice; and the year
    "9007199254740993x" is rounded to 9007199254740992, which adding one
    does not change. *)
Lemma year_prefix_not_in_url :
  In (goto "https://ec.europa.eu/taxation_customs/dds2/taric/quota_consultation.jsp?Lang=en&Code=098701&Origin=BR&Expand=true&Year=NaN&Year=NaN")
     (fst (run (calm [sample_row])
               {| q_orderNumber := Some "098701"; q_year := Some "0x";
                  q_origin := Some "BR" |})) /\
  In (goto "https://ec.europa.eu/taxation_customs/dds2/taric/quota_consultation.jsp?Lang=en&Code=098701&Origin=BR&Expand=true&Year=9007199254740992&Year=9007199254740992")
     (fst (run (calm [sample_row])
               {| q_orderNumber := Some "098701"; q_year := Some "9007199254740993x";
                  q_origin := Some "BR" |})).
Proof. vm_compute. split; auto 10. Qed.

(* ------------------------------------------------------------------ *)
(** ** Mantissas of 53 bits, and rounding half up *)

Lemma shr_1_half mrs : 0 <= shr_m mrs -> shr_m (shr_1 mrs) = shr_m mrs / 2.
Proof.
  destruct mrs as [m r s]. cbn [shr_m]. intros H. unfold shr_1.
  destruct m as [|[p|p|]|p]; cbn [shr_m]; try lia.
  - reflexivity.
  - apply Z.div_unique with 1; lia.
  - apply Z.div_unique with 0; lia.
  - reflexivity.
Qed.

Lemma iter_shr_div p :
  forall mrs, 0 <= shr_m mrs ->
              shr_m (iter_pos shr_1 p mrs) = shr_m mrs / 2 ^ Zpos p.
Proof.
  induction p as [p IH|p IH|]; intros mrs H; cbn [iter_pos].
  - assert (H1 : 0 <= shr_m (shr_1 mrs)).
    { rewrite shr_1_half by exact H. apply Z.div_pos; lia. }
    assert (H2 : 0 <= shr_m (iter_pos shr_1 p (shr_1 mrs))).
    { rewrite IH by exact H1. apply Z.div_pos; [exact H1|]. apply Z.pow_pos_nonneg; lia. }
    rewrite IH, IH, shr_1_half by assumption.
    assert (0 < 2 ^ Zpos p) by (apply Z.pow_pos_nonneg; lia).
    rewrite !Z.div_div by lia. f_equal.
    replace (Zpos p~1) with (Zpos p + Zpos p + 1) by lia.
    rewrite !Z.pow_add_r by lia. change (2 ^ 1) with 2. lia.
  - assert (H2 : 0 <= shr_m (iter_pos shr_1 p mrs)).
    { rewrite IH by exact H. apply Z.div_pos; [exact H|]. apply Z.pow_pos_nonneg; lia. }
    rewrite IH, IH by assumption.
    assert (0 < 2 ^ Zpos p) by (apply Z.pow_pos_nonneg; lia).
    rewrite Z.div_div by lia. f_equal.
    replace (Zpos p~0) with (Zpos p + Zpos p) by lia.
    rewrite Z.pow_add_r by lia. reflexivity.
  - rewrite shr_1_half by exact H. reflexivity.
Qed.

Lemma Zdigits2_bound m : 0 <= m -> m < 2 ^ Zdigits2 m /\ 0 <= Zdigits2 m.
Proof.
  destruct m as [|p|p]; intros H; [simpl; lia| |lia].
  cbn [Zdigits2]. pose proof (digits2_bounds p). lia.
Qed.

Lemma Zdigits2_le m k : 0 <= m < 2 ^ k -> 0 <= k -> Zdigits2 m <= k.
Proof.
  intros [H0 H1] Hk. destruct m as [|p|p]; [simpl; lia| |lia].
  cbn [Zdigits2]. pose proof (digits2_bounds p) as [L _].
  destruct (Z_le_gt_dec (Zpos (digits2_pos p)) k) as [|G]; [assumption|].
  assert (2 ^ k <= 2 ^ (Zpos (digits2_pos p) - 1)) by (apply Z.pow_le_mono_r; lia).
  lia.
Qed.

Lemma shr_record_of_loc_m m l : shr_m (shr_record_of_loc m l) = m.
Proof. destruct l as [|[]]; reflexivity. Qed.

Lemma shr_fexp_fits m e l :
  0 <= m ->
  0 <= shr_m (fst (shr_fexp prec emax m e l)) < 2 ^ 53 /\
  -1074 <= snd (shr_fexp prec emax m e l).
Proof.
  intros H. destruct (Zdigits2_bound m H) as [U D].
  unfold shr_fexp, shr.
  destruct (fexp prec emax (Zdigits2 m + e) - e) as [|p|p] eqn:E; cbn [fst snd].
  - rewrite shr_record_of_loc_m. unfold fexp, emin, prec, emax in E.
    assert (2 ^ Zdigits2 m <= 2 ^ 53) by (apply Z.pow_le_mono_r; lia). lia.
  - rewrite iter_shr_div by (rewrite shr_record_of_loc_m; exact H).
    rewrite shr_record_of_loc_m. unfold fexp, emin, prec, emax in E.
    assert (P : 0 < 2 ^ Zpos p) by (apply Z.pow_pos_nonneg; lia).
    split; [|lia]. split; [apply Z.div_pos; lia|].
    apply Z.div_lt_upper_bound; [lia|].
    destruct (Z_le_gt_dec (Zdigits2 m) (Zpos p + 53)) as [Le|G]; [|lia].
    assert (2 ^ Zdigits2 m <= 2 ^ (Zpos p + 53)) by (apply Z.pow_le_mono_r; lia).
    rewrite Z.pow_add_r in H0 by lia. lia.
  - rewrite shr_record_of_loc_m. unfold fexp, emin, prec, emax in E.
    assert (2 ^ Zdigits2 m <= 2 ^ 53) by (apply Z.pow_le_mono_r; lia). lia.
Qed.

Lemma round_nearest_even_range m l :
  m <= round_nearest_even m l <= m + 1.
Proof.
  unfold round_nearest_even. destruct l as [|[]]; try lia. destruct (Z.even m); lia.
Qed.

Lemma binary_round_aux_fits s m e l :
  0 <= m -> fits (binary_round_aux prec emax s m e l).
Proof.
  intros H. unfold binary_round_aux.
  pose proof (shr_fexp_fits m e l H) as F.
  destruct (shr_fexp prec emax m e l) as [mrs' e']. cbn [fst snd] in F.
  destruct F as [[F0 F1] F2].
  pose proof (round_nearest_even_range (shr_m mrs') (loc_of_shr_record mrs')) as R.
  set (m2 := round_nearest_even (shr_m mrs') (loc_of_shr_record mrs')) in *.
  assert (T : 0 <= shr_m (fst (shr_fexp prec emax m2 e' loc_Exact)) < 2 ^ 53).
  { apply shr_fexp_fits. lia. }
  destruct (shr_fexp prec emax m2 e' loc_Exact) as [mrs'' e'']. cbn [fst] in T.
  destruct (shr_m mrs''); try exact I.
  destruct (e'' <=? emax - prec); [|exact I]. simpl. lia.
Qed.

Lemma binary_round_fits s m e : fits (binary_round prec emax s m e).
Proof.
  unfold binary_round. destruct (shl_align _ _ _) as [mz ez].
  apply binary_round_aux_fits. lia.
Qed.

Lemma dec2float_fits neg s t : fits (dec2float neg s t).
Proof.
  unfold dec2float. destruct s as [|p|p]; try exact I.
  destruct (0 <=? t) eqn:Et; [apply binary_round_fits|].
  apply Z.leb_gt in Et. unfold SFdiv_core_binary.
  set (m' := match _ with Z0 => Zpos p | Zpos _ => Z.shiftl (Zpos p) _ | Zneg _ => 0 end).
  assert (Hm : 0 <= m').
  { unfold m'. clear m'. destruct (0 - 0 - _); try lia.
    apply Z.shiftl_nonneg. apply Pos2Z.is_nonneg. }
  clearbody m'.
  assert (Hd : 0 < 10 ^ (- t)) by (apply Z.pow_pos_nonneg; lia).
  pose proof (Z_div_mod m' (10 ^ (- t)) ltac:(lia)) as D.
  destruct (Z.div_eucl m' (10 ^ (- t))) as [q r].
  apply binary_round_aux_fits. nia.
Qed.

Lemma parseFloat_fits s : fits (parseFloat s).
Proof.
  unfold parseFloat. destruct (take_sign (trimStart s)) as [neg t].
  destruct (startsWith t "Infinity"); [exact I|].
  destruct (span is_digit t) as [ip r1].
  destruct (match r1 with String "." r => span is_digit r | _ => ("", r1) end)
    as [fp r2].
  destruct (ip ++ fp)%string; [exact I|]. apply dec2float_fits.
Qed.

Lemma whole_value_normal s v :
  Zpos v < 2 ^ 53 ->
  whole_value (S754_finite s (normal_mantissa v) (normal_exponent v))
  = Some (cond_Zopp s (Zpos v)).
Proof.
  intros H. destruct (normal_mantissa_value v H) as (Hn & Vn & _).
  unfold whole_value. rewrite Vn.
  assert (Q : 0 < 2 ^ (- normal_exponent v)) by (apply Z.pow_pos_nonneg; lia).
  destruct (0 <=? normal_exponent v) eqn:E.
  - apply Z.leb_le in E. replace (normal_exponent v) with 0 by lia.
    change (- 0) with 0. rewrite Z.pow_0_r. do 2 f_equal. lia.
  - rewrite Z.mod_mul, Z.div_mul by lia. reflexivity.
Qed.

Lemma Math_round_half_up x : fits x -> rounds_half_up x (Math_round x).
Proof.
  destruct x as [s|s| |s m e]; try reflexivity.
  intros F. simpl in F. unfold rounds_half_up, Math_round.
  destruct (0 <=? e) eqn:E.
  - eexists. split; [|reflexivity]. unfold whole_value. rewrite E. reflexivity.
  - apply Z.leb_gt in E.
    set (h := 2 ^ (- e - 1)).
    assert (Hh : 0 < h) by (apply Z.pow_pos_nonneg; lia).
    assert (E2 : 2 ^ (- e) = 2 * h).
    { unfold h. replace (- e) with (Z.succ (- e - 1)) at 1 by lia.
      apply Z.pow_succ_r. lia. }
    rewrite E2.
    set (a := cond_Zopp s (Zpos m)).
    assert (Ha : - 2 ^ 53 < a < 2 ^ 53) by (unfold a; destruct s; simpl; lia).
    pose proof (Z.div_mod (a + h) (2 * h) ltac:(lia)) as D.
    pose proof (Z.mod_pos_bound (a + h) (2 * h) ltac:(lia)) as M.
    set (z := (a + h) / (2 * h)) in *.
    assert (Hz : - 2 ^ 53 < z < 2 ^ 53) by nia.
    exists z. split; [|nia].
    destruct z as [|p|p] eqn:Ez; [reflexivity| |].
    + unfold Z2SF, binary_normalize. rewrite binary_round_small by lia.
      apply (whole_value_normal false). lia.
    + unfold Z2SF, binary_normalize. rewrite binary_round_small by lia.
      apply (whole_value_normal true). lia.
Qed.

(* ------------------------------------------------------------------ *)
(** ** Balance cells of the expected shape *)

(** The greedy run takes all of [pre] when the rest of the pattern
    matches behind it. *)
Lemma matcher_star_class_greedy p k pre s c res :
  all_chars p pre = true -> starts_in p s = false -> k s c = Some res ->
  matcher (Star (Class p)) k (pre ++ s) c = Some res.
Proof.
  intros Hp Hs Hk. cbn [matcher].
  assert (G : (String.length pre <= String.length (pre ++ s))%nat)
    by (rewrite length_append; lia).
  revert G. generalize (String.length (pre ++ s)). intros fuel.
  match goal with
  | |- _ -> ?f fuel _ _ = _ => set (loop := f)
  end.
  revert fuel. induction pre as [|a pre IH]; intros fuel G.
  - cbn [append]. destruct fuel as [|fuel]; [exact Hk|].
    change (loop (S fuel) s c)
      with (match matcher (Class p) (fun s' c' =>
                     if (String.length s' <? String.length s)%nat
                     then loop fuel s' c' else None) s c with
            | Some r => Some r
            | None => k s c
            end).
    destruct s as [|b s]; cbn [matcher]; [exact Hk|].
    simpl in Hs. rewrite Hs. exact Hk.
  - destruct fuel as [|fuel]; [simpl in G; lia|].
    cbn [all_chars] in Hp. apply andb_prop in Hp. destruct Hp as [Ha Hp].
    change (loop (S fuel) (String a pre ++ s) c)
      with (match matcher (Class p) (fun s' c' =>
                     if (String.length s' <? String.length (String a pre ++ s))%nat
                     then loop fuel s' c' else None) (String a pre ++ s) c with
            | Some r => Some r
            | None => k (String a pre ++ s) c
            end).
    cbn [append matcher]. rewrite Ha.
    replace (String.length (pre ++ s) <? String.length (String a (pre ++ s)))%nat
      with true by (symmetry; apply Nat.ltb_lt; simpl; lia).
    rewrite (IH Hp fuel) by (simpl in G; lia). reflexivity.
Qed.

Lemma canon_cons_inv u a w :
  canon u = String a w ->
  exists b u', u = String b u' /\ Canonicalize b = a /\ canon u' = w.
Proof.
  destruct u as [|b u']; simpl; intros H; [discriminate|].
  injection H as H1 H2. eauto.
Qed.

Lemma canon_nil_inv u : canon u = "" -> u = "".
Proof. destruct u; simpl; [reflexivity|discriminate]. Qed.

Ltac split_token H :=
  repeat match type of H with
         | canon ?u = String _ _ =>
           let b := fresh "b" in
           let u' := fresh "u" in
           let E := fresh "E" in
           apply canon_cons_inv in H; destruct H as (b & u' & -> & E & H)
         | canon ?u = EmptyString => apply canon_nil_inv in H; subst u
         end.

Ltac compute_chars :=
  repeat match goal with
         | E : Canonicalize ?b = _ |- context [Canonicalize ?b] => rewrite E
         end;
  repeat match goal with
         | |- context [Canonicalize ?x] =>
           let v := eval vm_compute in (Canonicalize x) in
           change (Canonicalize x) with v
         end;
  repeat match goal with
         | |- context [Ascii.eqb ?x ?y] =>
           let v := eval vm_compute in (Ascii.eqb x y) in
           change (Ascii.eqb x y) with v
         end;
  cbv beta iota.

Lemma is_ws_of_canon b a : Canonicalize b = a -> is_ws a = false -> is_ws b = false.
Proof. intros <-. rewrite is_ws_canon. auto. Qed.

(** The alternation takes exactly a unit token. *)
Lemma matcher_units u rest k c res :
  unit_token u ->
  k rest ((2%nat, u) :: c) = Some res ->
  matcher (Group 2 (Alt (Lit "Kilogram") (Alt (Lit "Tonne") (Alt (Lit "kg") (Lit "TNE")))))
          k (u ++ rest) c = Some res /\ starts_in is_ws (u ++ rest) = false.
Proof.
  unfold unit_token, same_up_to_case.
  intros [H|[H|[H|H]]] Hk; cbn [canon] in H;
    repeat match type of H with
           | context [Canonicalize ?x] =>
             let v := eval vm_compute in (Canonicalize x) in
             change (Canonicalize x) with v in H
           end;
    split_token H;
    (split;
     [ cbn [matcher lit_prefix append]; compute_chars;
       match type of Hk with
       | k rest ((_, ?U) :: _) = _ =>
         match goal with
         | |- context [consumed ?x rest] =>
           change (consumed x rest) with (consumed (U ++ rest) rest);
           rewrite (consumed_app U rest)
         end
       end;
       rewrite Hk; reflexivity
     | cbn [append starts_in]; eapply is_ws_of_canon; [eassumption|reflexivity] ]).
Qed.

Lemma unit_token_starts u rest :
  unit_token u -> starts_in numeric_class (u ++ rest) = false.
Proof.
  unfold unit_token, same_up_to_case.
  intros [H|[H|[H|H]]]; cbn [canon] in H;
    repeat match type of H with
           | context [Canonicalize ?x] =>
             let v := eval vm_compute in (Canonicalize x) in
             change (Canonicalize x) with v in H
           end;
    split_token H; cbn [append starts_in];
    match goal with
    | E : Canonicalize ?b = _ |- numeric_class ?b = _ =>
      rewrite <- numeric_class_canon, E; reflexivity
    end.
Qed.

Lemma balance_match_shape num u rest :
  num <> "" -> all_chars numeric_class num = true -> unit_token u ->
  balance_match (num ++ u ++ rest) = Some (num, u).
Proof.
  intros Hne Hn Hu. destruct num as [|a num]; [congruence|].
  cbn [all_chars] in Hn. apply andb_prop in Hn. destruct Hn as [Ha Hn].
  unfold balance_match.
  assert (M : matcher balance_pattern (fun s' c => Some (s', c))
                      (String a num ++ u ++ rest) []
              = Some (rest, [(2%nat, u); (1%nat, String a num)])).
  { unfold balance_pattern, Plus.
    cbn [matcher append]. rewrite Ha.
    apply matcher_star_class_greedy; [exact Hn|apply unit_token_starts; exact Hu|].
    change (String a (num ++ u ++ rest)) with (String a num ++ (u ++ rest)).
    rewrite consumed_app.
    pose proof (matcher_units u rest (fun s' c => Some (s', c))
                  [(1%nat, String a num)] _ Hu eq_refl) as [MU WS].
    apply (matcher_star_class_greedy is_ws _ "" (u ++ rest)); [reflexivity|exact WS|].
    exact MU. }
  cbn [append] in *. cbn [regex_match]. rewrite M. reflexivity.
Qed.

(* ------------------------------------------------------------------ *)
(** ** Examples, the balance text, and the teardown *)

Lemma Number_mul_fits x y : fits (Number_mul x y).
Proof.
  unfold Number_mul, SFmul.
  destruct x as [s|s| |s m e], y as [s'|s'| |s' m' e']; try exact I.
  apply binary_round_aux_fits. lia.
Qed.

Example balance_examples :
  map (fun t => option_map balanceKg (extract "t" "098701" [quota_row t]))
      ["12 Tonne"; "0.5 TNE"; "1234.4 Kilogram"; "1234.5 Kilogram"; "1 234.5 kg";
       "12 TONNE"; "12 tonne"; "500 Tonne"]
  = map (fun n => Some (Z2SF n)) [12000; 500; 1234; 1235; 1235; 12000; 12000; 500000].
Proof. vm_compute. reflexivity. Qed.

(** C3 fails as stated: the cell "N/A Kilogram" is matched at the blank
    before the unit, so the record has [balanceKg = NaN]; a numeral of 310
    digits gives +Infinity. *)
Lemma balanceKg_not_a_number :
  (exists r,
     extract "t" "098701" [quota_row "N/A Kilogram"] = Some r /\
     balanceKg r = NaN /\ balance r = "NaN Kilogram" /\
     nonneg_whole (balanceKg r) = false) /\
  (exists r,
     extract "t" "098701" [quota_row (huge_numeral ++ " kg")] = Some r /\
     balanceKg r = Infinity false /\ balance r = "Infinity Kilogram" /\
     nonneg_whole (balanceKg r) = false).
Proof.
  split; eexists; (split; [vm_compute; reflexivity|]); repeat split.
Qed.

(** C8. In every extracted record [balance] is the text of [balanceKg]
    followed by " Kilogram", and [unit] is "Kilogram"; when [balanceKg] is
    a whole number below 2^53 the text is its decimal digits. *)
Theorem balance_text_consistent now ordNum rows r :
  extract now ordNum rows = Some r ->
  balance r = Number_toString (balanceKg r) ++ " Kilogram" /\
  unit r = "Kilogram" /\
  forall n, 0 <= n < 2 ^ 53 -> balanceKg r = Z2SF n ->
            balance r = decimal n ++ " Kilogram".
Proof.
  intros H. destruct (balance_fields now ordNum rows r H) as [Hb Hu].
  split; [exact Hb|]. split; [exact Hu|].
  intros n Hn E. rewrite Hb, E, Number_toString_integer by exact Hn. reflexivity.
Qed.

(** The sample row: "500000 Kilogram" beside 500000. *)
Lemma balance_text_consistent_witness :
  exists r,
    extract "t" "098701" [sample_row] = Some r /\
    balance r = "500000 Kilogram" /\ balanceKg r = Z2SF 500000 /\ unit r = "Kilogram".
Proof.
  eexists. split; [vm_compute; reflexivity|].
  destruct (balance_text_consistent "t" "098701" [sample_row] _
              ltac:(vm_compute; reflexivity)) as (_ & Hu & Hn).
  split; [exact (Hn 500000 ltac:(split; [lia|reflexivity]) ltac:(vm_compute; reflexivity))|].
  split; [vm_compute; reflexivity|exact Hu].
Defined.

(** C4 fails on the code: when the first [browser.close()] rejects, and
    when [res.json] throws after the browser was closed, the handler's
    [catch] block calls [browser.close()] a second time. *)
Theorem teardown_repeated_after_late_failure :
  closes (fst (run (close_rejects_once [sample_row]) sample_query)) = 2%nat /\
  closes (fst (run (response_rejects [sample_row]) sample_query)) = 2%nat /\
  existsb is_launch (fst (run (close_rejects_once [sample_row]) sample_query)) = true /\
  existsb is_launch (fst (run (response_rejects [sample_row]) sample_query)) = true.
Proof. vm_compute. repeat split. Qed.

(* ------------------------------------------------------------------ *)
(** ** Tonnes and kilograms *)

(** Rounding [M * 2^e], an integer [v] below 2^53 written with too many
    bits, shifts the zero bits out. *)
Lemma binary_round_aux_exact s M e v :
  Zpos v < 2 ^ 53 -> -1074 <= e <= normal_exponent v ->
  Zpos M = Zpos v * 2 ^ (- e) ->
  binary_round_aux prec emax s (Zpos M) e loc_Exact
  = S754_finite s (normal_mantissa v) (normal_exponent v).
Proof.
  intros Hv He HM.
  destruct (normal_mantissa_value v Hv) as (Hn & Vn & Dn).
  destruct (normal_exponent v - e) as [|d|d] eqn:E; [| |lia].
  - assert (M = normal_mantissa v).
    { assert (Zpos M = Zpos (normal_mantissa v)) by (rewrite HM, Vn; f_equal; f_equal; lia).
      congruence. }
    subst M. replace e with (normal_exponent v) by lia.
    apply binary_round_aux_canonical; [exact Dn|lia].
  - assert (M = Pos.iter xO (normal_mantissa v) d).
    { apply pos_of_value. rewrite HM, Vn, <- Z.mul_assoc, <- Z.pow_add_r by lia.
      f_equal. f_equal. lia. }
    subst M. unfold binary_round_aux, shr_fexp. cbn [Zdigits2].
    rewrite iter_xO_digits. rewrite Pos2Z.inj_add, Dn.
    replace (fexp prec emax (53 + Zpos d + e) - e) with (Zpos d)
      by (unfold fexp, emin, prec, emax; lia).
    cbn [shr shr_record_of_loc]. rewrite iter_shr_exact.
    cbn [shr_m loc_of_shr_record round_nearest_even Zdigits2]. rewrite Dn.
    replace (fexp prec emax (53 + (e + Zpos d)) - (e + Zpos d)) with 0
      by (unfold fexp, emin, prec, emax; lia).
    cbn [shr shr_m].
    replace (e + Zpos d <=? emax - prec) with true
      by (symmetry; apply Z.leb_le; unfold emax, prec; lia).
    f_equal. lia.
Qed.

Lemma normal_exponent_mul a b :
  Zpos (a * b) < 2 ^ 53 ->
  normal_exponent a + normal_exponent b <= normal_exponent (a * b).
Proof.
  intros H. unfold normal_exponent.
  pose proof (digits2_bounds a) as [La Ua].
  pose proof (digits2_bounds b) as [Lb Ub].
  pose proof (digits2_bounds (a * b)) as [Lp Up].
  set (da := Zpos (digits2_pos a)) in *. set (db := Zpos (digits2_pos b)) in *.
  set (dp := Zpos (digits2_pos (a * b))) in *.
  assert (1 <= da) by (unfold da; lia). assert (1 <= db) by (unfold db; lia).
  assert (P : 2 ^ (da - 1) * 2 ^ (db - 1) <= Zpos (a * b)).
  { rewrite Pos2Z.inj_mul. apply Z.mul_le_mono_nonneg; try lia;
      apply Z.pow_nonneg; lia. }
  rewrite <- Z.pow_add_r in P by lia.
  assert (da - 1 + (db - 1) < dp).
  { apply (Z.pow_lt_mono_r_iff 2); lia. }
  lia.
Qed.

(** The product of two whole numbers is exact while it stays below 2^53. *)
Lemma Number_mul_exact a b :
  0 <= a < 2 ^ 53 -> 0 <= b < 2 ^ 53 -> a * b < 2 ^ 53 ->
  Number_mul (Z2SF a) (Z2SF b) = Z2SF (a * b).
Proof.
  intros [Ha A] [Hb B] H.
  destruct a as [|a|a]; [|destruct b as [|b|b]|]; try lia.
  - destruct b as [|b|b]; [reflexivity| |lia].
    rewrite Z2SF_small by exact B. reflexivity.
  - rewrite Z2SF_small by exact A. reflexivity.
  - change (Zpos a * Zpos b) with (Zpos (a * b)) in *.
    rewrite !Z2SF_small by assumption.
    destruct (normal_mantissa_value a A) as (Ea & Va & _).
    destruct (normal_mantissa_value b B) as (Eb & Vb & _).
    assert (Ha' : -52 <= normal_exponent a)
      by (unfold normal_exponent; pose proof (Pos2Z.is_pos (digits2_pos a)); lia).
    assert (Hb' : -52 <= normal_exponent b)
      by (unfold normal_exponent; pose proof (Pos2Z.is_pos (digits2_pos b)); lia).
    pose proof (normal_exponent_mul a b H) as N.
    unfold Number_mul, SFmul. cbn [xorb].
    apply binary_round_aux_exact; [exact H|lia|].
    rewrite Pos2Z.inj_mul, Va, Vb, Pos2Z.inj_mul.
    replace (- (normal_exponent a + normal_exponent b))
      with (- normal_exponent a + - normal_exponent b) by lia.
    rewrite Z.pow_add_r by lia. ring.
Qed.

Lemma digit_not_ws a : is_digit a = true -> is_ws a = false.
Proof. destruct a as [[] [] [] [] [] [] [] []]; intros H; try discriminate H; reflexivity. Qed.

Lemma strip_ws_token ds ws :
  all_chars is_digit ds = true -> all_chars is_ws ws = true ->
  strip_ws (ds ++ ws) = ds.
Proof.
  intros Hd Hw. induction ds as [|a ds IH]; cbn [append strip_ws all_chars] in *.
  - induction ws as [|b ws IHw]; cbn [strip_ws all_chars] in *; [reflexivity|].
    apply andb_prop in Hw. destruct Hw as [H1 H2]. rewrite H1. auto.
  - apply andb_prop in Hd. destruct Hd as [H1 H2].
    rewrite (digit_not_ws a H1), (IH H2). reflexivity.
Qed.

Lemma digit_not_infinity a s :
  is_digit a = true -> startsWith (String a s) "Infinity" = false.
Proof.
  destruct a as [[] [] [] [] [] [] [] []]; intros H; try discriminate H; reflexivity.
Qed.

(** [parseFloat] of a run of digits is the Number for their value. *)
Lemma parseFloat_digits ds :
  ds <> "" -> all_chars is_digit ds = true ->
  parseFloat ds = Z2SF (radix_value 10 digit_val ds 0).
Proof.
  intros Hne Hd. unfold parseFloat.
  destruct ds as [|a ds]; [congruence|].
  pose proof Hd as Hd'. cbn [all_chars] in Hd'. apply andb_prop in Hd'.
  destruct Hd' as [Ha _].
  destruct (digit_first a ds Ha) as [-> ->].
  rewrite (digit_not_infinity a ds Ha).
  pose proof (span_digits (String a ds) "" Hd eq_refl) as S.
  rewrite append_empty_r in S. rewrite S. cbn [append String.length Z.of_nat].
  rewrite append_empty_r. cbn [exponent_part].
  pose proof (radix_value_nonneg (String a ds) 0 Hd ltac:(lia)) as N.
  unfold dec2float.
  destruct (radix_value 10 digit_val (String a ds) 0) as [|p|p]; [reflexivity| |lia].
  cbn [Z.sub Z.opp Z.add Z.leb Z.compare]. change (10 ^ 0) with 1.
  rewrite Z.mul_1_r. reflexivity.
Qed.



Lemma all_chars_append p s t :
  all_chars p (s ++ t) = all_chars p s && all_chars p t.
Proof.
  induction s as [|a s IH]; cbn [append all_chars]; [reflexivity|].
  rewrite IH. apply andb_assoc.
Qed.

Lemma strip_ws_app s t : strip_ws (s ++ t) = strip_ws s ++ strip_ws t.
Proof.
  induction s as [|a s IH]; cbn [append strip_ws]; [reflexivity|].
  destruct (is_ws a); rewrite IH; reflexivity.
Qed.

Lemma strip_ws_digits ds : all_chars is_digit ds = true -> strip_ws ds = ds.
Proof.
  intros H. rewrite <- (append_empty_r ds) at 1. apply strip_ws_token; [exact H|reflexivity].
Qed.

Lemma strip_ws_grouped groups :
  Forall digit_group groups ->
  strip_ws (grouped groups) = group_digits groups /\
  all_chars is_digit (group_digits groups) = true.
Proof.
  induction 1 as [|[ds ws] groups [Hd Hw] _ [IH1 IH2]]; [split; reflexivity|].
  cbn [fst snd] in Hd, Hw. cbn [grouped group_digits]. split.
  - rewrite <- append_assoc, strip_ws_app, strip_ws_token, IH1 by assumption.
    reflexivity.
  - rewrite all_chars_append, Hd, IH2. reflexivity.
Qed.

(** C2. For the first row that the loop does not pass over, with a unit
    token that is "kilogram" or "kg" in lower case, [balanceKg] is
    [Math.round] of the Number that [parseFloat] reads from the numeric
    token without its white space, and that is this Number rounded to a
    whole number, a tie going up. When the token is a run of digits of
    value [n] and white space behind it, [balanceKg] is the Number for
    [n]. White space between the digits is dropped as well: when the token
    is written in groups, each a run of digits and white space behind it,
    [balanceKg] is the Number for the digits of all groups read as one
    numeral; and when it is such groups, a decimal point and such groups
    again, [balanceKg] is the numeral without the white space, rounded to
    a whole number, a tie going up. *)
Theorem kilogram_balance_rounded_half_up now ordNum before cells after m1 m2 :
  forallb (skipped ordNum) before = true ->
  (5 <= List.length cells)%nat ->
  trim (cell cells 0) = ordNum ->
  balance_match (trim (cell cells 4)) = Some (m1, m2) ->
  toLowerCase m2 = "kilogram" \/ toLowerCase m2 = "kg" ->
  exists r,
    extract now ordNum (before ++ cells :: after)%list = Some r /\
    balanceKg r = Math_round (parseFloat (strip_ws m1)) /\
    rounds_half_up (parseFloat (strip_ws m1)) (balanceKg r) /\
    (forall ds ws,
       m1 = ds ++ ws -> ds <> "" ->
       all_chars is_digit ds = true -> all_chars is_ws ws = true ->
       balanceKg r = Z2SF (radix_value 10 digit_val ds 0)) /\
    (forall groups,
       m1 = grouped groups -> Forall digit_group groups ->
       group_digits groups <> "" ->
       balanceKg r = Z2SF (radix_value 10 digit_val (group_digits groups) 0)) /\
    (forall whole fraction,
       m1 = grouped whole ++ "." ++ grouped fraction ->
       Forall digit_group whole -> Forall digit_group fraction ->
       balanceKg r
       = Math_round (parseFloat (group_digits whole ++ "." ++ group_digits fraction)) /\
       rounds_half_up (parseFloat (group_digits whole ++ "." ++ group_digits fraction))
                      (balanceKg r)).
Proof.
  intros Hb Hl Hk Hm Hu.
  destruct (kilogram_balance_rounded now ordNum before cells after m1 m2 Hb Hl Hk Hm Hu)
    as (r & Hr & E).
  exists r. split; [exact Hr|]. split; [exact E|].
  split; [rewrite E; apply Math_round_half_up, parseFloat_fits|].
  split; [|split].
  - intros ds ws -> Hne Hd Hw. rewrite E.
    rewrite strip_ws_token, parseFloat_digits by assumption.
    apply Math_round_Z2SF.
  - intros groups -> Hg Hne. rewrite E.
    destruct (strip_ws_grouped groups Hg) as [-> Hd].
    rewrite parseFloat_digits by assumption. apply Math_round_Z2SF.
  - intros whole fraction -> Hw Hf. rewrite E.
    destruct (strip_ws_grouped whole Hw) as [Ew _].
    destruct (strip_ws_grouped fraction Hf) as [Ef _].
    rewrite !strip_ws_app, Ew, Ef. change (strip_ws ".") with ".".
    split; [reflexivity|]. apply Math_round_half_up, parseFloat_fits.
Qed.

(** The cell "1 234.5 Kilogram" gives 1235, and "12 345 kg" gives 12345. *)
Lemma kilogram_balance_rounded_half_up_witness :
  (exists r,
     extract "t" "098701" [quota_row "1 234.5 Kilogram"] = Some r /\
     balanceKg r = Z2SF 1235) /\
  (exists r,
     extract "t" "098701" [quota_row "12 345 kg"] = Some r /\
     balanceKg r = Z2SF 12345).
Proof.
  split.
  - destruct (kilogram_balance_rounded_half_up "t" "098701" []
                (quota_row "1 234.5 Kilogram") [] "1 234.5 " "Kilogram"
                eq_refl ltac:(simpl; lia) eq_refl eq_refl (or_introl eq_refl))
      as (r & Hr & _ & _ & _ & _ & Hf).
    exists r. split; [exact Hr|].
    destruct (Hf [("1", " "); ("234", "")] [("5", " ")] eq_refl
                ltac:(repeat constructor) ltac:(repeat constructor)) as [-> _].
    vm_compute. reflexivity.
  - destruct (kilogram_balance_rounded_half_up "t" "098701" []
                (quota_row "12 345 kg") [] "12 345 " "kg"
                eq_refl ltac:(simpl; lia) eq_refl eq_refl (or_intror eq_refl))
      as (r & Hr & _ & _ & _ & Hg & _).
    exists r. split; [exact Hr|].
    rewrite (Hg [("12", " "); ("345", " ")] eq_refl
                ltac:(repeat constructor) ltac:(discriminate)).
    vm_compute. reflexivity.
Defined.

(* ------------------------------------------------------------------ *)
(** ** Balances that are not a number *)

Lemma binary_round_aux_number s m e l :
  0 <= m -> binary_round_aux prec emax s m e l <> NaN.
Proof.
  intros H. unfold binary_round_aux.
  pose proof (shr_fexp_fits m e l H) as F.
  destruct (shr_fexp prec emax m e l) as [mrs' e']. cbn [fst snd] in F.
  destruct F as [[F0 F1] F2].
  pose proof (round_nearest_even_range (shr_m mrs') (loc_of_shr_record mrs')) as R.
  set (m2 := round_nearest_even (shr_m mrs') (loc_of_shr_record mrs')) in *.
  assert (T : 0 <= shr_m (fst (shr_fexp prec emax m2 e' loc_Exact)) < 2 ^ 53).
  { apply shr_fexp_fits. lia. }
  destruct (shr_fexp prec emax m2 e' loc_Exact) as [mrs'' e'']. cbn [fst] in T.
  destruct (shr_m mrs''); try discriminate; [|lia].
  destruct (e'' <=? emax - prec); discriminate.
Qed.

Lemma binary_round_number s m e : binary_round prec emax s m e <> NaN.
Proof.
  unfold binary_round. destruct (shl_align _ _ _) as [mz ez].
  apply binary_round_aux_number. lia.
Qed.

Lemma Math_round_nan x : Math_round x = NaN <-> x = NaN.
Proof.
  destruct x as [s|s| |s m e]; unfold Math_round, NaN; try (split; congruence).
  destruct (0 <=? e); [split; congruence|].
  destruct ((cond_Zopp s (Zpos m) + 2 ^ (- e - 1)) / 2 ^ (- e)) as [|p|p];
    split; try discriminate; intros H; exfalso; revert H;
    apply binary_round_number.
Qed.

Lemma Number_mul_nan x : Number_mul x (Z2SF 1000) = NaN <-> x = NaN.
Proof.
  unfold Number_mul. change (Z2SF 1000) with (S754_finite false 8796093022208000 (-43)).
  destruct x as [s|s| |s m e]; unfold SFmul, NaN; try (split; congruence).
  split; [|discriminate]. intros H. exfalso. revert H.
  apply binary_round_aux_number. lia.
Qed.

Lemma binary_round_aux_exponent_max s m e l :
  match binary_round_aux prec emax s m e l with
  | S754_finite _ _ e' => e' <= 971
  | _ => True
  end.
Proof.
  unfold binary_round_aux.
  destruct (shr_fexp prec emax m e l) as [mrs' e'].
  match goal with
  | |- context [shr_fexp prec emax ?a e' loc_Exact] =>
    destruct (shr_fexp prec emax a e' loc_Exact) as [mrs'' e'']
  end.
  destruct (shr_m mrs''); try exact I.
  destruct (e'' <=? emax - prec) eqn:E; [|exact I].
  apply Z.leb_le in E. exact E.
Qed.

Lemma dec2float_exponent_max neg s t :
  match dec2float neg s t with
  | S754_finite _ _ e => e <= 971
  | _ => True
  end.
Proof.
  unfold dec2float. destruct s as [|p|p]; try exact I.
  destruct (0 <=? t).
  - unfold binary_round. destruct (shl_align _ _ _) as [mz ez].
    apply binary_round_aux_exponent_max.
  - destruct (SFdiv_core_binary _ _ _ _ _ _) as [[q e] l].
    apply binary_round_aux_exponent_max.
Qed.

Lemma parseFloat_exponent_max s :
  match parseFloat s with
  | S754_finite _ _ e => e <= 971
  | _ => True
  end.
Proof.
  unfold parseFloat. destruct (take_sign (trimStart s)) as [neg t].
  destruct (startsWith t "Infinity"); [exact I|].
  destruct (span is_digit t) as [ip r1].
  destruct (match r1 with String "." r => span is_digit r | _ => ("", r1) end)
    as [fp r2].
  destruct (ip ++ fp)%string; [exact I|]. apply dec2float_exponent_max.
Qed.

Lemma shr_1_round mrs : 0 <= shr_m mrs -> shr_r (shr_1 mrs) = Z.odd (shr_m mrs).
Proof.
  destruct mrs as [m r s]. cbn [shr_m]. intros H. unfold shr_1.
  destruct m as [|[p|p|]|p]; cbn [shr_r]; try lia; reflexivity.
Qed.

Lemma iter_shr_round p :
  forall mrs, 0 <= shr_m mrs ->
              shr_r (iter_pos shr_1 p mrs) = Z.odd (shr_m mrs / 2 ^ (Zpos p - 1)).
Proof.
  induction p as [p IH|p IH|]; intros mrs H; cbn [iter_pos].
  - assert (H1 : 0 <= shr_m (shr_1 mrs)).
    { rewrite shr_1_half by exact H. apply Z.div_pos; lia. }
    assert (H2 : 0 <= shr_m (iter_pos shr_1 p (shr_1 mrs))).
    { rewrite iter_shr_div by exact H1. apply Z.div_pos; [exact H1|].
      apply Z.pow_pos_nonneg; lia. }
    rewrite IH by exact H2. rewrite iter_shr_div, shr_1_half by assumption.
    assert (0 < 2 ^ Zpos p) by (apply Z.pow_pos_nonneg; lia).
    assert (0 < 2 ^ (Zpos p - 1)) by (apply Z.pow_pos_nonneg; lia).
    rewrite !Z.div_div by lia. f_equal. f_equal.
    replace (Zpos p~1 - 1) with (1 + Zpos p + (Zpos p - 1)) by lia.
    rewrite !Z.pow_add_r by lia. change (2 ^ 1) with 2. lia.
  - assert (H2 : 0 <= shr_m (iter_pos shr_1 p mrs)).
    { rewrite iter_shr_div by exact H. apply Z.div_pos; [exact H|].
      apply Z.pow_pos_nonneg; lia. }
    rewrite IH by exact H2. rewrite iter_shr_div by assumption.
    assert (0 < 2 ^ Zpos p) by (apply Z.pow_pos_nonneg; lia).
    assert (0 < 2 ^ (Zpos p - 1)) by (apply Z.pow_pos_nonneg; lia).
    rewrite !Z.div_div by lia. f_equal. f_equal.
    replace (Zpos p~0 - 1) with (Zpos p + (Zpos p - 1)) by lia.
    rewrite !Z.pow_add_r by lia. reflexivity.
  - rewrite shr_1_round by exact H. change (2 ^ (1 - 1)) with 1.
    rewrite Z.div_1_r. reflexivity.
Qed.

Lemma Zdigits2_unique m n : 2 ^ (n - 1) <= m < 2 ^ n -> 0 < n -> Zdigits2 m = n.
Proof.
  intros [L U] Hn.
  assert (0 < 2 ^ (n - 1)) by (apply Z.pow_pos_nonneg; lia).
  destruct m as [|p|p]; try lia. cbn [Zdigits2].
  pose proof (digits2_bounds p) as [L' U'].
  destruct (Z.lt_trichotomy (Zpos (digits2_pos p)) n) as [G|[G|G]]; [|exact G|].
  - assert (2 ^ Zpos (digits2_pos p) <= 2 ^ (n - 1)) by (apply Z.pow_le_mono_r; lia). lia.
  - assert (2 ^ n <= 2 ^ (Zpos (digits2_pos p) - 1)) by (apply Z.pow_le_mono_r; lia). lia.
Qed.

Lemma shr_fexp_snd m e l :
  snd (shr_fexp prec emax m e l) = Z.max e (fexp prec emax (Zdigits2 m + e)).
Proof.
  unfold shr_fexp, shr.
  destruct (fexp prec emax (Zdigits2 m + e) - e) eqn:E; cbn [snd]; lia.
Qed.

(** A product below [2^1023] with an exponent in range does not
    overflow. *)
Lemma binary_round_aux_finite s s' m e :
  0 < m -> Zdigits2 m + e <= 1023 -> e <= 971 ->
  binary_round_aux prec emax s m e loc_Exact <> S754_infinity s'.
Proof.
  intros Hm Hd He. unfold binary_round_aux.
  pose proof (shr_fexp_fits m e loc_Exact ltac:(lia)) as F.
  pose proof (shr_fexp_snd m e loc_Exact) as S1.
  destruct (shr_fexp prec emax m e loc_Exact) as [mrs' e'] eqn:E1.
  cbn [fst snd] in F, S1. destruct F as [[F0 F1] F2].
  pose proof (round_nearest_even_range (shr_m mrs') (loc_of_shr_record mrs')) as R.
  set (m2 := round_nearest_even (shr_m mrs') (loc_of_shr_record mrs')) in *.
  pose proof (shr_fexp_snd m2 e' loc_Exact) as S2.
  destruct (shr_fexp prec emax m2 e' loc_Exact) as [mrs'' e'']. cbn [snd] in S2.
  destruct (shr_m mrs''); try discriminate.
  replace (e'' <=? emax - prec) with true; [discriminate|].
  symmetry. apply Z.leb_le. unfold emax, prec.
  assert (D2 : Zdigits2 m2 + e' <= 1024).
  { unfold shr_fexp, shr in E1.
    destruct (fexp prec emax (Zdigits2 m + e) - e) as [|k|k] eqn:Ek.
    - injection E1 as <- <-. unfold m2. cbn. lia.
    - assert (Zdigits2 m2 <= 54) by (apply Zdigits2_le; lia).
      clearbody m2. unfold fexp, emin, prec, emax in S1, Ek. lia.
    - injection E1 as <- <-. unfold m2. cbn. lia. }
  clearbody m2. unfold fexp, emin, prec, emax in S1, S2. lia.
Qed.

Lemma threshold_arith N c rest :
  2 ^ 53 <= N < 2 ^ 54 -> 0 <= c -> 0 <= rest < 2 ^ c ->
  overflow_threshold <= N * 2 ^ c + rest <-> 971 <= c \/ (c = 970 /\ N = 2 ^ 54 - 1).
Proof.
  intros HN Hc Hr. unfold overflow_threshold.
  change (2 ^ 1024 - 2 ^ 970) with ((2 ^ 54 - 1) * 2 ^ 970).
  destruct (Z_le_gt_dec 971 c) as [G|G]; [|destruct (Z.eq_dec c 970) as [->|N0]].
  - assert (P : 2 ^ 971 <= 2 ^ c) by (apply Z.pow_le_mono_r; lia).
    split; [auto|]. intros _.
    assert (2 ^ 53 * 2 ^ 971 <= N * 2 ^ c) by (apply Z.mul_le_mono_nonneg; lia).
    change (2 ^ 971) with (2 * 2 ^ 970) in *. lia.
  - split.
    + intros Hle. right. split; [reflexivity|]. nia.
    + intros [Hle|[_ ->]]; [lia|]. lia.
  - assert (P : 2 ^ c <= 2 ^ 969) by (apply Z.pow_le_mono_r; lia).
    assert (0 < 2 ^ c) by (apply Z.pow_pos_nonneg; lia).
    split; [|lia]. intros Hle. exfalso.
    assert (N * 2 ^ c <= (2 ^ 54 - 1) * 2 ^ 969) by (apply Z.mul_le_mono_nonneg; lia).
    change (2 ^ 970) with (2 * 2 ^ 969) in Hle. lia.
Qed.

Lemma round_of_record q r st :
  round_nearest_even q (loc_of_shr_record (Build_shr_record q r st))
  = if r then (if st then q + 1 else if Z.even q then q else q + 1) else q.
Proof. destruct r, st; reflexivity. Qed.

(** Rounding [m * 2^e] for a mantissa of more than 53 bits gives
    +Infinity exactly from the threshold on. *)
Lemma binary_round_aux_overflow s m e :
  2 ^ 53 <= m -> 0 <= e ->
  binary_round_aux prec emax s m e loc_Exact = S754_infinity s
  <-> overflow_threshold <= m * 2 ^ e.
Proof.
  intros Hm He. destruct m as [|p|p]; try lia.
  pose proof (digits2_bounds p) as [L U].
  set (d := Zpos (digits2_pos p)) in *.
  assert (Hd : 54 <= d).
  { destruct (Z_le_gt_dec 54 d) as [|G]; [assumption|].
    assert (2 ^ d <= 2 ^ 53) by (apply Z.pow_le_mono_r; lia). lia. }
  destruct (d - 53) as [|k|k] eqn:Ek; try lia.
  set (a := 2 ^ (Zpos k - 1)).
  assert (Ha : 0 < a) by (apply Z.pow_pos_nonneg; lia).
  assert (E1 : 2 ^ (d - 1) = 2 ^ 53 * a).
  { unfold a. rewrite <- Z.pow_add_r by lia. f_equal. lia. }
  assert (E2 : 2 ^ d = 2 ^ 54 * a).
  { unfold a. rewrite <- Z.pow_add_r by lia. f_equal. lia. }
  assert (E3 : 2 ^ Zpos k = 2 * a).
  { unfold a. replace (Zpos k) with (1 + (Zpos k - 1)) at 1 by lia.
    rewrite Z.pow_add_r by lia. reflexivity. }
  set (c := e + (Zpos k - 1)).
  assert (E4 : a * 2 ^ e = 2 ^ c).
  { unfold a, c. rewrite <- Z.pow_add_r by lia. f_equal. lia. }
  assert (Hb : 0 < 2 ^ e) by (apply Z.pow_pos_nonneg; lia).
  pose proof (Z.div_mod (Zpos p) a ltac:(lia)) as DM.
  pose proof (Z.mod_pos_bound (Zpos p) a Ha) as MB.
  set (N := Zpos p / a) in *. set (rem := Zpos p mod a) in *.
  assert (HN : 2 ^ 53 <= N < 2 ^ 54) by nia.
  assert (T : overflow_threshold <= Zpos p * 2 ^ e
              <-> 971 <= c \/ (c = 970 /\ N = 2 ^ 54 - 1)).
  { replace (Zpos p * 2 ^ e) with (N * 2 ^ c + rem * 2 ^ e) by (rewrite <- E4; nia).
    apply threshold_arith; [exact HN|unfold c; lia|]. rewrite <- E4. nia. }
  rewrite T. clear T.
  unfold binary_round_aux, shr_fexp. cbn [Zdigits2]. fold d.
  replace (fexp prec emax (d + e) - e) with (Zpos k)
    by (unfold fexp, emin, prec, emax; lia).
  cbn [shr shr_record_of_loc].
  pose proof (iter_shr_div k (Build_shr_record (Zpos p) false false) ltac:(cbn; lia)) as Hq.
  pose proof (iter_shr_round k (Build_shr_record (Zpos p) false false) ltac:(cbn; lia)) as Hr.
  cbn [shr_m] in Hq, Hr. fold a in Hr. fold N in Hr.
  rewrite E3, (Z.mul_comm 2 a), <- Z.div_div in Hq by lia. fold N in Hq.
  destruct (iter_pos shr_1 k (Build_shr_record (Zpos p) false false)) as [q r st].
  cbn [shr_m shr_r] in Hq, Hr. rewrite round_of_record.
  pose proof (Z.div_mod N 2 ltac:(lia)) as DN.
  pose proof (Z.mod_pos_bound N 2 ltac:(lia)) as MN.
  rewrite <- Hq in DN.
  assert (Hodd : r = true <-> N mod 2 = 1).
  { rewrite Hr. pose proof (Zmod_odd N) as O.
    destruct (Z.odd N); split; intros G; try reflexivity; try discriminate; lia. }
  set (e' := e + Zpos k).
  destruct (Z.eq_dec N (2 ^ 54 - 1)) as [EN|EN].
  - assert (Eq : q = 2 ^ 53 - 1) by lia.
    assert (Er : r = true) by (apply Hodd; lia).
    rewrite Er, Eq.
    replace (if st then 2 ^ 53 - 1 + 1 else if Z.even (2 ^ 53 - 1) then 2 ^ 53 - 1 else 2 ^ 53 - 1 + 1)
      with (2 ^ 53) by (destruct st; reflexivity).
    change (Zdigits2 (2 ^ 53)) with 54.
    replace (fexp prec emax (54 + e') - e') with 1
      by (unfold fexp, emin, prec, emax, e'; lia).
    change (shr (Build_shr_record (2 ^ 53) false false) e' 1)
      with (Build_shr_record (2 ^ 52) false false, e' + 1).
    cbn [shr_m]. change (emax - prec) with 971. change (2 ^ 52) with (Zpos 4503599627370496).
    cbv iota.
    destruct (e' + 1 <=? 971) eqn:Ee.
    + apply Z.leb_le in Ee. split; [discriminate|]. unfold e', c in *. lia.
    + apply Z.leb_gt in Ee. split; [|reflexivity]. intros _. unfold e', c in *. lia.
  - set (m2 := if r then if st then q + 1 else if Z.even q then q else q + 1 else q).
    assert (Hm2 : 2 ^ 52 <= m2 < 2 ^ 53).
    { unfold m2. destruct r.
      - assert (N mod 2 = 1) by (apply Hodd; reflexivity).
        destruct st; [lia|]. destruct (Z.even q); lia.
      - lia. }
    clearbody m2.
    rewrite (Zdigits2_unique m2 53) by (change (53 - 1) with 52; lia).
    replace (fexp prec emax (53 + e') - e') with 0
      by (unfold fexp, emin, prec, emax, e'; lia).
    cbn [shr shr_record_of_loc shr_m].
    destruct m2 as [|m2|m2]; try lia.
    change (emax - prec) with 971.
    destruct (e' <=? 971) eqn:Ee.
    + apply Z.leb_le in Ee. split; [discriminate|]. unfold e', c in *. lia.
    + apply Z.leb_gt in Ee. split; [|reflexivity]. intros _. unfold e', c in *. lia.
Qed.

Lemma Z2SF_infinity n :
  0 <= n -> Z2SF n = Infinity false <-> overflow_threshold <= n.
Proof.
  intros Hn. destruct n as [|p|p]; try lia.
  - split; [discriminate|]. unfold overflow_threshold. lia.
  - destruct (Z_lt_le_dec (Zpos p) (2 ^ 53)) as [Hs|Hl].
    + rewrite Z2SF_small by exact Hs. split; [discriminate|].
      unfold overflow_threshold. lia.
    + unfold Z2SF, binary_normalize, binary_round.
      pose proof (digits2_bounds p) as [_ U].
      assert (D : 53 < Zpos (digits2_pos p)).
      { destruct (Z_lt_le_dec 53 (Zpos (digits2_pos p))) as [|G]; [assumption|].
        assert (2 ^ Zpos (digits2_pos p) <= 2 ^ 53) by (apply Z.pow_le_mono_r; lia).
        lia. }
      assert (F : fexp prec emax (Zpos (digits2_pos p) + 0) = Zpos (digits2_pos p) - 53)
        by (unfold fexp, emin, prec, emax; lia).
      rewrite F. unfold shl_align.
      destruct (Zpos (digits2_pos p) - 53 - 0) eqn:E; try lia.
      rewrite (binary_round_aux_overflow false (Zpos p) 0 Hl ltac:(lia)).
      rewrite Z.pow_0_r, Z.mul_1_r. reflexivity.
Qed.

Lemma Number_mul_infinity m e :
  Zpos m < 2 ^ 53 -> e <= 971 ->
  Number_mul (S754_finite false m e) (Z2SF 1000) = Infinity false
  <-> overflow_threshold <= Zpos m * 1000 * 2 ^ e.
Proof.
  intros Hm He. unfold Number_mul.
  change (Z2SF 1000) with (S754_finite false 8796093022208000 (-43)).
  cbn [SFmul xorb]. rewrite Pos2Z.inj_mul.
  assert (T0 : 2 ^ 106 * 2 ^ 10 < overflow_threshold) by (unfold overflow_threshold; lia).
  destruct (Z_lt_le_dec e 43) as [Hs|Hl].
  - split.
    + intros H. exfalso. revert H. apply binary_round_aux_finite; [lia| |lia].
      assert (Zdigits2 (Zpos m * 8796093022208000) <= 106); [|lia].
      apply Zdigits2_le; [|lia].
      change (2 ^ 106) with (2 ^ 53 * 2 ^ 53). nia.
    + intros H. exfalso.
      destruct (Z_lt_le_dec e 0) as [Hneg|Hpos].
      * rewrite (Z.pow_neg_r 2 e Hneg) in H. lia.
      * assert (2 ^ e <= 2 ^ 43) by (apply Z.pow_le_mono_r; lia).
        assert (0 < 2 ^ e) by (apply Z.pow_pos_nonneg; lia).
        assert (Zpos m * 1000 * 2 ^ e <= 2 ^ 53 * 1000 * 2 ^ 43)
          by (apply Z.mul_le_mono_nonneg; lia).
        lia.
  - destruct (Z_lt_le_dec (Zpos m) 2) as [H1|H2].
    + assert (m = 1%positive) by lia. subst m.
      split.
      * intros H. exfalso. revert H.
        apply binary_round_aux_finite; [lia| |lia].
        change (Zdigits2 (1 * 8796093022208000)) with 53. lia.
      * intros H. exfalso.
        assert (2 ^ e <= 2 ^ 971) by (apply Z.pow_le_mono_r; lia).
        unfold overflow_threshold in H. lia.
    + rewrite binary_round_aux_overflow by lia.
      replace (Zpos m * 8796093022208000 * 2 ^ (e + -43)) with (Zpos m * 1000 * 2 ^ e);
        [reflexivity|].
      replace e with (43 + (e - 43)) at 1 by lia.
      rewrite Z.pow_add_r by lia. replace (e + -43) with (e - 43) by lia.
      change (2 ^ 43) with 8796093022208. lia.
Qed.

Lemma Math_round_infinity x s :
  fits x -> Math_round x = Infinity s <-> x = Infinity s.
Proof.
  intros F. pose proof (Math_round_half_up x F) as H.
  destruct x as [b|b| |b m e]; try (split; intros G; exact G).
  cbn [rounds_half_up] in H. destruct H as (z & Hz & _).
  split; [|discriminate]. intros G. rewrite G in Hz. discriminate.
Qed.

Lemma extract_first_unskipped now ordNum rows r :
  extract now ordNum rows = Some r ->
  exists before cells after,
    rows = (before ++ cells :: after)%list /\
    forallb (skipped ordNum) before = true /\
    skipped ordNum cells = false /\
    read_row now ordNum cells = Some r.
Proof.
  induction rows as [|cells rows IH]; intros H; [discriminate|].
  destruct (skipped ordNum cells) eqn:E.
  - rewrite extract_skip in H by exact E.
    destruct (IH H) as (before & c & after & -> & Hb & Hc & Hr).
    exists (cells :: before), c, after. cbn [forallb app]. rewrite E. auto.
  - rewrite extract_take in H by exact E.
    exists [], cells, rows. auto.
Qed.

Lemma normalize_infinity x u :
  sign_clear x -> fits x ->
  match x with S754_finite _ _ e => e <= 971 | _ => True end ->
  Math_round (normalize x u) = Infinity false <->
  match x with
  | S754_infinity _ => True
  | S754_finite _ m e => isTonne u = true /\ overflow_threshold <= Zpos m * 1000 * 2 ^ e
  | _ => False
  end.
Proof.
  intros S F B. unfold normalize. destruct (isTonne u).
  - rewrite Math_round_idempotent, Math_round_infinity by apply Number_mul_fits.
    destruct x as [b|b| |b m e]; cbn [sign_clear fits] in *; subst.
    + split; [discriminate|tauto].
    + split; [tauto|reflexivity].
    + split; [discriminate|tauto].
    + rewrite Number_mul_infinity by assumption. tauto.
  - rewrite Math_round_infinity by exact F.
    destruct x as [b|b| |b m e]; cbn [sign_clear] in *; subst.
    + split; [discriminate|tauto].
    + split; [tauto|reflexivity].
    + split; [discriminate|tauto].
    + split; [discriminate|]. intros [G _]. discriminate.
Qed.

(** C3, amended. The [balanceKg] of every extracted record is NaN,
    +Infinity, or a whole number without sign: it is never negative and
    never fractional. The record is made from the first row that the loop
    does not pass over, and with the numeric token [m1] and the unit token
    [m2] that the pattern finds in the balance cell of that row:
    [balanceKg] is NaN exactly when [parseFloat] reads no number from the
    token without its white space; it is +Infinity exactly when
    [parseFloat] reads +Infinity, or reads a finite Number [m * 2^e] and
    the unit is a tonne unit and [m * 2^e * 1000] reaches the overflow
    threshold [2^1024 - 2^970]; and for a token whose digits, without the
    white space, are a numeral of value [n], [parseFloat] reads +Infinity
    exactly when [n] reaches that threshold. (For a negative [e] the
    product is small and [2 ^ e] is 0.) *)
Theorem balanceKg_whole_or_not_finite now ordNum rows r :
  extract now ordNum rows = Some r ->
  (balanceKg r = NaN \/ balanceKg r = Infinity false \/
   nonneg_whole (balanceKg r) = true) /\
  exists before cells after m1 m2,
    rows = (before ++ cells :: after)%list /\
    forallb (skipped ordNum) before = true /\
    skipped ordNum cells = false /\
    read_row now ordNum cells = Some r /\
    balance_match (trim (cell cells 4)) = Some (m1, m2) /\
    (balanceKg r = NaN <-> parseFloat (strip_ws m1) = NaN) /\
    (balanceKg r = Infinity false <->
     match parseFloat (strip_ws m1) with
     | S754_infinity _ => True
     | S754_finite _ m e =>
       isTonne (toLowerCase m2) = true /\ overflow_threshold <= Zpos m * 1000 * 2 ^ e
     | _ => False
     end) /\
    (forall ds,
       strip_ws m1 = ds -> ds <> "" -> all_chars is_digit ds = true ->
       parseFloat (strip_ws m1) = Infinity false
       <-> overflow_threshold <= radix_value 10 digit_val ds 0).
Proof.
  intros H.
  destruct (extract_first_unskipped _ _ _ _ H) as (before & cells & after & E & Hb & Hs & Hr).
  destruct (read_row_some _ _ _ _ Hr) as (m1 & m2 & Hm & Er).
  pose proof Hm as Hm'. apply balance_match_some in Hm'. destruct Hm' as (Hn & _ & _).
  pose proof (parseFloat_token_sign m1 Hn) as S.
  assert (B : balanceKg r = Math_round (normalize (parseFloat (strip_ws m1)) (toLowerCase m2)))
    by (rewrite Er; reflexivity).
  rewrite B. split.
  - apply Math_round_whole.
    unfold normalize. destruct (isTonne (toLowerCase m2)); [|exact S].
    apply Math_round_sign, Number_mul_sign, S.
  - exists before, cells, after, m1, m2.
    repeat (split; [assumption|]). split; [|split].
    + rewrite Math_round_nan. unfold normalize.
      destruct (isTonne (toLowerCase m2)); [|reflexivity].
      rewrite Math_round_nan. apply Number_mul_nan.
    + apply normalize_infinity;
        [exact S|apply parseFloat_fits|apply parseFloat_exponent_max].
    + intros ds Hds Hne Hd. rewrite Hds, parseFloat_digits by assumption.
      apply Z2SF_infinity, radix_value_nonneg; [exact Hd|lia].
Qed.

(** The sample row gives a whole number. *)
Lemma balanceKg_whole_or_not_finite_witness :
  exists r,
    extract "t" "098701" [sample_row] = Some r /\ nonneg_whole (balanceKg r) = true.
Proof.
  eexists. split; [vm_compute; reflexivity|].
  destruct (proj1 (balanceKg_whole_or_not_finite "t" "098701" [sample_row] _
                     ltac:(vm_compute; reflexivity))) as [E|[E|E]];
    [vm_compute in E; discriminate E | vm_compute in E; discriminate E | exact E].
Defined.

(** A numeral of 307 digits is a finite Number, but not its product with
    1000. *)
Example tonne_product_overflows :
  option_map balanceKg
    (extract "t" "098701" [quota_row (("1" ++ zeros 306) ++ " Tonne")])
  = Some (Infinity false) /\
  option_map (fun r => nonneg_whole (balanceKg r))
    (extract "t" "098701" [quota_row (("1" ++ zeros 306) ++ " Kilogram")])
  = Some true.
Proof. split; vm_compute; reflexivity. Qed.

(** The threshold itself is read as +Infinity and the numeral below it as
    the largest finite Number; a tonne value of a thousandth of the
    threshold overflows in the product. *)
Example overflow_threshold_is_sharp :
  parseFloat (decimal overflow_threshold) = Infinity false /\
  parseFloat (decimal (overflow_threshold - 1)) = S754_finite false (2 ^ 53 - 1) 971 /\
  option_map balanceKg
    (extract "t" "098701" [quota_row (decimal (overflow_threshold / 1000) ++ " Tonne")])
  = Some (Infinity false).
Proof. vm_compute. repeat split; reflexivity. Qed.

(* ------------------------------------------------------------------ *)
(** ** The handler: every path through the request *)

Ltac unfold_handler :=
  unfold run, quota_handler, page_evaluate, try_catch, bind, perform, set_browser,
    get_browser, now, ret, initial; cbn [calls browser app fst snd].

Ltac next_call :=
  match goal with
  | |- context [throws ?env ?h ?c] =>
    let E := fresh "E" in
    destruct (throws env h c) eqn:E; cbn [calls browser app fst snd]
  end.

Lemma complete_guard q :
  complete q = true ->
  falsy (q_orderNumber q) || falsy (q_year q) || falsy (q_origin q) = false.
Proof. unfold complete. intros H. apply negb_true_iff in H. exact H. Qed.

(** A navigation that times out: one close. *)
Lemma closed_once_unless_teardown_fails_witness :
  closes (fst (run (navigation_times_out [sample_row]) sample_query)) = 1%nat.
Proof.
  exact (closed_once_unless_teardown_fails (navigation_times_out [sample_row]) sample_query
           eq_refl (fun _ => eq_refl) (fun _ _ _ => eq_refl)).
Defined.

(** X2. For a query with all three parameters and a launch that succeeds,
    the handler calls [browser.close()] at least once and at most twice,
    whatever the later calls do: a launched browser is never left without a
    close. *)
Theorem session_closed_once_or_twice env q :
  complete q = true -> throws env [] launch = None ->
  (1 <= closes (fst (run env q)) <= 2)%nat.
Proof.
  intros Hq Hl. unfold run, quota_handler. rewrite (complete_guard q Hq).
  unfold_handler. rewrite Hl. cbn [calls browser app fst snd].
  repeat next_call; try (destruct (extract _ _ _); cbn [calls browser app fst snd]);
    repeat next_call; simpl; lia.
Qed.

(** A first close that rejects. *)
Lemma session_closed_once_or_twice_witness :
  (1 <= closes (fst (run (close_rejects_once [sample_row]) sample_query)) <= 2)%nat.
Proof.
  exact (session_closed_once_or_twice (close_rejects_once [sample_row]) sample_query
           eq_refl eq_refl).
Defined.

(** X3. When neither [browser.close()] nor the response ever throws, the
    handler sends exactly one response for every query and every behaviour
    of the other calls, its status is 200, 400, 404 or 500, and the handler
    ends without an exception. *)
Theorem one_response_per_request env q :
  (forall h, throws env h close = None) ->
  (forall h status body, throws env h (send status body) = None) ->
  exists status body,
    responses (fst (run env q)) = [(status, body)] /\
    snd (run env q) = inr tt /\
    (status = 200 \/ status = 400 \/ status = 404 \/ status = 500).
Proof.
  intros Hc Hs. unfold_handler.
  destruct (falsy (q_orderNumber q) || falsy (q_year q) || falsy (q_origin q)).
  - unfold_handler. rewrite Hs. simpl. eauto 10.
  - unfold_handler.
    repeat (first [ rewrite Hc | rewrite Hs | next_call ];
            cbn [calls browser app fst snd]);
      try (destruct (extract _ _ _); cbn [calls browser app fst snd]);
      repeat (first [ rewrite Hc | rewrite Hs | next_call ];
              cbn [calls browser app fst snd]);
      unfold responses; simpl; eauto 10.
Qed.

(** A navigation that times out. *)
Lemma one_response_per_request_witness :
  exists status body,
    responses (fst (run (navigation_times_out [sample_row]) sample_query)) = [(status, body)] /\
    snd (run (navigation_times_out [sample_row]) sample_query) = inr tt /\
    (status = 200 \/ status = 400 \/ status = 404 \/ status = 500).
Proof.
  exact (one_response_per_request (navigation_times_out [sample_row]) sample_query
           (fun _ => eq_refl) (fun _ _ _ => eq_refl)).
Defined.

(** X4. When the first [n] calls of launch, newPage, setUserAgent, goto,
    evaluate succeed and the next one throws [message], and neither close
    nor the response throws, the handler stops there: its calls are those
    [n + 1] calls, one close unless the launch was the call that failed,
    and the 500 response "Scraping failed" with that message and the query
    parameters. *)
Theorem failure_reported_as_500 env q n message :
  complete q = true ->
  (forall h, throws env h close = None) ->
  (forall h status body, throws env h (send status body) = None) ->
  fails_at env q n message ->
  run env q =
    ((firstn (S n) (steps q) ++ (if Nat.eqb n 0 then [] else [close]) ++
      [send 500 (scraping_failed q message)])%list, inr tt).
Proof.
  intros Hq Hc Hs (Hn & Hok & Hf).
  unfold run, quota_handler. rewrite (complete_guard q Hq).
  unfold steps, quota_address in *.
  destruct n as [|[|[|[|[|n]]]]]; [ .. | lia ];
    cbn [firstn nth] in Hok, Hf |- *; unfold_handler;
    repeat (first [ rewrite Hf | rewrite Hc | rewrite Hs
                  | match goal with
                    | |- context [throws ?env ?h ?c] =>
                      let E := fresh "E" in
                      assert (E : throws env h c = None)
                        by (first [ exact (Hok 0%nat ltac:(lia)) | exact (Hok 1%nat ltac:(lia))
                                  | exact (Hok 2%nat ltac:(lia)) | exact (Hok 3%nat ltac:(lia)) ]);
                      rewrite E; clear E
                    end ];
            cbn [calls browser app fst snd]);
    reflexivity.
Qed.

Lemma navigation_fails_at rows q :
  fails_at (navigation_times_out rows) q 3 "Navigation timeout of 30000 ms exceeded".
Proof.
  split; [lia|]. split; [|reflexivity].
  intros i Hi. do 3 (destruct i as [|i]; [reflexivity|]). lia.
Qed.

(** A navigation that times out: four calls, the close, the 500. *)
Lemma failure_reported_as_500_witness :
  run (navigation_times_out [sample_row]) sample_query =
    ((firstn 4 (steps sample_query) ++ [close] ++
      [send 500 (scraping_failed sample_query "Navigation timeout of 30000 ms exceeded")])%list,
     inr tt).
Proof.
  exact (failure_reported_as_500 (navigation_times_out [sample_row]) sample_query 3 _
           eq_refl (fun _ => eq_refl) (fun _ _ _ => eq_refl)
           (navigation_fails_at [sample_row] sample_query)).
Defined.

(** X5. When a call behind the launch throws and the [browser.close()] of
    the [catch] block throws as well, no response is sent: the calls end
    with that close and the handler ends with its exception. *)
Theorem no_response_when_cleanup_fails env q n message message' :
  complete q = true ->
  fails_at env q n message ->
  (0 < n)%nat ->
  throws env (firstn (S n) (steps q)) close = Some message' ->
  run env q = ((firstn (S n) (steps q) ++ [close])%list, inl message').
Proof.
  intros Hq (Hn & Hok & Hf) Hpos Hc.
  unfold run, quota_handler. rewrite (complete_guard q Hq).
  unfold steps, quota_address in *.
  destruct n as [|[|[|[|[|n]]]]]; [ lia | .. | lia ];
    cbn [firstn nth] in Hok, Hf, Hc |- *; unfold_handler;
    repeat (first [ rewrite Hf | rewrite Hc
                  | match goal with
                    | |- context [throws ?env ?h ?c] =>
                      let E := fresh "E" in
                      assert (E : throws env h c = None)
                        by (first [ exact (Hok 0%nat ltac:(lia)) | exact (Hok 1%nat ltac:(lia))
                                  | exact (Hok 2%nat ltac:(lia)) | exact (Hok 3%nat ltac:(lia)) ]);
                      rewrite E; clear E
                    end ];
            cbn [calls browser app fst snd]);
    reflexivity.
Qed.

Lemma navigation_and_close_fail_at rows q :
  fails_at (times_out_and_stays_open rows) q 3 "Navigation timeout of 30000 ms exceeded".
Proof.
  split; [lia|]. split; [|reflexivity].
  intros i Hi. do 3 (destruct i as [|i]; [reflexivity|]). lia.
Qed.

(** A navigation that times out and a browser that cannot be closed. *)
Lemma no_response_when_cleanup_fails_witness :
  run (times_out_and_stays_open [sample_row]) sample_query =
    ((firstn 4 (steps sample_query) ++ [close])%list, inl "Protocol error: Target closed").
Proof.
  exact (no_response_when_cleanup_fails (times_out_and_stays_open [sample_row]) sample_query 3 _ _
           eq_refl (navigation_and_close_fail_at [sample_row] sample_query)
           ltac:(lia) eq_refl).
Defined.

(** X6. When no call throws and the extraction on the loaded page gives a
    record, the calls of the handler are launch, newPage, setUserAgent,
    goto, evaluate, close and the 200 response with [success: true], that
    record as [data] and the time read after the close as [timestamp]; the
    record's [scrapedAt] is the time read in the page, before the close. *)
Theorem record_sent_when_found env q r :
  complete q = true ->
  (forall h c, throws env h c = None) ->
  extract (clock env (steps q)) (param_text (q_orderNumber q)) (page_rows env) = Some r ->
  run env q =
    ((steps q ++ [close; send 200 (success_body r (clock env (steps q ++ [close])%list))])%list,
     inr tt) /\
  scrapedAt r = clock env (steps q).
Proof.
  intros Hq Ht Hx. split.
  - unfold run, quota_handler. rewrite (complete_guard q Hq).
    unfold steps, quota_address in *. unfold_handler.
    repeat (rewrite Ht; cbn [calls browser app fst snd]).
    rewrite Hx. cbn [calls browser app fst snd]. rewrite Ht. reflexivity.
  - destruct (extract_some _ _ _ _ Hx) as (cells & _ & _ & Hr).
    unfold read_row in Hr.
    destruct (balance_match _) as [[num u]|]; [|discriminate].
    injection Hr as <-. reflexivity.
Qed.

(** The sample query on a page with the sample row. *)
Lemma record_sent_when_found_witness :
  exists r,
    extract (clock (calm [sample_row]) (steps sample_query)) "098701" [sample_row] = Some r /\
    run (calm [sample_row]) sample_query =
      ((steps sample_query ++
        [close; send 200 (success_body r "2025-06-01T00:00:00.000Z")])%list, inr tt) /\
    scrapedAt r = "2025-06-01T00:00:00.000Z".
Proof.
  eexists. split; [vm_compute; reflexivity|].
  exact (record_sent_when_found (calm [sample_row]) sample_query _
           eq_refl (fun _ _ => eq_refl) eq_refl).
Defined.

(** X7. Whenever the handler navigates, all three parameters were given,
    launch, newPage and setUserAgent succeeded and are its first three
    calls in this order, the address is the one built from the query, and
    it navigates only once. *)
Theorem navigation_only_after_setup env q url :
  In (goto url) (fst (run env q)) ->
  complete q = true /\
  url = quota_address q /\
  throws env [] launch = None /\
  throws env [launch] newPage = None /\
  throws env [launch; newPage] (setUserAgent user_agent) = None /\
  exists rest,
    fst (run env q) =
      ([launch; newPage; setUserAgent user_agent; goto (quota_address q)] ++ rest)%list /\
    ~ In (goto url) rest.
Proof.
  unfold complete, quota_address. unfold_handler.
  destruct (falsy (q_orderNumber q) || falsy (q_year q) || falsy (q_origin q)).
  - unfold_handler. destruct (throws env [] _); simpl; intros [H|[]]; discriminate.
  - unfold_handler.
    repeat next_call; try (destruct (extract _ _ _); cbn [calls browser app fst snd]);
      repeat next_call; simpl; intros H;
      repeat (destruct H as [H|H]; [try discriminate|]); try contradiction;
      injection H as <-;
      (repeat split; try reflexivity; try assumption;
       eexists; split; [reflexivity|]; simpl; intros G;
       repeat (destruct G as [G|G]; [discriminate|]); contradiction).
Qed.

(** The sample query where no call throws. *)
Lemma navigation_only_after_setup_witness :
  complete sample_query = true /\
  quota_address sample_query = quota_address sample_query /\
  throws (calm [sample_row]) [] launch = None /\
  throws (calm [sample_row]) [launch] newPage = None /\
  throws (calm [sample_row]) [launch; newPage] (setUserAgent user_agent) = None /\
  exists rest,
    fst (run (calm [sample_row]) sample_query) =
      ([launch; newPage; setUserAgent user_agent; goto (quota_address sample_query)] ++ rest)%list /\
    ~ In (goto (quota_address sample_query)) rest.
Proof.
  apply (navigation_only_after_setup (calm [sample_row]) sample_query).
  vm_compute. tauto.
Defined.

Lemma parseInt_no_numeral y :
  starts_with_digit (snd (take_sign (trimStart y))) = false -> parseInt y = NaN.
Proof.
  unfold parseInt. destruct (take_sign (trimStart y)) as [neg str]. cbn [snd].
  intros H.
  assert (X : strip_hex_prefix str = None).
  { destruct str as [|c str]; [reflexivity|].
    cbn [starts_with_digit] in H.
    unfold strip_hex_prefix.
    destruct (Ascii.eqb c "0") eqn:E.
    - apply Ascii.eqb_eq in E. subst c. discriminate.
    - destruct c as [[] [] [] [] [] [] [] []]; try reflexivity; discriminate. }
  rewrite X.
  destruct str as [|c str]; [reflexivity|].
  cbn [starts_with_digit] in H. cbn [span]. rewrite H. reflexivity.
Qed.

(** X8. A year that is not empty but does not begin, behind white space
    and a sign, with a digit is not rejected: when the browser is launched,
    the page opened and the user agent set without error, the handler
    navigates to the address with Year=NaN twice. *)
Theorem year_without_number_not_rejected env q y :
  complete q = true ->
  q_year q = Some y ->
  starts_with_digit (snd (take_sign (trimStart y))) = false ->
  throws env [] launch = None ->
  throws env [launch] newPage = None ->
  throws env [launch; newPage] (setUserAgent user_agent) = None ->
  In (goto ("https://ec.europa.eu/taxation_customs/dds2/taric/quota_consultation.jsp?Lang=en&Code="
            ++ param_text (q_orderNumber q) ++ "&Origin=" ++ param_text (q_origin q)
            ++ "&Expand=true&Year=NaN&Year=NaN"))
     (fst (run env q)).
Proof.
  intros Hq Hy Hd H1 H2 H3.
  pose proof (handler_goto env q Hq H1 H2 H3) as G.
  rewrite Hy in G. cbn [param_text] in G.
  rewrite (parseInt_no_numeral y Hd) in G.
  exact G.
Qed.

(** The year "next". *)
Lemma year_without_number_not_rejected_witness :
  In (goto "https://ec.europa.eu/taxation_customs/dds2/taric/quota_consultation.jsp?Lang=en&Code=098701&Origin=BR&Expand=true&Year=NaN&Year=NaN")
     (fst (run (calm [sample_row])
               {| q_orderNumber := Some "098701"; q_year := Some "next"; q_origin := Some "BR" |})).
Proof.
  exact (year_without_number_not_rejected (calm [sample_row])
           {| q_orderNumber := Some "098701"; q_year := Some "next"; q_origin := Some "BR" |}
           "next" eq_refl eq_refl eq_refl eq_refl eq_refl eq_refl).
Defined.

(* ------------------------------------------------------------------ *)
(** ** The extractor: rows, cells and the balance text *)

Lemma read_row_of_unskipped now ordNum cells :
  skipped ordNum cells = false -> exists r, read_row now ordNum cells = Some r.
Proof.
  unfold skipped, read_row. intros H.
  apply orb_false_iff in H. destruct H as [_ H].
  destruct (balance_match _) as [[m1 m2]|]; [eauto|discriminate].
Qed.

Lemma extract_pass_over now ordNum before cells after :
  skipped ordNum cells = true ->
  extract now ordNum (before ++ cells :: after)%list
  = extract now ordNum (before ++ after)%list.
Proof.
  intros H. induction before as [|c before IH].
  - apply extract_skip, H.
  - cbn [app extract]. rewrite IH. reflexivity.
Qed.

Lemma extract_row_same now ordNum before cells cells' after :
  (List.length cells <? 5)%nat = (List.length cells' <? 5)%nat ->
  trim (cell cells 0) = trim (cell cells' 0) ->
  read_row now ordNum cells = read_row now ordNum cells' ->
  extract now ordNum (before ++ cells :: after)%list
  = extract now ordNum (before ++ cells' :: after)%list.
Proof.
  intros H1 H2 H3. induction before as [|c before IH].
  - cbn [app extract]. rewrite H1, H2, H3. reflexivity.
  - cbn [app extract]. rewrite IH. reflexivity.
Qed.

(** X9. The extraction gives [null] exactly when every row is passed over:
    each has fewer than five cells, another order number in its first
    cell, or a balance cell that the pattern does not match. *)
Theorem not_found_iff_every_row_skipped now ordNum rows :
  extract now ordNum rows = None <-> forallb (skipped ordNum) rows = true.
Proof.
  split; [|apply extract_none].
  induction rows as [|cells rows IH]; intros H; [reflexivity|].
  cbn [forallb]. destruct (skipped ordNum cells) eqn:E.
  - rewrite extract_skip in H by exact E. exact (IH H).
  - rewrite extract_take in H by exact E.
    destruct (read_row_of_unskipped now ordNum cells E) as [r Hr]. congruence.
Qed.

(** X10. The extraction gives a record exactly when some row is not passed
    over, and the record is the one made from the first such row: the rows
    behind it have no influence. *)
Theorem found_iff_first_unskipped_row now ordNum rows r :
  extract now ordNum rows = Some r <->
  exists before cells after,
    rows = (before ++ cells :: after)%list /\
    forallb (skipped ordNum) before = true /\
    skipped ordNum cells = false /\
    read_row now ordNum cells = Some r.
Proof.
  split.
  - induction rows as [|cells rows IH]; intros H; [discriminate|].
    destruct (skipped ordNum cells) eqn:E.
    + rewrite extract_skip in H by exact E.
      destruct (IH H) as (before & c & after & -> & Hb & Hc & Hr).
      exists (cells :: before), c, after. cbn [forallb app]. rewrite E. auto.
    + rewrite extract_take in H by exact E.
      exists [], cells, rows. auto.
  - intros (before & cells & after & -> & Hb & Hc & Hr).
    rewrite extract_skip_all by exact Hb. rewrite extract_take by exact Hc. exact Hr.
Qed.

(** X11. In every extracted record [orderNumber] is the queried order
    number, [unit] is "Kilogram", [scrapedAt] is the time read, and there
    is a row with at least five cells whose trimmed first cell is the order
    number and whose trimmed second, third and fourth cells are [origin],
    [startDate] and [endDate]; [moreInfoUrl] is the detail address of that
    start date and the order number. *)
Theorem record_fields_from_row now ordNum rows r :
  extract now ordNum rows = Some r ->
  orderNumber r = ordNum /\ unit r = "Kilogram" /\ scrapedAt r = now /\
  exists cells,
    In cells rows /\ (5 <= List.length cells)%nat /\
    trim (cell cells 0) = ordNum /\
    origin r = trim (cell cells 1) /\
    startDate r = trim (cell cells 2) /\
    endDate r = trim (cell cells 3) /\
    moreInfoUrl r = detail_url (trim (cell cells 2)) ordNum.
Proof.
  intros H. destruct (extract_some _ _ _ _ H) as (cells & Hin & Hs & Hr).
  destruct (read_row_some _ _ _ _ Hr) as (m1 & m2 & _ & ->). cbn.
  repeat split. exists cells. unfold skipped in Hs.
  apply orb_false_iff in Hs. destruct Hs as [Hs _].
  apply orb_false_iff in Hs. destruct Hs as [Hl Hk].
  apply Nat.ltb_ge in Hl. apply negb_false_iff, String.eqb_eq in Hk.
  repeat split; assumption.
Qed.

(** The table with a heading row and a row of another quota. *)
Lemma record_fields_from_row_witness :
  exists r,
    extract "2025-06-01T00:00:00.000Z" "098701" quota_table = Some r /\
    orderNumber r = "098701" /\ unit r = "Kilogram" /\
    scrapedAt r = "2025-06-01T00:00:00.000Z" /\
    exists cells,
      In cells quota_table /\ (5 <= List.length cells)%nat /\
      trim (cell cells 0) = "098701" /\
      origin r = trim (cell cells 1) /\
      startDate r = trim (cell cells 2) /\
      endDate r = trim (cell cells 3) /\
      moreInfoUrl r = detail_url (trim (cell cells 2)) "098701".
Proof.
  eexists. split; [vm_compute; reflexivity|].
  apply (record_fields_from_row "2025-06-01T00:00:00.000Z" "098701" quota_table).
  vm_compute. reflexivity.
Defined.

(** X12. A row with fewer than five cells, or whose trimmed first cell is
    not the order number, never contributes, wherever it stands and
    whatever its balance cell holds: the result is that of the document
    without it. *)
Theorem short_or_foreign_row_ignored now ordNum before cells after :
  (List.length cells < 5)%nat \/ trim (cell cells 0) <> ordNum ->
  extract now ordNum (before ++ cells :: after)%list
  = extract now ordNum (before ++ after)%list.
Proof.
  intros H. apply extract_pass_over. unfold skipped.
  destruct H as [H|H].
  - apply Nat.ltb_lt in H. rewrite H. reflexivity.
  - apply String.eqb_neq in H. rewrite H. cbn [negb]. apply orb_true_iff. left.
    apply orb_true_r.
Qed.

(** A row of quota 098702 in front of the sample row. *)
Lemma short_or_foreign_row_ignored_witness :
  extract "2025-06-01T00:00:00.000Z" "098701"
          ([["Order number"; "Balance"]] ++ ["098702"; "Brazil"; "01-01-2025"; "31-12-2025"; "7 Tonne"]
           :: [sample_row])%list
  = extract "2025-06-01T00:00:00.000Z" "098701"
            ([["Order number"; "Balance"]] ++ [sample_row])%list.
Proof.
  apply (short_or_foreign_row_ignored "2025-06-01T00:00:00.000Z" "098701").
  right. discriminate.
Defined.

(** X13. Only the first five cells of a row are read: cells behind the
    fifth never change the result. *)
Theorem cells_beyond_fifth_ignored now ordNum before c0 c1 c2 c3 c4 more after :
  extract now ordNum (before ++ (c0 :: c1 :: c2 :: c3 :: c4 :: more) :: after)%list
  = extract now ordNum (before ++ [c0; c1; c2; c3; c4] :: after)%list.
Proof. apply extract_row_same; reflexivity. Qed.

Lemma trimStart_ws l s : all_chars is_ws l = true -> trimStart (l ++ s) = trimStart s.
Proof.
  induction l as [|c l IH]; cbn [append all_chars trimStart]; intros H; [reflexivity|].
  apply andb_prop in H. destruct H as [H1 H2]. rewrite H1. auto.
Qed.

Lemma trimEnd_all_ws r : all_chars is_ws r = true -> trimEnd r = "".
Proof.
  induction r as [|c r IH]; cbn [all_chars trimEnd]; intros H; [reflexivity|].
  apply andb_prop in H. destruct H as [H1 H2]. rewrite (IH H2), H1. reflexivity.
Qed.

Lemma trimEnd_ws s r : all_chars is_ws r = true -> trimEnd (s ++ r) = trimEnd s.
Proof.
  intros H. induction s as [|c s IH]; cbn [append trimEnd].
  - apply trimEnd_all_ws, H.
  - rewrite IH. reflexivity.
Qed.

Lemma trim_app_ws s r : all_chars is_ws r = true -> trim (s ++ r) = trim s.
Proof.
  intros H. unfold trim. induction s as [|c s IH]; cbn [append trimStart].
  - rewrite <- (append_empty_r r), trimStart_ws by exact H. reflexivity.
  - destruct (is_ws c); [exact IH|].
    change (String c (s ++ r)) with (String c s ++ r). apply trimEnd_ws, H.
Qed.

Lemma trim_padded a b : padded a b -> trim b = trim a.
Proof.
  intros (l & r & Hl & Hr & ->).
  unfold trim at 1. rewrite trimStart_ws by exact Hl. apply trim_app_ws, Hr.
Qed.

Lemma trim_cell_padded cells cells' i :
  Forall2 padded cells cells' -> trim (cell cells' i) = trim (cell cells i).
Proof.
  intros H. revert i. unfold cell.
  induction H as [|a b cells cells' Hab H IH]; intros i.
  - destruct i; reflexivity.
  - destruct i as [|i]; cbn [nth]; [apply trim_padded, Hab|apply IH].
Qed.

(** X14. White space in front of and behind the text of the cells of a row
    never changes the result. *)
Theorem cell_padding_ignored now ordNum before cells cells' after :
  Forall2 padded cells cells' ->
  extract now ordNum (before ++ cells' :: after)%list
  = extract now ordNum (before ++ cells :: after)%list.
Proof.
  intros H. apply extract_row_same.
  - rewrite (Forall2_length H). reflexivity.
  - apply trim_cell_padded, H.
  - unfold read_row. rewrite !(trim_cell_padded cells cells' _ H). reflexivity.
Qed.

Lemma padded_by l r a :
  all_chars is_ws l = true -> all_chars is_ws r = true -> padded a (l ++ a ++ r).
Proof. intros Hl Hr. exists l, r. auto. Qed.

(** The sample row with blanks around three of its cells. *)
Lemma cell_padding_ignored_witness :
  extract "2025-06-01T00:00:00.000Z" "098701"
          [[" 098701"; "Brazil  "; "01-01-2025"; "31-12-2025"; "  500 Tonne "]]
  = extract "2025-06-01T00:00:00.000Z" "098701" [sample_row].
Proof.
  apply (cell_padding_ignored "2025-06-01T00:00:00.000Z" "098701" [] sample_row
           [" 098701"; "Brazil  "; "01-01-2025"; "31-12-2025"; "  500 Tonne "] []).
  repeat constructor.
  - exact (padded_by " " "" "098701" eq_refl eq_refl).
  - exact (padded_by "" "  " "Brazil" eq_refl eq_refl).
  - exact (padded_by "" "" "01-01-2025" eq_refl eq_refl).
  - exact (padded_by "" "" "31-12-2025" eq_refl eq_refl).
  - exact (padded_by "  " " " "500 Tonne" eq_refl eq_refl).
Defined.

Lemma regex_match_skip a s :
  numeric_class a = false ->
  regex_match balance_pattern (String a s) = regex_match balance_pattern s.
Proof.
  intros H.
  change (regex_match balance_pattern (String a s))
    with (match matcher balance_pattern (fun s' c => Some (s', c)) (String a s) [] with
          | Some (_, c) => Some c
          | None => regex_match balance_pattern s
          end).
  unfold balance_pattern at 1, Plus. cbn [matcher]. rewrite H. reflexivity.
Qed.

Lemma balance_match_skip_prefix pre t :
  all_chars not_numeric pre = true -> balance_match (pre ++ t) = balance_match t.
Proof.
  intros H. unfold balance_match.
  replace (regex_match balance_pattern (pre ++ t)) with (regex_match balance_pattern t);
    [reflexivity|].
  induction pre as [|a pre IH]; cbn [append all_chars] in *; [reflexivity|].
  apply andb_prop in H. destruct H as [H1 H2].
  rewrite regex_match_skip by (apply negb_true_iff, H1). auto.
Qed.

(** X15. The first row with the order number and five cells whose trimmed
    balance cell is: any text without digits, white space and dots; a
    non-empty numeric token of digits, white space and dots; a unit
    Kilogram, Tonne, kg or TNE in any case; any text, is accepted, and
    [balanceKg] is made from that token and that unit: the text in front
    of the number and behind the unit is ignored. *)
Theorem well_formed_balance_accepted now ordNum before cells after pre num u rest :
  forallb (skipped ordNum) before = true ->
  (5 <= List.length cells)%nat ->
  trim (cell cells 0) = ordNum ->
  trim (cell cells 4) = pre ++ num ++ u ++ rest ->
  all_chars not_numeric pre = true ->
  num <> "" -> all_chars numeric_class num = true ->
  unit_token u ->
  exists r,
    extract now ordNum (before ++ cells :: after)%list = Some r /\
    balanceKg r = Math_round (normalize (parseFloat (strip_ws num)) (toLowerCase u)).
Proof.
  intros Hb Hl Hk Hc Hp Hne Hn Hu.
  rewrite (extract_first now ordNum before cells after Hb Hl Hk).
  unfold read_row.
  rewrite Hc, balance_match_skip_prefix, (balance_match_shape num u rest Hne Hn Hu)
    by exact Hp.
  eexists. split; reflexivity.
Qed.

(** The cell " Balance: 1 234 567 Kilogram (open) " gives 1234567. *)
Lemma well_formed_balance_accepted_witness :
  exists r,
    extract "2025-06-01T00:00:00.000Z" "098701" quota_table = Some r /\
    balanceKg r = Z2SF 1234567.
Proof.
  destruct (well_formed_balance_accepted "2025-06-01T00:00:00.000Z" "098701"
              (firstn 2 quota_table) (nth 2 quota_table []) (skipn 3 quota_table)
              "Balance:" " 1 234 567 " "Kilogram" " (open)"
              eq_refl ltac:(simpl; lia) eq_refl eq_refl eq_refl
              ltac:(discriminate) eq_refl
              (or_introl (eq_refl : canon "Kilogram" = canon "Kilogram")))
    as (r & H1 & H2).
  exists r. split; [exact H1|]. rewrite H2. vm_compute. reflexivity.
Defined.

Lemma digits_numeric ds : all_chars is_digit ds = true -> all_chars numeric_class ds = true.
Proof.
  induction ds as [|a ds IH]; cbn [all_chars]; intros H; [reflexivity|].
  apply andb_prop in H. destruct H as [H1 H2].
  unfold numeric_class at 1. rewrite H1, (IH H2). reflexivity.
Qed.

(** X16. White space inside the numeric token is dropped before the number
    is read: when the token without its white space is a run of digits of
    value [n], with [1000 * n] below 2^53, then [balanceKg] is [1000 * n]
    for a tonne unit and [n] otherwise, and [balance] is its decimal
    digits followed by " Kilogram". *)
Theorem grouped_digits_read_as_one_number now ordNum before cells after num u rest ds :
  forallb (skipped ordNum) before = true ->
  (5 <= List.length cells)%nat ->
  trim (cell cells 0) = ordNum ->
  trim (cell cells 4) = num ++ u ++ rest ->
  all_chars numeric_class num = true ->
  strip_ws num = ds -> ds <> "" -> all_chars is_digit ds = true ->
  unit_token u ->
  radix_value 10 digit_val ds 0 * 1000 < 2 ^ 53 ->
  exists r,
    extract now ordNum (before ++ cells :: after)%list = Some r /\
    balanceKg r = Z2SF (if isTonne (toLowerCase u)
                        then radix_value 10 digit_val ds 0 * 1000
                        else radix_value 10 digit_val ds 0) /\
    balance r = decimal (if isTonne (toLowerCase u)
                         then radix_value 10 digit_val ds 0 * 1000
                         else radix_value 10 digit_val ds 0) ++ " Kilogram".
Proof.
  intros Hb Hl Hk Hc Hn Hs Hne Hd Hu Hv.
  assert (Hnum : num <> "") by (intros ->; apply Hne; symmetry; exact Hs).
  rewrite (extract_first now ordNum before cells after Hb Hl Hk).
  unfold read_row.
  rewrite Hc, (balance_match_shape num u rest Hnum Hn Hu).
  pose proof (radix_value_nonneg ds 0 Hd ltac:(lia)) as N.
  assert (E : Math_round (normalize (parseFloat (strip_ws num)) (toLowerCase u))
              = Z2SF (if isTonne (toLowerCase u)
                      then radix_value 10 digit_val ds 0 * 1000
                      else radix_value 10 digit_val ds 0)).
  { rewrite Hs, parseFloat_digits by assumption. unfold normalize.
    destruct (isTonne (toLowerCase u)).
    - rewrite Number_mul_exact; [rewrite !Math_round_Z2SF; reflexivity| |split; [lia|reflexivity]|exact Hv].
      lia.
    - apply Math_round_Z2SF. }
  eexists. split; [reflexivity|]. cbn [balanceKg balance]. rewrite E.
  split; [reflexivity|].
  rewrite Number_toString_integer; [reflexivity|].
  destruct (isTonne (toLowerCase u)); lia.
Qed.

(** The cell "1 234 567 kg net" gives 1234567 and "1234567 Kilogram". *)
Lemma grouped_digits_read_as_one_number_witness :
  exists r,
    extract "2025-06-01T00:00:00.000Z" "098701"
            [["098701"; "Brazil"; "01-01-2025"; "31-12-2025"; "1 234 567 kg net"]] = Some r /\
    balanceKg r = Z2SF 1234567 /\
    balance r = "1234567 Kilogram".
Proof.
  exact (grouped_digits_read_as_one_number "2025-06-01T00:00:00.000Z" "098701" []
           ["098701"; "Brazil"; "01-01-2025"; "31-12-2025"; "1 234 567 kg net"] []
           "1 234 567 " "kg" " net" "1234567"
           eq_refl ltac:(simpl; lia) eq_refl eq_refl eq_refl eq_refl
           ltac:(discriminate) eq_refl
           (or_intror (or_intror (or_introl (eq_refl : canon "kg" = canon "kg"))))
           ltac:(vm_compute; reflexivity)).
Defined.

Lemma numeral_head a rest :
  all_chars is_digit a = true ->
  take_sign (trimStart (a ++ String "." rest)) = (false, a ++ String "." rest) /\
  startsWith (a ++ String "." rest) "Infinity" = false.
Proof.
  intros H. destruct a as [|c a]; [split; reflexivity|].
  cbn [all_chars] in H. apply andb_prop in H. destruct H as [H _].
  cbn [append]. destruct (digit_first c (a ++ String "." rest) H) as [-> ->].
  split; [reflexivity|apply digit_not_infinity, H].
Qed.

Lemma parseFloat_second_point a b x :
  all_chars is_digit a = true -> all_chars is_digit b = true ->
  parseFloat (a ++ "." ++ b ++ "." ++ x) = parseFloat (a ++ "." ++ b).
Proof.
  intros Ha Hb. unfold parseFloat.
  change (a ++ "." ++ b ++ "." ++ x) with (a ++ String "." (b ++ String "." x)).
  change (a ++ "." ++ b) with (a ++ String "." b).
  destruct (numeral_head a (b ++ String "." x) Ha) as [-> ->].
  destruct (numeral_head a b Ha) as [-> ->].
  rewrite !(span_digits a) by (exact Ha || reflexivity).
  rewrite (span_digits b (String "." x) Hb eq_refl).
  pose proof (span_digits b "" Hb eq_refl) as S. rewrite append_empty_r in S. rewrite S.
  reflexivity.
Qed.

(** X17. The pattern accepts a numeric token with several dots, but
    [parseFloat] stops at the second one: for a token of digits [a], a dot,
    digits [b], a dot and anything of the class behind, [balanceKg] is
    made from the number [a.b] alone. *)
Theorem second_decimal_point_ends_number now ordNum before cells after a b c u rest :
  forallb (skipped ordNum) before = true ->
  (5 <= List.length cells)%nat ->
  trim (cell cells 0) = ordNum ->
  trim (cell cells 4) = (a ++ "." ++ b ++ "." ++ c) ++ u ++ rest ->
  all_chars is_digit a = true -> all_chars is_digit b = true ->
  all_chars numeric_class c = true ->
  unit_token u ->
  exists r,
    extract now ordNum (before ++ cells :: after)%list = Some r /\
    balanceKg r = Math_round (normalize (parseFloat (a ++ "." ++ b)) (toLowerCase u)).
Proof.
  intros Hb Hl Hk Hc Ha Hd Hn Hu.
  assert (Hnum : all_chars numeric_class (a ++ "." ++ b ++ "." ++ c) = true).
  { rewrite !all_chars_append, (digits_numeric a Ha), (digits_numeric b Hd), Hn. reflexivity. }
  assert (Hne : a ++ "." ++ b ++ "." ++ c <> "") by (destruct a; discriminate).
  rewrite (extract_first now ordNum before cells after Hb Hl Hk).
  unfold read_row.
  rewrite Hc, (balance_match_shape _ u rest Hne Hnum Hu).
  eexists. split; [reflexivity|]. cbn [balanceKg].
  rewrite !strip_ws_app, (strip_ws_digits a Ha), (strip_ws_digits b Hd).
  change (strip_ws ".") with ".".
  rewrite parseFloat_second_point by assumption. reflexivity.
Qed.

(** The cell "1.234.567 Kilogram" gives 1. *)
Lemma second_decimal_point_ends_number_witness :
  exists r,
    extract "2025-06-01T00:00:00.000Z" "098701"
            [["098701"; "Brazil"; "01-01-2025"; "31-12-2025"; "1.234.567 Kilogram"]] = Some r /\
    balanceKg r = Z2SF 1.
Proof.
  destruct (second_decimal_point_ends_number "2025-06-01T00:00:00.000Z" "098701" []
              ["098701"; "Brazil"; "01-01-2025"; "31-12-2025"; "1.234.567 Kilogram"] []
              "1" "234" "567 " "Kilogram" ""
              eq_refl ltac:(simpl; lia) eq_refl eq_refl eq_refl eq_refl eq_refl
              (or_introl (eq_refl : canon "Kilogram" = canon "Kilogram")))
    as (r & H1 & H2).
  exists r. split; [exact H1|]. rewrite H2. vm_compute. reflexivity.
Defined.

Lemma split_not_nil sep s : split sep s <> [].
Proof.
  destruct s as [|c s]; cbn [split]; [discriminate|].
  destruct (Ascii.eqb c sep); [discriminate|]. destruct (split sep s); discriminate.
Qed.

Lemma join_cons_char sep c w ws :
  join sep (String c w :: ws) = String c (join sep (w :: ws)).
Proof. destruct ws; reflexivity. Qed.

Lemma join_split sep s : join (String sep "") (split sep s) = s.
Proof.
  induction s as [|c s IH]; [reflexivity|]. cbn [split].
  destruct (Ascii.eqb c sep) eqn:E.
  - apply Ascii.eqb_eq in E. subst c.
    pose proof (split_not_nil sep s) as N.
    destruct (split sep s) as [|w ws]; [congruence|].
    change (join (String sep "") ("" :: w :: ws))
      with (String sep (join (String sep "") (w :: ws))).
    rewrite IH. reflexivity.
  - pose proof (split_not_nil sep s) as N.
    destruct (split sep s) as [|w ws]; [congruence|].
    rewrite join_cons_char, IH. reflexivity.
Qed.

Lemma split_parts sep s : Forall (fun w => occurs sep w = false) (split sep s).
Proof.
  induction s as [|c s IH]; cbn [split]; [repeat constructor|].
  destruct (Ascii.eqb c sep) eqn:E.
  - constructor; [reflexivity|exact IH].
  - destruct (split sep s) as [|w ws]; [repeat constructor; cbn; rewrite E; reflexivity|].
    inversion IH as [|w' ws' Hw Hws]; subst.
    constructor; [cbn [occurs]; rewrite E; exact Hw|exact Hws].
Qed.

Lemma split_join sep l :
  l <> [] -> Forall (fun w => occurs sep w = false) l ->
  split sep (join (String sep "") l) = l.
Proof.
  induction l as [|w l IH]; intros N H; [congruence|].
  inversion H as [|w' l' Hw Hl]; subst.
  destruct l as [|w2 l].
  - apply split_no_sep, Hw.
  - change (join (String sep "") (w :: w2 :: l))
      with (w ++ String sep (join (String sep "") (w2 :: l))).
    rewrite split_app_sep by exact Hw. rewrite IH by (discriminate || exact Hl).
    reflexivity.
Qed.

Lemma reverse_twice s :
  join "-" (reverse (split "-" (join "-" (reverse (split "-" s))))) = s.
Proof.
  unfold reverse. rewrite split_join.
  - rewrite rev_involutive. apply join_split.
  - intros E. apply (f_equal (@rev string)) in E. rewrite rev_involutive in E.
    exact (split_not_nil _ _ E).
  - apply Forall_rev, split_parts.
Qed.

(** X18. In every extracted record [moreInfoUrl] is the detail template
    around a date segment and the order number, and splitting that segment
    at its hyphens, reversing and joining again gives back [startDate]: the
    reversal loses nothing, whatever the start date cell holds. *)
Theorem start_date_recoverable_from_detail_url now ordNum rows r :
  extract now ordNum rows = Some r ->
  exists segment,
    moreInfoUrl r =
      "https://ec.europa.eu/taxation_customs/dds2/taric/quota_tariff_details.jsp?Lang=en&StartDate="
      ++ segment ++ "&Code=" ++ ordNum /\
    join "-" (reverse (split "-" segment)) = startDate r.
Proof.
  intros H. destruct (extract_some _ _ _ _ H) as (cells & _ & _ & Hr).
  destruct (read_row_some _ _ _ _ Hr) as (m1 & m2 & _ & ->).
  cbn [moreInfoUrl startDate]. unfold detail_url.
  eexists. split; [reflexivity|]. apply reverse_twice.
Qed.

(** The table with a heading row and a row of another quota. *)
Lemma start_date_recoverable_from_detail_url_witness :
  exists r,
    extract "2025-06-01T00:00:00.000Z" "098701" quota_table = Some r /\
    exists segment,
      moreInfoUrl r =
        "https://ec.europa.eu/taxation_customs/dds2/taric/quota_tariff_details.jsp?Lang=en&StartDate="
        ++ segment ++ "&Code=" ++ "098701" /\
      join "-" (reverse (split "-" segment)) = startDate r.
Proof.
  eexists. split; [vm_compute; reflexivity|].
  apply (start_date_recoverable_from_detail_url "2025-06-01T00:00:00.000Z" "098701" quota_table).
  vm_compute. reflexivity.
Defined.
